(** * ftp_client.py: a shallow embedding of [FTPClient] and its properties

    The client of [src/ftp_client.py] is embedded as a family of
    computations in a state / exception / event-log monad:

    - the mutable attribute [self.connection_pool], the allocator of
      [ftplib.FTP] object identities, the local file system and the state
      of the outside world (network and FTP server) form the [World];
    - every call into [ftplib] is a [call] answered by an arbitrary
      responder [respond], which stands for every possible behaviour of
      the network and of the server;
    - every run yields, next to its outcome and final world, the list of
      [event]s it caused, in order: the [ftplib] calls, the sleeps of the
      retry decorator and the log records.

    The [@retry] decorator comes from the third-party package [retrying];
    [Retrying_call] follows its [Retrying.call] method. *)

From Stdlib Require Import ZArith Lia Ascii.
From stdpp Require Import base option list strings gmap.

Local Open Scope Z_scope.

(** ** Python values used by the client *)

(** Exception classes that the client, [ftplib], [retrying], the
    executor, the progress bar and the [os] module raise on the paths
    modelled below.  All of them derive from [Exception]. *)
Inductive exn_class : Type :=
  | error_perm          (* ftplib.error_perm: 5xx reply *)
  | error_temp          (* ftplib.error_temp: 4xx reply *)
  | error_proto         (* ftplib.error_proto *)
  | EOFError
  | TimeoutError
  | OSError
  | FileNotFoundError
  | TypeError
  | AttributeError
  | UnboundLocalError
  | IndexError
  | ValueError
  | OverflowError
  | FTPConnectionError  (* class FTPConnectionError(Exception) *)
  | FTPTransferError.   (* class FTPTransferError(Exception) *)

Global Instance exn_class_eq_dec : EqDecision exn_class.
Proof. solve_decision. Defined.

(** An exception object: its class and [str(e)]. *)
Record exn : Type := Exc { exc_class : exn_class; str : string }.

Global Instance exn_eq_dec : EqDecision exn.
Proof. solve_decision. Defined.

(** [except cls as e] *)
Definition isinstance (e : exn) (cls : exn_class) : bool :=
  bool_decide (exc_class e = cls).

Inductive result (A : Type) : Type :=
  | Ok (a : A)
  | Raise (e : exn).
Global Arguments Ok {A} a.
Global Arguments Raise {A} e.

(** Identity of an [ftplib.FTP] object. *)
Definition Conn : Type := nat.

Definition chunk : Type := list Byte.byte.

(** The calls the client makes into [ftplib], indexed by the type of what
    they return.  Reply strings that the client discards are returned as
    [unit]. *)
Inductive call : Type → Type :=
  | Connect (ftp : Conn) (host : string) (port : Z) : call unit
  | Login (ftp : Conn) (user passwd : string) : call unit
  | ProtP (ftp : Conn) : call unit
  | Voidcmd (ftp : Conn) (cmd : string) : call unit
  | Size (ftp : Conn) (path : string) : call (option Z)
  | Sendcmd (ftp : Conn) (cmd : string) : call string
    (* the blocks received, and the error that ends the transfer if any *)
  | Retrbinary (ftp : Conn) (cmd : string) : call (list chunk * option exn)
    (* [None]: every block is sent and the final reply is positive;
       [Some (k, e)]: [e] is raised once [k] blocks have been sent *)
  | Storbinary (ftp : Conn) (cmd : string) (blocks : list chunk)
      : call (option (nat * exn))
  | Nlst (ftp : Conn) (path : string) : call (list string)
  | Cwd (ftp : Conn) (path : string) : call unit
  | Mkd (ftp : Conn) (path : string) : call unit
  | Delete (ftp : Conn) (path : string) : call unit
  | Rename (ftp : Conn) (fromname toname : string) : call unit
  | Quit (ftp : Conn) : call unit.

Inductive level : Type := INFO | WARNING | ERROR.

Inductive event : Type :=
  | EvCall {A : Type} (c : call A)
  | EvSleep (ms : Z)
  | EvLog (lvl : level) (msg : string).

(** Constructor arguments of [FTPClient.__init__] that are stored and never
    reassigned. *)
Record FTPClient : Type := {
  hostname : string;
  username : string;
  password : string;
  port : Z;
  use_tls : bool;
  max_connections : Z;
  timeout : Z;
  retry_attempts : Z;
  retry_multiplier : Z;
  retry_max : Z;
}.

(** The FTP verb, or [ftplib] method, behind a call. *)
Definition verb {A} (c : call A) : string :=
  match c with
  | Connect _ _ _ => "CONNECT"
  | Login _ _ _ => "LOGIN"
  | ProtP _ => "PROT"
  | Voidcmd _ cmd => cmd
  | Size _ _ => "SIZE"
  | Sendcmd _ cmd => cmd
  | Retrbinary _ _ => "RETR"
  | Storbinary _ _ _ => "STOR"
  | Nlst _ _ => "NLST"
  | Cwd _ _ => "CWD"
  | Mkd _ _ => "MKD"
  | Delete _ _ => "DELE"
  | Rename _ _ _ => "RENAME"
  | Quit _ => "QUIT"
  end.

(** The verbs of the calls among the events of a run, in order. *)
Definition verbs (evs : list event) : list string :=
  omap (λ ev, match ev with EvCall c => Some (verb c) | _ => None end) evs.

(** ** [os.path] (posixpath) on strings *)

Module os_path.

Definition slash : Ascii.ascii := "/"%char.

Definition is_slash (c : Ascii.ascii) : bool := bool_decide (c = slash).

(** [p.rfind('/')]: the part up to and including the last slash, and the
    part after it; [None] when [p] has no slash. *)
Fixpoint rsplit (p : string) : option (string * string) :=
  match p with
  | EmptyString => None
  | String c s =>
      match rsplit s with
      | Some (h, t) => Some (String c h, t)
      | None => if is_slash c then Some (String c EmptyString, s) else None
      end
  end.

Fixpoint all_slashes (s : string) : bool :=
  match s with
  | EmptyString => true
  | String c s' => is_slash c && all_slashes s'
  end.

(** [s.rstrip('/')] *)
Fixpoint rstrip (s : string) : string :=
  match s with
  | EmptyString => EmptyString
  | String c s' =>
      if all_slashes s then EmptyString else String c (rstrip s')
  end.

Definition basename (p : string) : string :=
  match rsplit p with
  | Some (_, t) => t
  | None => p
  end.

Definition dirname (p : string) : string :=
  match rsplit p with
  | Some (h, _) => if all_slashes h then h else rstrip h
  | None => EmptyString
  end.

Definition endswith_slash (a : string) : bool :=
  match rsplit a with
  | Some (_, EmptyString) => true
  | _ => false
  end.

Definition join (a b : string) : string :=
  match b with
  | String c _ =>
      if is_slash c then b
      else if bool_decide (a = EmptyString) || endswith_slash a then a +:+ b
      else a +:+ "/" +:+ b
  | EmptyString =>
      if bool_decide (a = EmptyString) || endswith_slash a then a
      else a +:+ "/"
  end.

End os_path.

(** ** [str] methods *)

Definition startswith (s pre : string) : bool := String.prefix pre s.

(** [sub in s] *)
Fixpoint contains (sub s : string) : bool :=
  String.prefix sub s ||
  match s with
  | EmptyString => false
  | String _ s' => contains sub s'
  end.

Definition lower_ascii (c : Ascii.ascii) : Ascii.ascii :=
  let n := Ascii.nat_of_ascii c in
  if (Nat.leb 65 n && Nat.leb n 90)%bool then Ascii.ascii_of_nat (n + 32) else c.

Fixpoint lower (s : string) : string :=
  match s with
  | EmptyString => EmptyString
  | String c s' => String (lower_ascii c) (lower s')
  end.

(** [s.split(' ')] *)
Fixpoint split_space (s : string) : list string :=
  match s with
  | EmptyString => [EmptyString]
  | String c s' =>
      if bool_decide (c = " "%char) then EmptyString :: split_space s'
      else match split_space s' with
           | w :: ws => String c w :: ws
           | [] => [String c EmptyString]
           end
  end.

(** ** The third-party [retrying] package: configuration of a [Retrying] *)

Record Retrying : Type := {
  stop_max_attempt_number : nat;
  (* [self.wait(previous_attempt_number, _)], in milliseconds *)
  wait : nat → Z;
  (* [self._retry_on_exception] *)
  retry_on_exception : exn → bool;
}.

(** Default of [retry_on_exception]. *)
Definition always_reject (e : exn) : bool := true.

(** [wait_fixed=ms] *)
Definition fixed_sleep (ms : Z) (previous_attempt_number : nat) : Z := ms.

(** [wait_exponential_multiplier=m, wait_exponential_max=mx] *)
Definition exponential_sleep (multiplier mx : Z) (previous_attempt_number : nat) : Z :=
  let exp := 2 ^ Z.of_nat previous_attempt_number in
  let result := multiplier * exp in
  let result := if mx <? result then mx else result in
  if result <? 0 then 0 else result.

(** [Attempt(value, attempt_number, has_exception)] *)
Record Attempt (A : Type) : Type := {
  value : result A;
  attempt_number : nat;
}.
Global Arguments value {A} _.
Global Arguments attempt_number {A} _.

Definition should_reject {A} (p : Retrying) (attempt : Attempt A) : bool :=
  match value attempt with
  | Raise e => retry_on_exception p e
  | Ok _ => false          (* [retry_on_result] is left at [never_reject] *)
  end.

(** [@retry(stop_max_attempt_number=5, wait_fixed=2000)] *)
Definition retry_create_connection : Retrying := {|
  stop_max_attempt_number := 5;
  wait := fixed_sleep 2000;
  retry_on_exception := always_reject;
|}.

(** [@retry(wait_exponential_multiplier=1000, wait_exponential_max=10000,
           stop_max_attempt_number=5)] *)
Definition retry_operation : Retrying := {|
  stop_max_attempt_number := 5;
  wait := exponential_sleep 1000 10000;
  retry_on_exception := always_reject;
|}.

(** ** The external collaborators *)

(** The protocol engine: [Env] is the state of the network and of the FTP
    server, [respond] how it answers a call and moves on. *)
Class Transport (Env : Type) : Type :=
  respond : ∀ A : Type, call A → Env → result A * Env.

(** [hashlib.md5(content).hexdigest()] *)
Class Hashlib : Type :=
  md5_hexdigest : list Byte.byte → string.

(** The machine the client runs on.  [open_error path] is what
    [open(path, 'wb')] raises, if anything: a missing directory, a missing
    permission, a directory at [path].  The client creates no directory and
    changes no permission, so this does not change during a run.
    [tqdm_error total] is what building the progress bar
    [tqdm(total=total, unit='B', unit_scale=True, desc=...)] raises, if
    anything; [total] is [None] when the server gives no size. *)
Class Host : Type := {
  open_error : string → option exn;
  tqdm_error : option Z → option exn;
}.

(** ** The monad of client computations *)

Section Client.

Context `{Transport Env} `{Hashlib} `{Host}.

Record World : Type := {
  connection_pool : list Conn;          (* self.connection_pool *)
  next_conn : Conn;                     (* next fresh object identity *)
  env : Env;
  files : gmap string (list Byte.byte);      (* local file system *)
}.

Definition M (A : Type) : Type := World → result A * World * list event.

Definition outcome {A} (x : result A * World * list event) : result A := x.1.1.
Definition final {A} (x : result A * World * list event) : World := x.1.2.
Definition events {A} (x : result A * World * list event) : list event := x.2.

Global Instance M_ret : MRet M := λ A a w, (Ok a, w, []).

Global Instance M_bind : MBind M := λ A B f m w,
  match m w with
  | (Ok a, w1, ev1) => let '(r, w2, ev2) := f a w1 in (r, w2, ev1 ++ ev2)
  | (Raise e, w1, ev1) => (Raise e, w1, ev1)
  end.

Definition raise {A} (e : exn) : M A := λ w, (Raise e, w, []).

(** Runs [m] and hands over how it ended. *)
Definition try_ {A} (m : M A) : M (result A) := λ w,
  let '(r, w1, ev1) := m w in (Ok r, w1, ev1).

Definition lift_result {A} (r : result A) : M A :=
  match r with Ok a => mret a | Raise e => raise e end.

(** [try: m  except Exception as e: handler e] *)
Definition try_except {A} (m : M A) (handler : exn → M A) : M A :=
  r ← try_ m;
  match r with Ok a => mret a | Raise e => handler e end.

(** [try: m  finally: fin] *)
Definition try_finally {A} (m : M A) (fin : M unit) : M A :=
  r ← try_ m; fin;; lift_result r.

Definition sys {A} (c : call A) : M A := λ w,
  let '(r, env') := respond A c (env w) in
  (r,
   {| connection_pool := connection_pool w; next_conn := next_conn w;
      env := env'; files := files w |},
   [EvCall c]).

Definition log (lvl : level) (msg : string) : M unit := λ w,
  (Ok tt, w, [EvLog lvl msg]).

(** [time.sleep(ms / 1000.0)] *)
Definition sleep (ms : Z) : M unit := λ w, (Ok tt, w, [EvSleep ms]).

Definition get_pool : M (list Conn) := λ w, (Ok (connection_pool w), w, []).

Definition set_pool (pool : list Conn) : M unit := λ w,
  (Ok tt,
   {| connection_pool := pool; next_conn := next_conn w;
      env := env w; files := files w |},
   []).

(** A new [ftplib.FTP] / [ftplib.FTP_TLS] object. *)
Definition new_FTP : M Conn := λ w,
  (Ok (next_conn w),
   {| connection_pool := connection_pool w; next_conn := S (next_conn w);
      env := env w; files := files w |},
   []).

Definition get_files : M (gmap string (list Byte.byte)) := λ w, (Ok (files w), w, []).

Definition set_files (fs : gmap string (list Byte.byte)) : M unit := λ w,
  (Ok tt,
   {| connection_pool := connection_pool w; next_conn := next_conn w;
      env := env w; files := fs |},
   []).

(** ** [Retrying.call] *)

(** The loop of [Retrying.call], from attempt [attempt_number] on.
    [budget] is [stop_max_attempt_number - attempt_number], so that the
    test [attempt_number >= stop_max_attempt_number] of [stop_after_attempt]
    is [budget = 0].  The result is the attempts that were rejected and
    followed by a sleep, then the attempt that ended the loop. *)
Fixpoint Retrying_loop {A} (p : Retrying) (fn : M A) (budget attempt_number : nat)
    : M (list (Attempt A) * Attempt A) :=
  r ← try_ fn;
  let attempt := {| value := r; attempt_number := attempt_number |} in
  if negb (should_reject p attempt) then mret ([], attempt)
  else
    match budget with
    | O => mret ([], attempt)
    | S budget' =>
        sleep (wait p attempt_number);;
        '(earlier, last) ← Retrying_loop p fn budget' (S attempt_number);
        mret (attempt :: earlier, last)
    end.

Definition Retrying_attempts {A} (p : Retrying) (fn : M A)
    : M (list (Attempt A) * Attempt A) :=
  Retrying_loop p fn (stop_max_attempt_number p - 1) 1.

(** [attempt.get()]: the value, or the exception raised again. *)
Definition Retrying_call {A} (p : Retrying) (fn : M A) : M A :=
  '(_, last) ← Retrying_attempts p fn;
  lift_result (value last).

(** How many times [Retrying.call] invokes [fn] from world [w]. *)
Definition invocations {A} (p : Retrying) (fn : M A) (w : World) : nat :=
  match outcome (Retrying_attempts p fn w) with
  | Ok (earlier, _) => S (length earlier)
  | Raise _ => 0
  end.

(** "On a fatal failure, raise immediately without consuming a retry
    attempt", for the decorator of the transfer and metadata operations and
    a class [fatal] of exceptions. *)
Definition fatal_raised_at_once (fatal : exn → bool) : Prop :=
  ∀ (fn : M unit) (w : World) (e : exn),
    outcome (fn w) = Raise e → fatal e = true →
    invocations retry_operation fn w = 1%nat ∧
    outcome (Retrying_call retry_operation fn w) = Raise e.

(** ** The local file system

    A flat finite map from path to content.  Opening a path for writing
    raises what the host says, and creates or truncates the file
    otherwise; reading a missing file raises [FileNotFoundError]. *)

Definition no_such_file (path : string) : exn :=
  Exc FileNotFoundError ("[Errno 2] No such file or directory: '" +:+ path +:+ "'").

(** [open(path, 'wb')] *)
Definition open_wb (path : string) : M unit :=
  match open_error path with
  | Some e => raise e
  | None => fs ← get_files; set_files (<[path := []]> fs)
  end.

(** [file.write(data)] on the file opened at [path] *)
Definition file_write (path : string) (data : chunk) : M unit :=
  fs ← get_files; set_files (alter (λ old, old ++ data) path fs).

(** [open(path, 'rb')] and the bytes read through it *)
Definition read_file (path : string) : M (list Byte.byte) :=
  fs ← get_files;
  match fs !! path with
  | Some content => mret content
  | None => raise (no_such_file path)
  end.

(** [os.path.getsize(path)] *)
Definition getsize (path : string) : M Z :=
  content ← read_file path; mret (Z.of_nat (length content)).

(** [os.remove(path)] *)
Definition os_remove (path : string) : M unit :=
  fs ← get_files;
  match fs !! path with
  | Some _ => set_files (delete path fs)
  | None => raise (no_such_file path)
  end.

(** ** The connection pool *)

Variable self : FTPClient.

Definition _create_connection_body : M Conn :=
  try_except
    (ftp ← new_FTP;
     sys (Connect ftp (hostname self) (port self));;
     sys (Login ftp (username self) (password self));;
     (if use_tls self then sys (ProtP ftp) else mret tt);;
     mret ftp)
    (λ e,
      if isinstance e TimeoutError then
        log ERROR "Connection attempt timed out, retrying...";;
        raise (Exc FTPConnectionError "Timeout error while connecting to FTP server.")
      else
        raise (Exc FTPConnectionError ("Error connecting to FTP server: " +:+ str e))).

Definition _create_connection : M Conn :=
  Retrying_call retry_create_connection _create_connection_body.

(** [self.connection_pool.pop()] *)
Definition pool_pop : M Conn :=
  pool ← get_pool;
  match reverse pool with
  | conn :: rest => set_pool (reverse rest);; mret conn
  | [] => raise (Exc IndexError "pop from empty list")
  end.

Definition _get_connection : M Conn :=
  pool ← get_pool;
  if 0 <? Z.of_nat (length pool) then
    conn ← pool_pop;
    alive ← try_ (sys (Voidcmd conn "NOOP"));
    match alive with
    | Ok _ => mret conn
    | Raise _ =>
        log WARNING "Recreating a dropped FTP connection.";;
        _create_connection
    end
  else _create_connection.

Definition _release_connection (conn : Conn) (auto_release : bool) : M unit :=
  if auto_release then
    pool ← get_pool;
    if Z.of_nat (length pool) <? max_connections self then
      set_pool (pool ++ [conn])
    else sys (Quit conn)
  else mret tt.

(** [with self.ftp_connection(auto_release) as ftp: body ftp] *)
Definition ftp_connection {A} (auto_release : bool) (body : Conn → M A) : M A :=
  conn ← _get_connection;
  try_finally (body conn) (_release_connection conn auto_release).

(** ** Streaming *)

Fixpoint for_each {A} (f : A → M unit) (xs : list A) : M unit :=
  match xs with
  | [] => mret tt
  | x :: xs' => f x;; for_each f xs'
  end.

(** [ftp.retrbinary(cmd, callback)] *)
Definition retrbinary (ftp : Conn) (cmd : string) (callback : chunk → M unit) : M unit :=
  '(blocks, failure) ← sys (Retrbinary ftp cmd);
  for_each callback blocks;;
  match failure with
  | Some e => raise e
  | None => mret tt
  end.

Definition blocksize : nat := Z.to_nat 8192.

(** [fp.read(blocksize)] until exhausted *)
Fixpoint blocks_of (fuel : nat) (data : list Byte.byte) : list chunk :=
  match fuel, data with
  | S fuel', _ :: _ => take blocksize data :: blocks_of fuel' (drop blocksize data)
  | _, _ => []
  end.

Definition read_blocks (data : list Byte.byte) : list chunk :=
  blocks_of (length data) data.

Fixpoint send_blocks (failure : option (nat * exn)) (callback : chunk → M unit)
    (sent : nat) (blocks : list chunk) : M unit :=
  match blocks with
  | [] =>
      match failure with
      | Some (_, e) => raise e
      | None => mret tt
      end
  | block :: rest =>
      match failure with
      | Some (k, e) =>
          if Nat.leb k sent then raise e
          else callback block;; send_blocks failure callback (S sent) rest
      | None => callback block;; send_blocks failure callback (S sent) rest
      end
  end.

(** [ftp.storbinary(cmd, file, callback=callback)] *)
Definition storbinary (ftp : Conn) (cmd : string) (data : list Byte.byte)
    (callback : chunk → M unit) : M unit :=
  failure ← sys (Storbinary ftp cmd (read_blocks data));
  send_blocks failure callback 0 (read_blocks data).

(** ** Transfers *)

(** [self.keep_alive(ftp)]: the class defines no attribute [keep_alive],
    so the attribute lookup raises. *)
Definition keep_alive (ftp : Conn) : M unit :=
  raise (Exc AttributeError "'FTPClient' object has no attribute 'keep_alive'").

(** [periodic_keep_alive] is called nowhere in the class.  The timer that
    would call it again is created after [self.keep_alive(ftp)], which
    raises. *)
Definition periodic_keep_alive (ftp : Conn) (interval : Z) : M unit :=
  keep_alive ftp.

(** The function object that the class body binds to [download_file] is
    the second [def download_file] (line 234): it rebinds the name, so the
    first one (line 149), whose callbacks call [self.keep_alive(ftp)], is
    never called.

    When the caller passes a callback, the nested
    [def progress_callback(data)] rebinds the local name that it reads:
    the nested function calls itself with [len(data)], and [file.write] of
    an [int] raises [TypeError]. *)
Definition download_callback (local_file_path : string)
    (progress_callback : option (Z → option exn)) (data : chunk) : M unit :=
  match progress_callback with
  | None => file_write local_file_path data
  | Some _ =>
      file_write local_file_path data;;
      raise (Exc TypeError "a bytes-like object is required, not 'int'")
  end.

(** [with tqdm(total=total_size, unit='B', unit_scale=True, desc=...) as
    pbar:] around the definition of the default callback: the bar is built,
    and closed again, before the transfer starts. *)
Definition tqdm (total : option Z) : M unit :=
  match tqdm_error total with
  | Some e => raise e
  | None => mret tt
  end.

(** Streaming phase: the [with open(local_file_path, 'wb')] block.  The
    progress bar is built when no callback is given. *)
Definition download_stream (remote_file_path local_file_path : string)
    (progress_callback : option (Z → option exn)) (ftp : Conn) : M unit :=
  open_wb local_file_path;;
  total_size ← sys (Size ftp remote_file_path);
  match progress_callback with
  | None => tqdm total_size
  | Some _ => mret tt
  end;;
  retrbinary ftp ("RETR " +:+ remote_file_path)
    (download_callback local_file_path progress_callback).

(** An invocation of [download_file] from [w] whose streaming phase
    completes and leaves a local file of zero bytes. *)
Definition streams_zero_bytes (remote_file_path local_file_path : string)
    (progress_callback : option (Z → option exn)) (w : World) : Prop :=
  ∃ conn,
    outcome (_get_connection w) = Ok conn ∧
    let streamed :=
      download_stream remote_file_path local_file_path progress_callback conn
        (final (_get_connection w)) in
    outcome streamed = Ok tt ∧
    files (final streamed) !! local_file_path = Some [].

Definition empty_download (local_file_path : string) : exn :=
  Exc FTPTransferError ("Downloaded file " +:+ local_file_path +:+ " is empty (0KB)").

(** "Check if the file was actually downloaded" *)
Definition download_check (remote_file_path local_file_path : string) : M unit :=
  local_file_size ← getsize local_file_path;
  if local_file_size =? 0 then raise (empty_download local_file_path)
  else log INFO ("Downloaded: " +:+ remote_file_path +:+ " to " +:+ local_file_path).

(** The [except] clauses of [download_file]. *)
Definition download_handlers (remote_file_path : string) (e : exn) : M unit :=
  if isinstance e error_perm then
    (if startswith (str e) "550" then
       log ERROR ("File not found on server: " +:+ remote_file_path)
     else mret tt);;
    raise (Exc FTPTransferError
             ("Failed to download file " +:+ remote_file_path +:+ ": " +:+ str e))
  else
    raise (Exc FTPTransferError ("Error during download: " +:+ str e)).

(** The liveness commands among the events of a run. *)
Definition is_keepalive (ev : event) : bool :=
  match ev with
  | EvCall c =>
      match c with
      | Voidcmd _ cmd => bool_decide (cmd = "NOOP")
      | _ => false
      end
  | _ => false
  end.

Definition keepalives (evs : list event) : list event := filter is_keepalive evs.

(** The undecorated function. *)
Definition download_file_body (remote_file_path local_file_path : string)
    (progress_callback : option (Z → option exn)) (auto_release : bool) : M unit :=
  log INFO ("Starting download of " +:+ remote_file_path +:+ " to " +:+ local_file_path);;
  try_except
    (ftp_connection auto_release (λ ftp,
       download_stream remote_file_path local_file_path progress_callback ftp;;
       download_check remote_file_path local_file_path))
    (download_handlers remote_file_path).

Definition download_file (remote_file_path local_file_path : string)
    (progress_callback : option (Z → option exn)) (auto_release : bool) : M unit :=
  Retrying_call retry_operation
    (download_file_body remote_file_path local_file_path progress_callback auto_release).

Definition upload_file_body (local_file_path remote_file_path : string)
    (progress_callback : option (chunk → option exn)) (auto_release : bool) : M unit :=
  log INFO ("Starting upload of " +:+ local_file_path +:+ " to " +:+ remote_file_path);;
  ftp_connection auto_release (λ ftp,
    try_except
      (data ← read_file local_file_path;
       total_size ← getsize local_file_path;
       let callback : chunk → M unit :=
         match progress_callback with
         | None => λ block, mret tt
         | Some f => λ block,
             match f block with
             | Some e => raise e
             | None => mret tt
             end
         end in
       storbinary ftp ("STOR " +:+ remote_file_path) data callback;;
       log INFO ("Uploaded: " +:+ local_file_path +:+ " to " +:+ remote_file_path))
      (λ e,
        log WARNING ("Retry attempt for file upload: " +:+ local_file_path);;
        raise (Exc FTPTransferError
                 ("Failed to upload file " +:+ local_file_path +:+ ": " +:+ str e)))).

Definition upload_file (local_file_path remote_file_path : string)
    (progress_callback : option (chunk → option exn)) (auto_release : bool) : M unit :=
  Retrying_call retry_operation
    (upload_file_body local_file_path remote_file_path progress_callback auto_release).

(** ** Directory and file operations *)

Definition directory_exists (remote_path : string) (auto_release : bool) : M bool :=
  try_except
    (ftp_connection auto_release (λ ftp,
       sys (Cwd ftp remote_path);; mret true))
    (λ e, if isinstance e error_perm then mret false else raise e).

Definition create_directory_body (remote_directory_path : string)
    (auto_release : bool) : M unit :=
  try_except
    (ftp_connection auto_release (λ ftp,
       sys (Mkd ftp remote_directory_path);;
       log INFO ("Created directory: " +:+ remote_directory_path)))
    (λ e,
      raise (Exc FTPTransferError
               ("Failed to create directory " +:+ remote_directory_path +:+ ": " +:+ str e))).

Definition create_directory (remote_directory_path : string)
    (auto_release : bool) : M unit :=
  Retrying_call retry_operation
    (create_directory_body remote_directory_path auto_release).

(** The [with] block of [check_file_exists]. *)
Definition check_file_exists_listing (remote_file_path : string)
    (auto_release : bool) : M bool :=
  ftp_connection auto_release (λ ftp,
    files ← sys (Nlst ftp (os_path.dirname remote_file_path));
    mret (bool_decide (os_path.basename remote_file_path ∈ files))).

Definition check_file_exists (remote_file_path : string) (auto_release : bool) : M bool :=
  try_except
    (check_file_exists_listing remote_file_path auto_release)
    (λ e,
      log ERROR ("Failed to check if file exists " +:+ remote_file_path +:+ ": " +:+ str e);;
      mret false).

(** "Ensure the destination directory exists" *)
Definition ensure_directory (dest_remote_directory : string) : M unit :=
  exists_ ← directory_exists dest_remote_directory false;
  if negb exists_ then
    create_directory dest_remote_directory false;;
    log INFO ("Created directory: " +:+ dest_remote_directory)
  else mret tt.

(** What evaluating [datetime.datetime] raises. *)
Definition datetime_datetime : exn :=
  Exc AttributeError "type object 'datetime.datetime' has no attribute 'datetime'".

(** The [with] block of [move_file].  It is run to its end and hands over
    how it ended together with the local variable [dest_remote_path]
    ([None] while the name is unbound), which the exception handlers of
    [move_file] read.

    [datetime] is bound by [from datetime import datetime] to the class,
    so evaluating [datetime.datetime.now()] raises [AttributeError]; the
    statements after it in that branch are never reached. *)
Definition move_file_block (src_remote_path dest_remote_directory : string)
    (overwrite : bool) (ftp : Conn) : M (result unit * option string) :=
  let file_name := os_path.basename src_remote_path in
  ensured ← try_ (ensure_directory dest_remote_directory);
  match ensured with
  | Raise e => mret (Raise e, None)
  | Ok _ =>
      let dest_remote_path := os_path.join dest_remote_directory file_name in
      moved ← try_
        (dest_exists ← check_file_exists dest_remote_path false;
         (if dest_exists : bool then
            if overwrite then
              try_except
                (sys (Delete ftp dest_remote_path);;
                 log INFO ("Deleted existing file at destination: " +:+ dest_remote_path))
                (λ e,
                  if isinstance e error_perm then
                    raise (Exc FTPTransferError
                             ("Failed to delete existing file at " +:+ dest_remote_path
                              +:+ ": " +:+ str e))
                  else raise e)
            else raise datetime_datetime
          else mret tt);;
         sys (Rename ftp src_remote_path dest_remote_path);;
         log INFO ("Moved file from " +:+ src_remote_path +:+ " to " +:+ dest_remote_path));
      mret (moved, Some dest_remote_path)
  end.

(** The [except] clauses of [move_file]. *)
Definition move_file_handlers (src_remote_path dest_remote_directory : string)
    (dest_remote_path : option string) (e : exn) : M unit :=
  let failed :=
    Exc FTPTransferError
      ("Failed to move file from " +:+ src_remote_path +:+ " to "
       +:+ dest_remote_directory +:+ ": " +:+ str e) in
  if isinstance e error_perm then
    let error_msg := str e in
    if contains "550" error_msg then
      if contains "already exists" (lower error_msg) then
        match dest_remote_path with
        | Some dest =>
            raise (Exc FTPTransferError
                     ("Destination file already exists and overwrite is disabled: " +:+ dest))
        | None =>
            raise (Exc UnboundLocalError
                     "cannot access local variable 'dest_remote_path' where it is not associated with a value")
        end
      else raise (Exc FTPTransferError ("Permission denied: " +:+ error_msg))
    else raise failed
  else raise failed.

(** [with self.ftp_connection(auto_release) as ftp: ...] is written out
    here, to keep [dest_remote_path] for the handlers
    ([move_file_body_with_block] below relates it to [ftp_connection]). *)
Definition move_file_body (src_remote_path dest_remote_directory : string)
    (auto_release overwrite : bool) : M unit :=
  acquired ← try_ _get_connection;
  '(ended, dest_remote_path) ←
    match acquired with
    | Raise e => mret (Raise e, None)
    | Ok ftp =>
        '(ended, dest_remote_path) ←
          move_file_block src_remote_path dest_remote_directory overwrite ftp;
        released ← try_ (_release_connection ftp auto_release);
        match released with
        | Raise e => mret (Raise e, dest_remote_path)
        | Ok _ => mret (ended, dest_remote_path)
        end
    end;
  match ended with
  | Ok _ => mret tt
  | Raise e => move_file_handlers src_remote_path dest_remote_directory dest_remote_path e
  end.

Definition move_file (src_remote_path dest_remote_directory : string)
    (auto_release overwrite : bool) : M unit :=
  Retrying_call retry_operation
    (move_file_body src_remote_path dest_remote_directory auto_release overwrite).

(** ** Integrity verification *)

(** Feeding the content to [hashlib.md5] in blocks of 4096 bytes hashes
    the whole content. *)
Definition calculate_md5 (file_path : string) : M string :=
  content ← read_file file_path; mret (md5_hexdigest content).

Definition site_md5_unsupported : string :=
  "SITE MD5 command not supported. Downloading remote file for checksum comparison.".

(** The handler of the inner [except Exception]. *)
Definition download_and_hash (local_file_path remote_file_path : string) : M string :=
  log WARNING site_md5_unsupported;;
  let remote_file_path_temp := local_file_path +:+ ".temp" in
  download_file remote_file_path remote_file_path_temp None true;;
  remote_checksum ← calculate_md5 remote_file_path_temp;
  os_remove remote_file_path_temp;;
  mret remote_checksum.

Definition size_mismatch (local_file_path remote_file_path : string) : exn :=
  Exc FTPTransferError
    ("File size mismatch for " +:+ local_file_path +:+ " and " +:+ remote_file_path).

Definition checksum_mismatch (local_file_path remote_file_path : string) : exn :=
  Exc FTPTransferError
    ("Checksum mismatch for " +:+ local_file_path +:+ " and " +:+ remote_file_path).

(** The inner [try] block: sizes, then [SITE MD5]. *)
Definition sizes_then_site_md5 (local_file_path remote_file_path : string)
    (ftp : Conn) : M string :=
  local_size ← getsize local_file_path;
  remote_size ← sys (Size ftp remote_file_path);
  if negb (bool_decide (remote_size = Some local_size)) then
    raise (size_mismatch local_file_path remote_file_path)
  else
    reply ← sys (Sendcmd ftp ("SITE MD5 " +:+ remote_file_path));
    match split_space reply !! 1%nat with
    | Some checksum => mret checksum
    | None => raise (Exc IndexError "list index out of range")
    end.

Definition verify_file_integrity (local_file_path remote_file_path : string)
    (auto_release : bool) : M unit :=
  local_checksum ← calculate_md5 local_file_path;
  try_except
    (ftp_connection auto_release (λ ftp,
       remote_checksum ←
         try_except
           (sizes_then_site_md5 local_file_path remote_file_path ftp)
           (λ _, download_and_hash local_file_path remote_file_path);
       if negb (bool_decide (local_checksum = remote_checksum)) then
         raise (checksum_mismatch local_file_path remote_file_path)
       else
         log INFO ("Checksum verified for " +:+ local_file_path +:+ " and "
                   +:+ remote_file_path)))
    (λ e,
      raise (Exc FTPTransferError
               ("Failed to verify integrity for " +:+ local_file_path +:+ ": " +:+ str e))).

(** ** Parallel transfers

    [ThreadPoolExecutor] runs every submitted call to its end: leaving the
    [with] block waits for all of them, also when the loop over the
    futures raises.  The worker threads are embedded by the schedule of a
    one-worker executor, which runs the submitted calls one after the
    other in submission order; [future.result()] then returns or raises
    what the call did. *)

Fixpoint submit_all {A} (task : A → M unit) (items : list A) : M (list (result unit)) :=
  match items with
  | [] => mret []
  | item :: rest =>
      future ← try_ (task item);
      futures ← submit_all task rest;
      mret (future :: futures)
  end.

(** [for future in futures: try: future.result()
     except FTPTransferError as e: self.logger.error(...)] *)
Definition wait_all (what : string) (futures : list (result unit)) : M unit :=
  for_each (λ future : result unit,
    match future with
    | Ok _ => mret tt
    | Raise e =>
        if isinstance e FTPTransferError then
          log ERROR ("Error during parallel " +:+ what +:+ ": " +:+ str e)
        else raise e
    end) futures.

Definition ThreadPoolExecutor {A} (max_workers : Z) (body : M A) : M A :=
  if max_workers <=? 0 then
    raise (Exc ValueError "max_workers must be greater than 0")
  else body.

Definition parallel_upload (files : list (string * string)) : M unit :=
  ThreadPoolExecutor (max_connections self)
    (futures ← submit_all (λ '(local, remote), upload_file local remote None true) files;
     wait_all "upload" futures).

Definition parallel_download (files : list (string * string)) : M unit :=
  ThreadPoolExecutor (max_connections self)
    (futures ← submit_all (λ '(remote, local), download_file remote local None true) files;
     wait_all "download" futures).

(** "In no case is the session left neither pooled nor terminated": after
    the release the session is idle in the pool, or [QUIT] was sent on it. *)
Definition pooled_or_terminated (conn : Conn) (auto_release : bool) (w : World) : Prop :=
  let x := _release_connection conn auto_release w in
  conn ∈ connection_pool (final x) ∨ EvCall (Quit conn) ∈ events x.

(** [FTPClient(..., retry_attempts=a, retry_multiplier=m, retry_max=x)] with
    the other arguments of [self]. *)
Definition with_retry_settings (a m x : Z) : FTPClient := {|
  hostname := hostname self;
  username := username self;
  password := password self;
  port := port self;
  use_tls := use_tls self;
  max_connections := max_connections self;
  timeout := timeout self;
  retry_attempts := a;
  retry_multiplier := m;
  retry_max := x;
|}.

(** ** Holders of sessions

    A run of the pool under its lock: each operation is one critical
    section.  Next to the world, the run keeps the sessions that are checked
    out.  A release with [auto_release=False] leaves the session with its
    holder. *)

Inductive pool_op : Type :=
  | Acquire
  | Release (conn : Conn) (auto_release : bool).

Definition pool_step (st : World * list Conn) (op : pool_op) : World * list Conn :=
  let '(w, held) := st in
  match op with
  | Acquire =>
      let x := _get_connection w in
      match outcome x with
      | Ok conn => (final x, conn :: held)
      | Raise _ => (final x, held)
      end
  | Release conn auto_release =>
      (final (_release_connection conn auto_release w),
       if auto_release then filter (λ c, c ≠ conn) held else held)
  end.

Definition pool_run (ops : list pool_op) (st : World * list Conn) : World * list Conn :=
  foldl pool_step st ops.

(** Every release of the run is made by a holder of the session. *)
Fixpoint released_by_holders (ops : list pool_op) (st : World * list Conn) : Prop :=
  match ops with
  | [] => True
  | op :: rest =>
      match op with
      | Acquire => True
      | Release conn _ => conn ∈ st.2
      end ∧ released_by_holders rest (pool_step st op)
  end.

(** The idle sessions and the sessions checked out are distinct
    [ftplib.FTP] objects that exist. *)
Definition distinct_sessions (st : World * list Conn) : Prop :=
  NoDup (connection_pool st.1 ++ st.2) ∧
  Forall (λ c, (c < next_conn st.1)%nat) (connection_pool st.1 ++ st.2).

(** An idle pool: nothing is checked out. *)
Definition idle_sessions (w : World) : Prop := distinct_sessions (w, []).

Definition within_capacity (w : World) : Prop :=
  Z.of_nat (length (connection_pool w)) ≤ max_connections self.

End Client.

(** ** A simulated server, for running the client on concrete inputs *)

Module Sim.

Record Server : Type := {
  refuses : bool;                           (* no connection is accepted *)
  dropped : list Conn;                      (* sessions the server has closed *)
  sizes : gmap string Z;                    (* SIZE replies; else 550 *)
  site_replies : gmap string string;        (* replies to SITE commands; else 500 *)
  contents : gmap string (list chunk);      (* blocks sent on RETR; else 550 *)
  listings : gmap string (list string);     (* NLST replies; else 550 *)
  directories : list string;                (* where CWD succeeds; else 550 *)
}.

Definition reply_550 : exn := Exc error_perm "550 No such file or directory".

Definition from_map {A} (m : gmap string A) (key : string) (otherwise : exn) : result A :=
  match m !! key with
  | Some a => Ok a
  | None => Raise otherwise
  end.

Global Instance transport : Transport Server := λ A c s,
  match c in call T return result T * Server with
  | Connect _ _ _ =>
      (if refuses s then Raise (Exc OSError "[Errno 111] Connection refused") else Ok tt, s)
  | Login _ _ _ => (Ok tt, s)
  | ProtP _ => (Ok tt, s)
  | Voidcmd ftp _ =>
      (if bool_decide (ftp ∈ dropped s) then Raise (Exc EOFError "") else Ok tt, s)
  | Size _ path =>
      (match sizes s !! path with
       | Some n => Ok (Some n)
       | None => Raise reply_550
       end, s)
  | Sendcmd _ cmd =>
      (from_map (site_replies s) cmd (Exc error_perm "500 Unknown SITE command"), s)
  | Retrbinary _ cmd =>
      (match contents s !! cmd with
       | Some blocks => Ok (blocks, None)
       | None => Raise reply_550
       end, s)
  | Storbinary _ _ _ => (Ok None, s)
  | Nlst _ path => (from_map (listings s) path reply_550, s)
  | Cwd _ path =>
      (if bool_decide (path ∈ directories s) then Ok tt else Raise reply_550, s)
  | Mkd _ _ => (Ok tt, s)
  | Delete _ _ => (Ok tt, s)
  | Rename _ _ _ => (Ok tt, s)
  | Quit _ => (Ok tt, s)
  end.

(** An injective stand-in for the digest. *)
Global Instance hashlib : Hashlib := String.string_of_list_byte.

(** A machine whose only local directory is the working directory, so
    that a path with a slash cannot be opened for writing, and on which the
    progress bar cannot be built for a total that is no float. *)
Global Instance host : Host := {|
  open_error path :=
    if contains "/" path then Some (no_such_file path) else None;
  tqdm_error total :=
    match total with
    | Some n =>
        if 2 ^ 1024 <=? n then
          Some (Exc OverflowError "int too large to convert to float")
        else None
    | None => None
    end;
|}.

(** [FTPClient(hostname, username, password, port)] with the other
    arguments as given. *)
Definition client (max_connections retry_attempts : Z) : FTPClient := {|
  hostname := "ftp.example.org";
  username := "user";
  password := "secret";
  port := 21;
  use_tls := false;
  max_connections := max_connections;
  timeout := 10;
  retry_attempts := retry_attempts;
  retry_multiplier := 1000;
  retry_max := 10000;
|}.

Definition world (s : Server) (pool : list Conn) (next : Conn)
    (fs : gmap string (list Byte.byte)) : @World Server := {|
  connection_pool := pool;
  next_conn := next;
  env := s;
  files := fs;
|}.

Definition server : Server := {|
  refuses := false;
  dropped := [];
  sizes := ∅;
  site_replies := ∅;
  contents := ∅;
  listings := ∅;
  directories := [];
|}.

Definition unreachable : Server := {|
  refuses := true;
  dropped := [];
  sizes := ∅;
  site_replies := ∅;
  contents := ∅;
  listings := ∅;
  directories := [];
|}.

(** A server holding one file, [path], which it sends in [blocks], and for
    which it answers [size] to [SIZE]. *)
Definition serving (path : string) (size : Z) (blocks : list chunk) : Server := {|
  refuses := false;
  dropped := [];
  sizes := {[ path := size ]};
  site_replies := ∅;
  contents := {[ "RETR " +:+ path := blocks ]};
  listings := ∅;
  directories := [];
|}.

(** A server whose directory [dir] lists [names]. *)
Definition listing (dir : string) (names : list string) : Server := {|
  refuses := false;
  dropped := [];
  sizes := ∅;
  site_replies := ∅;
  contents := ∅;
  listings := {[ dir := names ]};
  directories := [dir];
|}.

Definition bytes (n : nat) (x : Byte.byte) : list Byte.byte := replicate n x.

End Sim.


(** * The rest of the client *)

Section Operations.

Context `{Transport Env}.

Local Abbreviation M := (M (Env:=Env)).

Variable self : FTPClient.

(** ** Warming and draining the pool *)

(** [for _ in range(n): self.connection_pool.append(self._create_connection())] *)
Fixpoint connect_loop (n : nat) : M unit :=
  match n with
  | O => mret tt
  | S n' =>
      conn ← _create_connection self;
      pool ← get_pool;
      set_pool (pool ++ [conn]);;
      connect_loop n'
  end.

(** [range] of a number that is not positive is empty.  [connect] does not
    take the lock and does not look at the size of the pool. *)
Definition connect : M unit :=
  connect_loop (Z.to_nat (max_connections self)).

(** The instances of the builtin [ConnectionResetError], a subclass of
    [OSError] that [exn_class] does not tell apart. *)
Variable ConnectionResetError : exn → bool.

(** The [try] statement in the loop of [disconnect]. *)
Definition close_connection (conn : Conn) : M unit :=
  try_except
    (sys (Quit conn);;
     log INFO "Connection closed successfully.")
    (λ e,
      if isinstance e error_temp || ConnectionResetError e then
        log WARNING ("Connection already closed or reset: " +:+ str e)
      else
        log ERROR ("Error while closing FTP connection: " +:+ str e)).

(** [while self.connection_pool: ...].  Every turn pops one session and
    closing a session does not touch the pool, so the loop is run with as
    many turns as there are idle sessions ([disconnect_loop_spec] below: the
    pool is empty when it stops). *)
Fixpoint disconnect_loop (turns : nat) : M unit :=
  match turns with
  | O => mret tt
  | S turns' =>
      pool ← get_pool;
      if bool_decide (pool = []) then mret tt
      else
        conn ← pool_pop;
        close_connection conn;;
        disconnect_loop turns'
  end.

Definition disconnect : M unit :=
  pool ← get_pool;
  disconnect_loop (length pool);;
  log INFO "Disconnected from FTP server.".

(** The sessions on which [QUIT] is sent during a run, in order. *)
Definition quits (evs : list event) : list Conn :=
  omap (λ ev,
    match ev with
    | EvCall c => match c with Quit conn => Some conn | _ => None end
    | _ => None
    end) evs.

(** The renamings sent during a run: the old and the new path, in
    order. *)
Definition renames (evs : list event) : list (string * string) :=
  omap (λ ev,
    match ev with
    | EvCall c => match c with Rename _ old new => Some (old, new) | _ => None end
    | _ => None
    end) evs.

(** ** Listing *)

(** The uploads among the events of a run: the session, the command and
    the bytes of the blocks handed to [storbinary]. *)
Definition stored (evs : list event) : list (Conn * string * list Byte.byte) :=
  omap (λ ev, match ev with
              | EvCall c =>
                  match c with
                  | Storbinary ftp cmd blocks => Some (ftp, cmd, concat blocks)
                  | _ => None
                  end
              | _ => None
              end) evs.

(** An operation that leaves the idle list no longer than it found it and
    sends no [QUIT]. *)
Definition closes_nothing {A} (m : M A) : Prop :=
  ∀ w, (length (connection_pool (final (m w))) ≤ length (connection_pool w))%nat ∧
       quits (events (m w)) = [].

(** An operation all of whose renamings satisfy [P]. *)
Definition renames_only (P : string * string → Prop) {A} (m : M A) : Prop :=
  ∀ w, Forall P (renames (events (m w))).

(** The same, for an operation that takes a session from the idle list. *)
Definition takes_a_session {A} (m : M A) : Prop :=
  ∀ w, (length (connection_pool (final (m w))) ≤ pred (length (connection_pool w)))%nat ∧
       quits (events (m w)) = [].

(** [ftp.pwd()] sends [PWD] and returns the directory named in the reply.
    It is embedded as the call [Sendcmd ftp "PWD"], whose answer stands for
    that directory; the client itself calls [sendcmd] for [SITE MD5] only. *)
Definition pwd (ftp : Conn) : M string := sys (Sendcmd ftp "PWD").

Definition _is_directory (ftp : Conn) (item : string) : M bool :=
  current ← pwd ftp;
  try_except
    (sys (Cwd ftp item);;
     sys (Cwd ftp current);;
     mret true)
    (λ e, if isinstance e error_perm then mret false else raise e).

(** [[f for f in files if not self._is_directory(ftp, f)]] *)
Fixpoint only_files_of (ftp : Conn) (files : list string) : M (list string) :=
  match files with
  | [] => mret []
  | f :: rest =>
      is_dir ← _is_directory ftp f;
      kept ← only_files_of ftp rest;
      mret (if is_dir : bool then kept else f :: kept)
  end.

(** The [with] block of [list_files]. *)
Definition list_files_block (remote_path : string) (only_files : bool)
    (ftp : Conn) : M (list string) :=
  files ← sys (Nlst ftp remote_path);
  if only_files then only_files_of ftp files else mret files.

(** The [except ftplib.error_perm] clause of [list_files]. *)
Definition list_files_handler (remote_path : string) (e : exn) : M (list string) :=
  if isinstance e error_perm then
    if startswith (str e) "550" then
      log WARNING ("Directory " +:+ remote_path +:+ " is empty or not accessible.");;
      mret []
    else
      raise (Exc FTPTransferError
               ("Failed to list files in " +:+ remote_path +:+ ": " +:+ str e))
  else raise e.

Definition list_files_body (remote_path : string) (only_files auto_release : bool)
    : M (list string) :=
  try_except
    (ftp_connection self auto_release (list_files_block remote_path only_files))
    (list_files_handler remote_path).

Definition list_files (remote_path : string) (only_files auto_release : bool)
    : M (list string) :=
  Retrying_call retry_operation (list_files_body remote_path only_files auto_release).

(** ** Renaming, deleting, removing, changing directory *)

Definition rename_file_body (old_remote_path new_remote_path : string)
    (auto_release : bool) : M unit :=
  try_except
    (ftp_connection self auto_release (λ ftp,
       sys (Rename ftp old_remote_path new_remote_path);;
       log INFO ("Renamed file from " +:+ old_remote_path +:+ " to " +:+ new_remote_path)))
    (λ e,
      raise (Exc FTPTransferError
               ("Failed to rename file from " +:+ old_remote_path +:+ " to "
                +:+ new_remote_path +:+ ": " +:+ str e))).

Definition rename_file (old_remote_path new_remote_path : string)
    (auto_release : bool) : M unit :=
  Retrying_call retry_operation
    (rename_file_body old_remote_path new_remote_path auto_release).

Definition delete_file_body (remote_file_path : string) (auto_release : bool) : M unit :=
  try_except
    (ftp_connection self auto_release (λ ftp,
       sys (Delete ftp remote_file_path);;
       log INFO ("Deleted file: " +:+ remote_file_path)))
    (λ e,
      raise (Exc FTPTransferError
               ("Failed to delete file " +:+ remote_file_path +:+ ": " +:+ str e))).

Definition delete_file (remote_file_path : string) (auto_release : bool) : M unit :=
  Retrying_call retry_operation (delete_file_body remote_file_path auto_release).

(** [ftp.rmd(dirname)] is [ftp.voidcmd('RMD ' + dirname)]. *)
Definition remove_directory_body (remote_directory_path : string)
    (auto_release : bool) : M unit :=
  try_except
    (ftp_connection self auto_release (λ ftp,
       sys (Voidcmd ftp ("RMD " +:+ remote_directory_path));;
       log INFO ("Removed directory: " +:+ remote_directory_path)))
    (λ e,
      raise (Exc FTPTransferError
               ("Failed to remove directory " +:+ remote_directory_path +:+ ": " +:+ str e))).

Definition remove_directory (remote_directory_path : string)
    (auto_release : bool) : M unit :=
  Retrying_call retry_operation
    (remove_directory_body remote_directory_path auto_release).

(** [change_directory] carries no [@retry]. *)
Definition change_directory (remote_directory_path : string)
    (auto_release : bool) : M unit :=
  try_except
    (ftp_connection self auto_release (λ ftp,
       sys (Cwd ftp remote_directory_path);;
       log INFO ("Changed directory to: " +:+ remote_directory_path)))
    (λ e,
      raise (Exc FTPTransferError
               ("Failed to change directory to " +:+ remote_directory_path +:+ ": "
                +:+ str e))).

End Operations.

(** ** A simulated server that refuses some commands *)

Module Faulty.

Record Server : Type := {
  working : Sim.Server;
  refused : list string;       (* the verbs answered by 550 *)
}.

Global Instance transport : Transport Server := λ A c s,
  if bool_decide (verb c ∈ refused s) then (Raise Sim.reply_550, s)
  else
    let '(r, s') := respond A c (working s) in
    (r, {| working := s'; refused := refused s |}).

Definition world (s : Sim.Server) (refused : list string) (pool : list Conn)
    (next : Conn) (fs : gmap string (list Byte.byte)) : @World Server := {|
  connection_pool := pool;
  next_conn := next;
  env := {| working := s; refused := refused |};
  files := fs;
|}.

End Faulty.

(** ** A server that keeps no state *)

Module Fixed.

(** The server [s] answers every call as [Sim] does from [s], and stays
    as it is. *)
Inductive state (s : Sim.Server) : Type := here.

Global Instance transport (s : Sim.Server) : Transport (state s) := λ A c u,
  ((respond A c s).1, u).

Definition world (s : Sim.Server) (pool : list Conn) (next : Conn)
    (fs : gmap string (list Byte.byte)) : @World (state s) := {|
  connection_pool := pool;
  next_conn := next;
  env := here s;
  files := fs;
|}.

End Fixed.

(** ** Some servers *)

Module Example.

(** A server that has closed the sessions [conns]. *)
Definition hung_up (conns : list Conn) : Sim.Server := {|
  Sim.refuses := false;
  Sim.dropped := conns;
  Sim.sizes := ∅;
  Sim.site_replies := ∅;
  Sim.contents := ∅;
  Sim.listings := ∅;
  Sim.directories := [];
|}.

(** A server with the directories [/], [/pub] and [/pub/docs] and two
    files in [/pub]. *)
Definition tree : Sim.Server := {|
  Sim.refuses := false;
  Sim.dropped := [];
  Sim.sizes := ∅;
  Sim.site_replies := {[ "PWD" := "/" ]};
  Sim.contents := ∅;
  Sim.listings := {[ "/pub" := ["/pub/docs"; "/pub/a.txt"; "/pub/b.txt"] ]};
  Sim.directories := ["/"; "/pub"; "/pub/docs"];
|}.

(** A server that answers [SITE MD5 path] by [reply]. *)
Definition with_site_md5 (path : string) (size : Z) (reply : string) : Sim.Server := {|
  Sim.refuses := false;
  Sim.dropped := [];
  Sim.sizes := {[ path := size ]};
  Sim.site_replies := {[ "SITE MD5 " +:+ path := reply ]};
  Sim.contents := ∅;
  Sim.listings := ∅;
  Sim.directories := [];
|}.

End Example.
(** * Properties *)

(** Projections of a run, computed. *)
Ltac projections := unfold outcome, final, events in *; simpl in *.

(** Case analysis on the answers of the collaborators and on the tests
    of the goal. *)
Ltac run_cases :=
  repeat (
    match goal with
    | |- context [respond ?A ?c ?e] => destruct (respond A c e) as [[?|?] ?]
    | |- context [if ?b then _ else _] => destruct b
    end; simpl).

Section Properties.
Context `{Transport Env} `{Hashlib} `{Host}.
Implicit Types (w : World (Env:=Env)) (self : FTPClient).

(** ** The monad *)

Lemma run_bind {A B} (m : M A) (f : A → M B) w :
  (m ≫= f) w =
  match m w with
  | (Ok a, w1, ev1) => let '(r, w2, ev2) := f a w1 in (r, w2, ev1 ++ ev2)
  | (Raise e, w1, ev1) => (Raise e, w1, ev1)
  end.
Proof. reflexivity. Qed.

Lemma run_bind_raise {A B} (m : M A) (f : A → M B) w e w1 ev1 :
  m w = (Raise e, w1, ev1) → (m ≫= f) w = (Raise e, w1, ev1).
Proof. intros Hm. by rewrite run_bind, Hm. Qed.

Lemma run_try {A} (m : M A) w :
  try_ m w = (Ok (outcome (m w)), final (m w), events (m w)).
Proof. unfold try_. by destruct (m w) as [[r w1] ev1]. Qed.

Lemma run_try_except {A} (m : M A) (handler : exn → M A) w :
  try_except m handler w =
  match outcome (m w) with
  | Ok a => (Ok a, final (m w), events (m w))
  | Raise e =>
      let y := handler e (final (m w)) in
      (outcome y, final y, events (m w) ++ events y)
  end.
Proof.
  unfold try_except. rewrite run_bind, run_try. cbn beta iota.
  destruct (outcome (m w)) as [a|e]; simpl; [by rewrite app_nil_r|].
  by destruct (handler e (final (m w))) as [[r w2] ev2].
Qed.

Lemma run_try_finally {A} (m : M A) (fin : M unit) w :
  try_finally m fin w =
  let x := m w in
  let y := fin (final x) in
  (match outcome y with Ok _ => outcome x | Raise e => Raise e end,
   final y, events x ++ events y).
Proof.
  unfold try_finally. rewrite run_bind, run_try. cbn beta iota zeta.
  rewrite run_bind. destruct (fin (final (m w))) as [[[[]|e] w2] ev2]; [|done].
  projections. destruct ((m w).1.1); simpl; by rewrite app_nil_r.
Qed.

Lemma bind_events_prefix {A B} (m : M A) (f : A → M B) w :
  ∃ post, events ((m ≫= f) w) = events (m w) ++ post.
Proof.
  rewrite run_bind. destruct (m w) as [[[a|e] w1] ev1].
  - destruct (f a w1) as [[r w2] ev2]. projections. eauto.
  - exists []. projections. by rewrite app_nil_r.
Qed.

Lemma bind_events_ok {A B} (m : M A) (f : A → M B) w a w1 ev1 :
  m w = (Ok a, w1, ev1) →
  events ((m ≫= f) w) = ev1 ++ events (f a w1).
Proof.
  intros Hm. rewrite run_bind, Hm. by destruct (f a w1) as [[r w2] ev2].
Qed.

Lemma run_log_bind {B} lvl msg (f : unit → M B) w :
  (log lvl msg ≫= f) w =
  (outcome (f tt w), final (f tt w), EvLog lvl msg :: events (f tt w)).
Proof. rewrite run_bind. unfold log. by destruct (f tt w) as [[r w2] ev2]. Qed.

Lemma try_except_events_prefix {A} (m : M A) (handler : exn → M A) w :
  ∃ post, events (try_except m handler w) = events (m w) ++ post.
Proof.
  rewrite run_try_except. destruct (outcome (m w)); projections; [|eauto].
  exists []. by rewrite app_nil_r.
Qed.

Lemma try_except_events_raise {A} (m : M A) (handler : exn → M A) w e w1 ev1 :
  m w = (Raise e, w1, ev1) →
  events (try_except m handler w) = ev1 ++ events (handler e w1).
Proof. intros Hm. rewrite run_try_except, Hm. by projections. Qed.

(** ** [Retrying.call] *)

Lemma Retrying_loop_returns {A} (p : Retrying) (fn : M A) budget n w a :
  outcome (fn w) = Ok a →
  Retrying_loop p fn budget n w =
  (Ok ([], {| value := Ok a; attempt_number := n |}), final (fn w), events (fn w)).
Proof.
  intros Hfn. destruct budget; simpl;
    rewrite run_bind, run_try, Hfn; simpl; by rewrite app_nil_r.
Qed.

Lemma Retrying_loop_stops {A} (p : Retrying) (fn : M A) n w :
  Retrying_loop p fn 0 n w =
  (Ok ([], {| value := outcome (fn w); attempt_number := n |}),
   final (fn w), events (fn w)).
Proof.
  simpl. rewrite run_bind, run_try.
  destruct (negb _); simpl; by rewrite app_nil_r.
Qed.

Lemma Retrying_loop_total {A} (p : Retrying) (fn : M A) budget n w :
  ∃ earlier last, outcome (Retrying_loop p fn budget n w) = Ok (earlier, last).
Proof.
  revert n w. induction budget as [|budget IH]; intros n w.
  - rewrite Retrying_loop_stops. eauto.
  - simpl. rewrite run_bind, run_try. cbn beta iota.
    destruct (negb _); [simpl; eauto|].
    destruct (IH (S n) (final (fn w))) as (earlier & last & Hx).
    unfold mbind, M_bind, sleep, mret, M_ret.
    destruct (Retrying_loop p fn budget (S n) (final (fn w))) as [[r w2] ev2].
    projections. subst r. simpl. eauto.
Qed.

Lemma Retrying_loop_retries {A} (p : Retrying) (fn : M A) budget n w e :
  outcome (fn w) = Raise e → retry_on_exception p e = true →
  ∃ earlier last,
    outcome (Retrying_loop p fn budget (S n) (final (fn w))) = Ok (earlier, last) ∧
    Retrying_loop p fn (S budget) n w =
    (Ok ({| value := Raise e; attempt_number := n |} :: earlier, last),
     final (Retrying_loop p fn budget (S n) (final (fn w))),
     events (fn w) ++ EvSleep (wait p n)
       :: events (Retrying_loop p fn budget (S n) (final (fn w)))).
Proof.
  intros Hfn Hrej.
  destruct (Retrying_loop_total p fn budget (S n) (final (fn w)))
    as (earlier & last & Hx).
  exists earlier, last. split; [done|].
  simpl. rewrite run_bind, run_try. cbn beta iota.
  unfold should_reject. simpl. rewrite Hfn, Hrej. simpl.
  unfold mbind, M_bind, sleep, mret, M_ret.
  destruct (Retrying_loop p fn budget (S n) (final (fn w))) as [[r w2] ev2].
  projections. subst r. simpl. by rewrite app_nil_r.
Qed.

Lemma run_Retrying_call {A} (p : Retrying) (fn : M A) w earlier last :
  outcome (Retrying_attempts p fn w) = Ok (earlier, last) →
  Retrying_call p fn w =
  (value last, final (Retrying_attempts p fn w), events (Retrying_attempts p fn w)).
Proof.
  intros Hx. unfold Retrying_call, mbind, M_bind.
  destruct (Retrying_attempts p fn w) as [[r w1] ev1]. projections. subst r.
  destruct (value last); simpl; by rewrite app_nil_r.
Qed.

(** The loop ends with an invocation of the function, and nothing happens
    after it; a property of worlds that every invocation keeps holds when
    that last invocation starts. *)
Lemma Retrying_loop_last {A} (p : Retrying) (fn : M A) (P : World (Env:=Env) → Prop)
    budget n w :
  (∀ w', P w' → P (final (fn w'))) → P w →
  ∃ earlier last w0,
    P w0 ∧
    outcome (Retrying_loop p fn budget n w) = Ok (earlier, last) ∧
    value last = outcome (fn w0) ∧
    final (Retrying_loop p fn budget n w) = final (fn w0).
Proof.
  intros Hkeep. revert n w. induction budget as [|budget IH]; intros n w HP.
  - rewrite Retrying_loop_stops. eexists [], _, w. by projections.
  - destruct (outcome (fn w)) as [a|e] eqn:Hfn.
    + rewrite (Retrying_loop_returns p fn (S budget) n w a Hfn).
      eexists [], _, w. by projections.
    + destruct (retry_on_exception p e) eqn:Hrej.
      * destruct (Retrying_loop_retries p fn budget n w e Hfn Hrej)
          as (earlier & last & Hx & ->).
        destruct (IH (S n) (final (fn w)) (Hkeep w HP))
          as (earlier' & last' & w0 & HP0 & Hx' & Hout & Hfin).
        rewrite Hx in Hx'. simplify_eq.
        eexists _, _, w0. by projections.
      * eexists [], _, w. simpl. rewrite run_bind, run_try. cbn beta iota.
        unfold should_reject. simpl. rewrite Hfn, Hrej. projections. eauto.
Qed.

(** The outcome of [Retrying.call] is the outcome of its last invocation of
    the function. *)
Lemma Retrying_call_last {A} (p : Retrying) (fn : M A) (P : World (Env:=Env) → Prop) w :
  (∀ w', P w' → P (final (fn w'))) → P w →
  ∃ w0, P w0 ∧
        outcome (Retrying_call p fn w) = outcome (fn w0) ∧
        final (Retrying_call p fn w) = final (fn w0).
Proof.
  intros Hkeep HP.
  destruct (Retrying_loop_last p fn P (stop_max_attempt_number p - 1) 1 w Hkeep HP)
    as (earlier & last & w0 & HP0 & Hx & Hout & Hfin).
  rewrite (run_Retrying_call p fn w earlier last Hx).
  exists w0. by projections.
Qed.

Lemma invocations_retry_operation {A} (fn : M A) w :
  invocations retry_operation fn w = 1%nat ↔ ∃ a, outcome (fn w) = Ok a.
Proof.
  unfold invocations, Retrying_attempts.
  change (stop_max_attempt_number retry_operation - 1)%nat with 4%nat.
  destruct (outcome (fn w)) as [a|e] eqn:Hfn.
  - rewrite (Retrying_loop_returns _ fn 4 1 w a Hfn). projections. naive_solver.
  - destruct (Retrying_loop_retries retry_operation fn 3 1 w e Hfn eq_refl)
      as (earlier & last & _ & ->).
    projections. split; [lia | by intros [a ?]].
Qed.

(** An operation that raises whenever it is invoked is invoked once per
    unit of budget and once more. *)
Lemma Retrying_loop_always_raising {A} (p : Retrying) (fn : M A) budget n w :
  (∀ w', ∃ e, outcome (fn w') = Raise e) →
  (∀ e, retry_on_exception p e = true) →
  ∃ earlier last e,
    outcome (Retrying_loop p fn budget n w) = Ok (earlier, last) ∧
    length earlier = budget ∧ value last = Raise e.
Proof.
  intros Hfn Hrej. revert n w.
  induction budget as [|budget IH]; intros n w.
  - rewrite Retrying_loop_stops. destruct (Hfn w) as [e He].
    exists [], {| value := outcome (fn w); attempt_number := n |}, e. done.
  - destruct (Hfn w) as [e He].
    destruct (Retrying_loop_retries p fn budget n w e He (Hrej e))
      as (earlier & last & Hx & ->).
    destruct (IH (S n) (final (fn w))) as (earlier' & last' & e' & Hx' & Hlen & Hlast).
    rewrite Hx in Hx'. simplify_eq.
    eexists _, _, e'. projections. split; [done|]. split; [by f_equal | done].
Qed.

Lemma always_raising_five_invocations {A} (fn : M A) w :
  (∀ w', ∃ e, outcome (fn w') = Raise e) →
  invocations retry_operation fn w = 5%nat ∧
  ∃ e, outcome (Retrying_call retry_operation fn w) = Raise e.
Proof.
  intros Hfn.
  destruct (Retrying_loop_always_raising retry_operation fn 4 1 w Hfn)
    as (earlier & last & e & Hx & Hlen & Hlast); [done|].
  unfold invocations. unfold Retrying_attempts at 1.
  change (stop_max_attempt_number retry_operation - 1)%nat with 4%nat.
  rewrite Hx, Hlen.
  split; [done|]. exists e.
  rewrite (run_Retrying_call retry_operation fn w earlier last Hx).
  by projections.
Qed.

(** An operation that raises in every world of an invariant set is invoked
    five times by the decorator, and a projection of the events that sees
    no sleep and nothing in such an invocation sees nothing in the call. *)
Lemma Retrying_loop_raising_under {A X} (p : Retrying) (fn : M A)
    (P : World (Env:=Env) → Prop) (f : event → option X) budget n w :
  (∀ ms, f (EvSleep ms) = None) →
  (∀ e, retry_on_exception p e = true) →
  (∀ w', P w' → P (final (fn w')) ∧ (∃ e, outcome (fn w') = Raise e) ∧
                omap f (events (fn w')) = []) →
  P w →
  ∃ earlier last e,
    outcome (Retrying_loop p fn budget n w) = Ok (earlier, last) ∧
    length earlier = budget ∧ value last = Raise e ∧
    omap f (events (Retrying_loop p fn budget n w)) = [].
Proof.
  intros Hsleep Hrej Hfn. revert n w.
  induction budget as [|budget IH]; intros n w HP.
  - rewrite Retrying_loop_stops. destruct (Hfn w HP) as (_ & [e He] & Hev).
    exists [], {| value := outcome (fn w); attempt_number := n |}, e. done.
  - destruct (Hfn w HP) as (HP' & [e He] & Hev).
    destruct (Retrying_loop_retries p fn budget n w e He (Hrej e))
      as (earlier & last & Hx & ->).
    destruct (IH (S n) (final (fn w)) HP')
      as (earlier' & last' & e' & Hx' & Hlen & Hlast & Hev').
    rewrite Hx in Hx'. simplify_eq.
    eexists _, _, e'. unfold outcome at 1, events at 1. cbn [fst snd].
    split; [done|]. split; [by cbn [length]; f_equal|]. split; [done|].
    unfold events at 1. cbn [snd].
    rewrite omap_app, Hev. cbn [omap list_omap app]. by rewrite Hsleep.
Qed.

Lemma Retrying_call_raising_under {A X} (fn : M A)
    (P : World (Env:=Env) → Prop) (f : event → option X) w :
  (∀ ms, f (EvSleep ms) = None) →
  (∀ w', P w' → P (final (fn w')) ∧ (∃ e, outcome (fn w') = Raise e) ∧
                omap f (events (fn w')) = []) →
  P w →
  invocations retry_operation fn w = 5%nat ∧
  (∃ e, outcome (Retrying_call retry_operation fn w) = Raise e) ∧
  omap f (events (Retrying_call retry_operation fn w)) = [].
Proof.
  intros Hsleep Hfn HP.
  destruct (Retrying_loop_raising_under retry_operation fn P f 4 1 w Hsleep)
    as (earlier & last & e & Hx & Hlen & Hlast & Hev); [done..|].
  unfold invocations. unfold Retrying_attempts at 1.
  change (stop_max_attempt_number retry_operation - 1)%nat with 4%nat.
  rewrite Hx, Hlen. split; [done|].
  rewrite (run_Retrying_call retry_operation fn w earlier last Hx).
  unfold outcome at 1, events at 1. cbn [fst snd]. split; [by exists e|done].
Qed.

Lemma Retrying_loop_starts {A} (p : Retrying) (fn : M A) budget n w :
  ∃ rest, events (Retrying_loop p fn budget n w) = events (fn w) ++ rest.
Proof.
  destruct budget as [|budget].
  - rewrite Retrying_loop_stops. exists []. projections. by rewrite app_nil_r.
  - destruct (outcome (fn w)) as [a|e] eqn:Hfn.
    + rewrite (Retrying_loop_returns p fn (S budget) n w a Hfn).
      exists []. projections. by rewrite app_nil_r.
    + destruct (retry_on_exception p e) eqn:Hrej.
      * destruct (Retrying_loop_retries p fn budget n w e Hfn Hrej)
          as (earlier & last & _ & ->). projections. eauto.
      * exists []. simpl. rewrite run_bind, run_try. cbn beta iota.
        unfold should_reject. simpl. rewrite Hfn, Hrej. projections.
        by rewrite !app_nil_r.
Qed.

(** C2, as the code has it.  The decorator has no class of fatal errors:
    the operation is invoked exactly once if and only if its first
    invocation returns; when the first invocation raises, whatever the
    exception, the decorator sleeps two seconds and invokes the operation
    again, in the world the first invocation left. *)
Theorem retry_operation_retries_every_exception {A} (fn : M A) w :
  (invocations retry_operation fn w = 1%nat ↔ ∃ a, outcome (fn w) = Ok a) ∧
  ∀ e, outcome (fn w) = Raise e →
    ∃ rest,
      events (Retrying_call retry_operation fn w) =
      events (fn w) ++ EvSleep 2000 :: events (fn (final (fn w))) ++ rest.
Proof.
  split; [apply invocations_retry_operation|].
  intros e Hfn.
  destruct (Retrying_loop_total retry_operation fn 4 1 w) as (earlier & last & Hx).
  rewrite (run_Retrying_call retry_operation fn w earlier last Hx).
  unfold Retrying_attempts.
  change (stop_max_attempt_number retry_operation - 1)%nat with 4%nat.
  destruct (Retrying_loop_retries retry_operation fn 3 1 w e Hfn eq_refl)
    as (earlier' & last' & _ & ->).
  destruct (Retrying_loop_starts retry_operation fn 3 2 (final (fn w))) as [rest Hrest].
  exists rest. projections. by rewrite Hrest.
Qed.

(** What [Retrying.call] does with a classifier: an exception that
    [retry_on_exception] does not reject ends the call at once.  The
    decorators of the client leave the classifier at its default, which
    rejects every exception. *)
Lemma Retrying_call_unrejected {A} (p : Retrying) (fn : M A) w e :
  outcome (fn w) = Raise e → retry_on_exception p e = false →
  invocations p fn w = 1%nat ∧ outcome (Retrying_call p fn w) = Raise e.
Proof.
  intros Hfn Hrej.
  assert (Retrying_attempts p fn w =
          (Ok ([], {| value := Raise e; attempt_number := 1 |}),
           final (fn w), events (fn w))) as Hx.
  { unfold Retrying_attempts.
    destruct (stop_max_attempt_number p - 1)%nat as [|budget]; simpl;
      rewrite run_bind, run_try; cbn beta iota;
      unfold should_reject; simpl; rewrite Hfn, Hrej; simpl;
      by rewrite app_nil_r. }
  split.
  - unfold invocations. by rewrite Hx.
  - rewrite (run_Retrying_call p fn w [] {| value := Raise e; attempt_number := 1 |})
      by by rewrite Hx.
    done.
Qed.

(** Whatever class of exceptions is taken as fatal, one exception in it is
    enough for the decorator to part from "raise at once". *)
Lemma no_exception_is_fatal (fatal : exn → bool) e w :
  fatal e = true → ¬ fatal_raised_at_once (Env:=Env) fatal.
Proof.
  intros Hfatal Hclaim.
  destruct (Hclaim (raise e) w e eq_refl Hfatal) as [Hone _].
  destruct (always_raising_five_invocations (A:=unit) (raise e) w) as [Hfive _].
  { intros w'. by exists e. }
  rewrite Hfive in Hone. discriminate.
Qed.

(** ** The pool *)

Lemma create_connection_body_spec self w :
  let x := _create_connection_body self w in
  connection_pool (final x) = connection_pool w ∧
  files (final x) = files w ∧
  next_conn (final x) = S (next_conn w) ∧
  ∀ c, outcome x = Ok c → c = next_conn w.
Proof.
  unfold _create_connection_body, try_except, new_FTP, sys.
  unfold mbind, M_bind, try_, mret, M_ret, raise, log. simpl.
  run_cases; projections; naive_solver.
Qed.

(** A created session is a new object; creating it leaves the pool and the
    local files as they are. *)
Lemma create_connection_spec self w :
  let x := _create_connection self w in
  connection_pool (final x) = connection_pool w ∧
  files (final x) = files w ∧
  (next_conn w ≤ next_conn (final x))%nat ∧
  ∀ c, outcome x = Ok c → (next_conn w ≤ c < next_conn (final x))%nat.
Proof.
  simpl. unfold _create_connection.
  destruct (Retrying_call_last retry_create_connection (_create_connection_body self)
    (λ w', connection_pool w' = connection_pool w ∧ files w' = files w ∧
           (next_conn w ≤ next_conn w')%nat) w) as (w0 & HP & -> & ->).
  - intros w' (Hpool & Hfiles & Hnext).
    destruct (create_connection_body_spec self w') as (-> & -> & -> & _).
    repeat split; [done..|lia].
  - done.
  - destruct HP as (Hpool & Hfiles & Hnext).
    destruct (create_connection_body_spec self w0) as (-> & -> & -> & Hc).
    split; [done|]. split; [done|]. split; [lia|].
    intros c Hok. apply Hc in Hok. lia.
Qed.

Lemma run_get_connection self w :
  _get_connection self w =
  match reverse (connection_pool w) with
  | [] => _create_connection self w
  | c0 :: rest =>
      let popped :=
        {| connection_pool := reverse rest; next_conn := next_conn w;
           env := env w; files := files w |} in
      let probe := sys (Voidcmd c0 "NOOP") popped in
      match outcome probe with
      | Ok _ => (Ok c0, final probe, [EvCall (Voidcmd c0 "NOOP")])
      | Raise _ =>
          let x := _create_connection self (final probe) in
          (outcome x, final x,
           EvCall (Voidcmd c0 "NOOP")
             :: EvLog WARNING "Recreating a dropped FTP connection." :: events x)
      end
  end.
Proof.
  unfold _get_connection. rewrite run_bind. unfold get_pool at 1. cbn beta iota.
  assert (connection_pool w = [] ∨ ∃ pool c1, connection_pool w = pool ++ [c1])
    as [Hpool|(pool & c1 & Hpool)].
  { destruct (connection_pool w) using rev_ind; eauto. }
  - rewrite Hpool. simpl. by destruct (_create_connection self w) as [[r w1] ev1].
  - rewrite Hpool, length_app, reverse_snoc. simpl.
    replace (0 <? Z.of_nat (length pool + 1)) with true
      by (symmetry; apply Z.ltb_lt; lia).
    unfold pool_pop, get_pool, set_pool, sys, log, try_, mbind, M_bind, mret, M_ret.
    rewrite Hpool, reverse_snoc. simpl.
    destruct (respond () (Voidcmd c1 "NOOP") (env w)) as [[[]|e] env']; simpl; [done|].
    by destruct (_create_connection self _) as [[r w1] ev1].
Qed.

(** [_get_connection] takes the last idle session away from the pool, if
    there is one, and returns it or a new object. *)
Lemma get_connection_spec self w :
  let x := _get_connection self w in
  (next_conn w ≤ next_conn (final x))%nat ∧
  files (final x) = files w ∧
  match reverse (connection_pool w) with
  | [] =>
      connection_pool (final x) = [] ∧
      ∀ c, outcome x = Ok c → (next_conn w ≤ c < next_conn (final x))%nat
  | c0 :: rest =>
      connection_pool (final x) = reverse rest ∧
      ∀ c, outcome x = Ok c → c = c0 ∨ (next_conn w ≤ c < next_conn (final x))%nat
  end.
Proof.
  simpl. rewrite run_get_connection.
  destruct (reverse (connection_pool w)) as [|c0 rest] eqn:Hrev.
  - pose proof (create_connection_spec self w) as (Hp & Hf & Hn & Hc).
    apply (f_equal reverse) in Hrev. rewrite reverse_involutive in Hrev.
    rewrite Hrev in Hp. done.
  - unfold sys. simpl.
    destruct (respond () (Voidcmd c0 "NOOP") (env w)) as [[[]|e] env']; projections.
    + repeat split; [lia|]. intros c [= ->]. by left.
    + pose proof (create_connection_spec self
        {| connection_pool := reverse rest; next_conn := next_conn w;
           env := env'; files := files w |}) as (Hp & Hf & Hn & Hc).
      projections. repeat split; [done..|]. eauto.
Qed.

Lemma release_connection_spec self conn (auto_release : bool) w :
  let x := _release_connection self conn auto_release w in
  next_conn (final x) = next_conn w ∧ files (final x) = files w ∧
  if auto_release then
    if Z.of_nat (length (connection_pool w)) <? max_connections self then
      outcome x = Ok tt ∧ connection_pool (final x) = connection_pool w ++ [conn] ∧
      events x = []
    else
      connection_pool (final x) = connection_pool w ∧ events x = [EvCall (Quit conn)]
  else x = (Ok tt, w, []).
Proof.
  unfold _release_connection, get_pool, set_pool, sys, mbind, M_bind, mret, M_ret.
  destruct auto_release; [|done]. simpl.
  destruct (_ <? _); simpl; [done|].
  by destruct (respond () (Quit conn) (env w)) as [[[]|e] env'].
Qed.

Lemma run_ftp_connection {A} self (auto_release : bool) (body : Conn → M A) w :
  ftp_connection self auto_release body w =
  let g := _get_connection self w in
  match outcome g with
  | Raise e => (Raise e, final g, events g)
  | Ok conn =>
      let x := body conn (final g) in
      let y := _release_connection self conn auto_release (final x) in
      (match outcome y with Ok _ => outcome x | Raise e => Raise e end,
       final y, events g ++ events x ++ events y)
  end.
Proof.
  unfold ftp_connection. rewrite run_bind.
  destruct (_get_connection self w) as [[[conn|e] w1] ev1]; [|done].
  rewrite run_try_finally. by projections.
Qed.

Lemma pool_step_capacity self st op :
  within_capacity self st.1 → within_capacity self (pool_step self st op).1.
Proof.
  destruct st as [w held]. unfold within_capacity. simpl. intros Hcap.
  destruct op as [|conn auto_release]; simpl.
  - pose proof (get_connection_spec self w) as (_ & _ & Hpool).
    assert (length (connection_pool (final (_get_connection self w)))
            ≤ length (connection_pool w))%nat as Hlen.
    { rewrite <-(length_reverse (connection_pool w)).
      destruct (reverse (connection_pool w)) as [|c0 rest];
        destruct Hpool as [-> _]; simpl; [lia|]. rewrite length_reverse. lia. }
    destruct (outcome (_get_connection self w)); simpl; lia.
  - pose proof (release_connection_spec self conn auto_release w) as (_ & _ & Hrel).
    destruct auto_release; [|by rewrite Hrel].
    destruct (Z.ltb_spec (Z.of_nat (length (connection_pool w))) (max_connections self)).
    + destruct Hrel as (_ & -> & _). rewrite length_app. simpl. lia.
    + destruct Hrel as [-> _]. done.
Qed.

Lemma pool_step_distinct self st op :
  distinct_sessions st →
  match op with Acquire => True | Release conn _ => conn ∈ st.2 end →
  distinct_sessions (pool_step self st op).
Proof.
  destruct st as [w held]. unfold distinct_sessions. simpl. intros [Hnd Hlt] Hop.
  destruct op as [|conn auto_release]; simpl.
  - pose proof (get_connection_spec self w) as (Hnext & _ & Hpool).
    assert (∃ taken, connection_pool w ≡ₚ
              connection_pool (final (_get_connection self w)) ++ taken ∧
              ∀ c, outcome (_get_connection self w) = Ok c →
                taken = [c] ∨ (next_conn w ≤ c < next_conn (final (_get_connection self w)))%nat)
      as (taken & Hperm & Hc).
    { rewrite <-(reverse_involutive (connection_pool w)).
      destruct (reverse (connection_pool w)) as [|c0 rest]; destruct Hpool as [-> Hc].
      - exists []. split; [done|]. eauto.
      - exists [c0]. rewrite reverse_cons. split; [done|].
        intros c Hok. destruct (Hc c Hok) as [->|?]; eauto. }
    set (x := _get_connection self w) in *.
    rewrite Hperm in Hnd, Hlt.
    apply NoDup_app in Hnd as (Hnd1 & Hdisj & Hnd2).
    apply NoDup_app in Hnd1 as (Hnd1 & Hdisj1 & Hnd3).
    rewrite !Forall_app in Hlt. destruct Hlt as [[Hlt1 Hlt3] Hlt2].
    assert (∀ l, Forall (λ c, (c < next_conn w)%nat) l →
                 Forall (λ c, (c < next_conn (final x))%nat) l) as Hmono.
    { intros l Hl. eapply Forall_impl; [done|]. simpl. lia. }
    destruct (outcome x) as [c|e] eqn:Hout; simpl.
    + destruct (Hc c eq_refl) as [->|Hfresh].
      * split.
        -- apply NoDup_app. split; [done|]. split; [|].
           ++ intros c' Hin. rewrite elem_of_cons. intros [Heq|Hin'].
              ** subst c'. apply (Hdisj1 c Hin). by apply list_elem_of_singleton.
              ** apply (Hdisj c'); [|done]. apply elem_of_app. by left.
           ++ apply NoDup_cons. split; [|done]. intros Hin.
              apply (Hdisj c); [|done]. apply elem_of_app. right.
              by apply list_elem_of_singleton.
        -- rewrite Forall_app, Forall_cons. repeat split; eauto.
           apply (Hmono [c]) in Hlt3. by rewrite Forall_singleton in Hlt3.
      * assert (∀ l, Forall (λ c, (c < next_conn w)%nat) l → c ∉ l) as Hnew.
        { intros l Hl Hin. rewrite Forall_forall in Hl. apply Hl in Hin. lia. }
        split.
        -- apply NoDup_app. split; [done|]. split.
           ++ intros c' Hin. rewrite elem_of_cons. intros [Heq|Hin'].
              ** subst c'. by apply (Hnew _ Hlt1).
              ** apply (Hdisj c'); [|done]. apply elem_of_app. by left.
           ++ apply NoDup_cons. split; [by apply Hnew|done].
        -- rewrite Forall_app, Forall_cons. repeat split; eauto. lia.
    + split.
      * apply NoDup_app. split; [done|]. split; [|done].
        intros c' Hin. apply (Hdisj c'). apply elem_of_app. by left.
      * rewrite Forall_app. eauto.
  - pose proof (release_connection_spec self conn auto_release w) as (Hnext & _ & Hrel).
    destruct auto_release; [|by rewrite Hrel].
    set (x := _release_connection self conn true w) in *.
    apply NoDup_app in Hnd as (Hnd1 & Hdisj & Hnd2).
    rewrite Forall_app in Hlt. destruct Hlt as [Hlt1 Hlt2].
    assert (NoDup (filter (λ c, c ≠ conn) held)) as Hnd3 by by apply NoDup_filter.
    assert (Forall (λ c, (c < next_conn (final x))%nat) (filter (λ c, c ≠ conn) held))
      as Hlt3.
    { rewrite Hnext, Forall_forall. intros c [_ Hin]%list_elem_of_filter.
      rewrite Forall_forall in Hlt2. by apply Hlt2. }
    destruct (Z.ltb_spec (Z.of_nat (length (connection_pool w))) (max_connections self)).
    + destruct Hrel as (_ & -> & _). split.
      * apply NoDup_app. split; [|split; [|done]].
        -- apply NoDup_app. split; [done|]. split; [|apply NoDup_singleton].
           intros c Hin ->%list_elem_of_singleton. by apply (Hdisj conn).
        -- intros c [Hin|Heq%list_elem_of_singleton]%elem_of_app.
           ++ rewrite list_elem_of_filter. intros [_ Hin']. by apply (Hdisj c).
           ++ rewrite list_elem_of_filter. by intros [Hne _].
      * rewrite !Forall_app, Forall_singleton. repeat split; [by rewrite Hnext| |done].
        rewrite Hnext. rewrite Forall_forall in Hlt2. by apply Hlt2.
    + destruct Hrel as [-> _]. split.
      * apply NoDup_app. split; [done|]. split; [|done].
        intros c Hin. rewrite list_elem_of_filter. intros [_ Hin']. by apply (Hdisj c).
      * rewrite Forall_app. split; [by rewrite Hnext|done].
Qed.

Lemma pool_run_capacity self ops st :
  within_capacity self st.1 → within_capacity self (pool_run self ops st).1.
Proof.
  revert st. induction ops as [|op ops IH]; intros st Hcap; [done|].
  simpl. apply IH. by apply pool_step_capacity.
Qed.

Lemma pool_run_distinct self ops st :
  distinct_sessions st → released_by_holders self ops st →
  distinct_sessions (pool_run self ops st).
Proof.
  revert st. induction ops as [|op ops IH]; intros st Hst Hops; [done|].
  destruct Hops as [Hop Hops]. simpl. apply IH; [|done].
  apply pool_step_distinct; [done|]. by destruct op.
Qed.

(** C4.  Whatever sequence of acquisitions and releases is run from an idle
    pool within capacity, the idle sessions stay within [max_connections];
    and when every release is made by a holder of the session, no session
    is at once idle in the pool and checked out.  The sequence is
    arbitrary, so this holds after each of its steps. *)
Theorem pool_capacity_and_exclusive_sessions self w ops :
  within_capacity self w → idle_sessions w →
  within_capacity self (pool_run self ops (w, [])).1 ∧
  (released_by_holders self ops (w, []) →
   ∀ conn, conn ∈ connection_pool (pool_run self ops (w, [])).1 →
           conn ∉ (pool_run self ops (w, [])).2).
Proof.
  intros Hcap Hidle. split; [by apply pool_run_capacity|].
  intros Hops conn Hin.
  destruct (pool_run_distinct self ops (w, []) Hidle Hops) as [Hnd _].
  apply NoDup_app in Hnd as (_ & Hdisj & _). by apply Hdisj.
Qed.

(** C5, as the code has it.  With [auto_release] set, the session goes back
    to the idle list when the pool is below [max_connections], and [QUIT]
    is sent on it otherwise; without [auto_release] the call does nothing:
    the session is neither pooled nor terminated. *)
Theorem release_connection_cases self conn (auto_release : bool) w :
  let x := _release_connection self conn auto_release w in
  if auto_release then
    if Z.of_nat (length (connection_pool w)) <? max_connections self then
      outcome x = Ok tt ∧ connection_pool (final x) = connection_pool w ++ [conn] ∧
      events x = []
    else
      connection_pool (final x) = connection_pool w ∧ events x = [EvCall (Quit conn)]
  else x = (Ok tt, w, []).
Proof. apply release_connection_spec. Qed.

(** ** [check_file_exists] *)

Lemma run_check_file_exists self remote_file_path (auto_release : bool) w :
  let listing := check_file_exists_listing self remote_file_path auto_release w in
  check_file_exists self remote_file_path auto_release w =
  match outcome listing with
  | Ok found => (Ok found, final listing, events listing)
  | Raise e =>
      (Ok false, final listing,
       events listing ++
       [EvLog ERROR ("Failed to check if file exists " +:+ remote_file_path
                     +:+ ": " +:+ str e)])
  end.
Proof.
  simpl. unfold check_file_exists. rewrite run_try_except.
  by destruct (outcome (check_file_exists_listing _ _ _ w)).
Qed.

Lemma check_file_exists_caught self remote_file_path (auto_release : bool) w :
  outcome (check_file_exists self remote_file_path auto_release w) =
  match outcome (check_file_exists_listing self remote_file_path auto_release w) with
  | Ok found => Ok found
  | Raise _ => Ok false
  end.
Proof.
  rewrite run_check_file_exists.
  by destruct (outcome (check_file_exists_listing _ _ _ w)).
Qed.

(** How the listing block ends, by what its session does. *)
Lemma check_file_exists_listing_outcome self remote_file_path (auto_release : bool) w :
  let listing := check_file_exists_listing self remote_file_path auto_release w in
  let acquired := _get_connection self w in
  match outcome acquired with
  | Raise e => outcome listing = Raise e
  | Ok conn =>
      match outcome (sys (Nlst conn (os_path.dirname remote_file_path))
                       (final acquired)) with
      | Raise e => ∃ e', outcome listing = Raise e'
      | Ok names =>
          outcome listing = Ok (bool_decide (os_path.basename remote_file_path ∈ names))
          ∨ ∃ e', outcome listing = Raise e'
      end
  end.
Proof.
  simpl. unfold check_file_exists_listing. rewrite run_ftp_connection. cbv zeta.
  destruct (outcome (_get_connection self w)) as [conn|e]; [|done].
  rewrite run_bind.
  destruct (sys (Nlst conn _) _) as [[[names|e] w2] ev2]; projections.
  - destruct (_release_connection self conn auto_release w2) as [[[[]|e'] w3] ev3];
      projections; eauto.
  - destruct (_release_connection self conn auto_release w2) as [[[[]|e'] w3] ev3];
      projections; eauto.
Qed.

(** C10.  [check_file_exists] always returns a boolean and never raises.
    It returns [False] whenever its listing block fails: when no session
    can be acquired, when [NLST] raises, and for any other exception of the
    block; that is the value it returns when the server lists the directory
    without the file name. *)
Theorem check_file_exists_never_raises self remote_file_path (auto_release : bool) w :
  let checked := check_file_exists self remote_file_path auto_release w in
  let acquired := _get_connection self w in
  let nlst conn :=
    sys (Nlst conn (os_path.dirname remote_file_path)) (final acquired) in
  (∃ found : bool, outcome checked = Ok found) ∧
  (∀ e, outcome (check_file_exists_listing self remote_file_path auto_release w)
        = Raise e → outcome checked = Ok false) ∧
  (∀ e, outcome acquired = Raise e → outcome checked = Ok false) ∧
  (∀ conn e, outcome acquired = Ok conn → outcome (nlst conn) = Raise e →
             outcome checked = Ok false) ∧
  (∀ conn names, outcome acquired = Ok conn → outcome (nlst conn) = Ok names →
                 os_path.basename remote_file_path ∉ names →
                 outcome checked = Ok false).
Proof.
  simpl. rewrite check_file_exists_caught.
  pose proof (check_file_exists_listing_outcome self remote_file_path auto_release w)
    as Hlisting. simpl in Hlisting.
  repeat split.
  - destruct (outcome (check_file_exists_listing _ _ _ w)); eauto.
  - by intros e ->.
  - intros e Hacq. rewrite Hacq in Hlisting. by rewrite Hlisting.
  - intros conn e Hacq Hnlst. rewrite Hacq, Hnlst in Hlisting.
    destruct Hlisting as [e' ->]. done.
  - intros conn names Hacq Hnlst Hnot. rewrite Hacq, Hnlst in Hlisting.
    rewrite bool_decide_eq_false_2 in Hlisting by done.
    by destruct Hlisting as [->|[e' ->]].
Qed.

(** ** [download_file] *)

Lemma run_download_check remote_file_path local_file_path w :
  download_check remote_file_path local_file_path w =
  match files w !! local_file_path with
  | None => (Raise (no_such_file local_file_path), w, [])
  | Some content =>
      if Z.of_nat (length content) =? 0 then
        (Raise (empty_download local_file_path), w, [])
      else
        (Ok tt, w,
         [EvLog INFO ("Downloaded: " +:+ remote_file_path +:+ " to " +:+ local_file_path)])
  end.
Proof.
  unfold download_check, getsize, read_file, get_files, log, raise.
  unfold mbind, M_bind, mret, M_ret. simpl.
  destruct (files w !! local_file_path) as [content|]; simpl; [|done].
  by destruct (Z.of_nat (length content) =? 0).
Qed.

Lemma download_handlers_raise remote_file_path e w :
  ∃ msg, outcome (download_handlers remote_file_path e w)
         = Raise (Exc FTPTransferError msg) ∧
         files (final (download_handlers remote_file_path e w)) = files w.
Proof.
  unfold download_handlers, log, raise, mbind, M_bind, mret, M_ret.
  destruct (isinstance e error_perm); [|projections; eauto].
  destruct (startswith (str e) "550"); projections; eauto.
Qed.

Lemma run_download_file_body self remote_file_path local_file_path
    progress_callback (auto_release : bool) w :
  download_file_body self remote_file_path local_file_path progress_callback
    auto_release w =
  let x :=
    ftp_connection self auto_release (λ ftp,
      download_stream remote_file_path local_file_path progress_callback ftp;;
      download_check remote_file_path local_file_path) w in
  let started :=
    EvLog INFO ("Starting download of " +:+ remote_file_path +:+ " to "
                +:+ local_file_path) in
  match outcome x with
  | Ok _ => (Ok tt, final x, started :: events x)
  | Raise e =>
      let y := download_handlers remote_file_path e (final x) in
      (outcome y, final y, started :: events x ++ events y)
  end.
Proof.
  unfold download_file_body. rewrite run_bind. unfold log at 1. cbn beta iota.
  rewrite run_try_except. cbv zeta.
  by destruct (outcome (ftp_connection _ _ _ w)) as [[]|e].
Qed.

(** An invocation that has acquired its session and whose streaming phase
    has returned, leaving a local file of zero bytes, raises
    [FTPTransferError]: the error of the empty file, unless releasing the
    session raises in its turn. *)
Lemma zero_bytes_invocation self remote_file_path local_file_path
    progress_callback (auto_release : bool) w conn :
  let acquired := _get_connection self w in
  let streamed :=
    download_stream remote_file_path local_file_path progress_callback conn
      (final acquired) in
  outcome acquired = Ok conn →
  outcome streamed = Ok tt →
  files (final streamed) !! local_file_path = Some [] →
  ∃ msg,
    outcome (download_file_body self remote_file_path local_file_path
               progress_callback auto_release w)
    = Raise (Exc FTPTransferError msg) ∧
    (outcome (_release_connection self conn auto_release (final streamed)) = Ok tt →
     msg = "Error during download: Downloaded file " +:+ local_file_path
           +:+ " is empty (0KB)").
Proof.
  simpl. intros Hacq Hstream Hempty.
  rewrite run_download_file_body, run_ftp_connection. cbv zeta. rewrite Hacq.
  rewrite run_bind.
  destruct (download_stream _ _ _ conn _) as [[r w2] ev2]. projections. subst r.
  rewrite run_download_check, Hempty. simpl.
  destruct (_release_connection self conn auto_release w2) as [[[[]|e'] w3] ev3];
    simpl.
  - eexists. split; [done|]. done.
  - destruct (download_handlers_raise remote_file_path e' w3) as (msg & Hmsg & _).
    projections.
    destruct (download_handlers remote_file_path e' w3) as [[r4 w4] ev4].
    simpl in *. subst r4. exists msg. split; [done|]. intros [=].
Qed.

Lemma download_block_outcome self remote_file_path local_file_path
    progress_callback (auto_release : bool) w :
  let x :=
    ftp_connection self auto_release (λ ftp,
      download_stream remote_file_path local_file_path progress_callback ftp;;
      download_check remote_file_path local_file_path) w in
  outcome x = Ok tt →
  ∃ content, files (final x) !! local_file_path = Some content ∧ content ≠ [].
Proof.
  simpl. rewrite run_ftp_connection. cbv zeta.
  destruct (outcome (_get_connection self w)) as [conn|e]; [|done].
  rewrite run_bind.
  destruct (download_stream _ _ _ conn _) as [[[[]|e2] w2] ev2].
  - rewrite run_download_check.
    pose proof (release_connection_spec self conn auto_release w2) as (_ & Hfiles & _).
    destruct (files w2 !! local_file_path) as [content|] eqn:Hlocal.
    + destruct (Z.eqb_spec (Z.of_nat (length content)) 0) as [Hlen|Hlen];
        projections.
      * by destruct ((_release_connection self conn auto_release w2).1.1).
      * intros _. exists content. rewrite Hfiles. split; [done|].
        intros ->. simpl in Hlen. lia.
    + projections. by destruct ((_release_connection self conn auto_release w2).1.1).
  - projections. by destruct ((_release_connection self conn auto_release w2).1.1).
Qed.

(** An attempt that returns leaves a local file that is not empty, and an
    attempt raises nothing but [FTPTransferError]. *)
Lemma download_file_body_outcome self remote_file_path local_file_path
    progress_callback (auto_release : bool) w :
  let x := download_file_body self remote_file_path local_file_path
             progress_callback auto_release w in
  match outcome x with
  | Ok _ => ∃ content, files (final x) !! local_file_path = Some content ∧ content ≠ []
  | Raise e => exc_class e = FTPTransferError
  end.
Proof.
  simpl. rewrite run_download_file_body. cbv zeta.
  pose proof (download_block_outcome self remote_file_path local_file_path
                progress_callback auto_release w) as Hblock. simpl in Hblock.
  destruct (outcome (ftp_connection _ _ _ w)) as [[]|e].
  - by apply Hblock.
  - destruct (download_handlers_raise remote_file_path e
                (final (ftp_connection self auto_release (λ ftp,
                   download_stream remote_file_path local_file_path
                     progress_callback ftp;;
                   download_check remote_file_path local_file_path) w)))
      as (msg & Hmsg & _).
    unfold outcome at 1. simpl. by rewrite Hmsg.
Qed.

(** [download_file] never returns leaving an empty local file, and raises
    nothing but [FTPTransferError]. *)
Lemma download_file_outcome self remote_file_path local_file_path
    progress_callback (auto_release : bool) w :
  let x := download_file self remote_file_path local_file_path
             progress_callback auto_release w in
  match outcome x with
  | Ok _ => ∃ content, files (final x) !! local_file_path = Some content ∧ content ≠ []
  | Raise e => exc_class e = FTPTransferError
  end.
Proof.
  simpl. unfold download_file.
  destruct (Retrying_call_last retry_operation
              (download_file_body self remote_file_path local_file_path
                 progress_callback auto_release) (λ _, True) w)
    as (w0 & _ & -> & ->); [done..|].
  apply download_file_body_outcome.
Qed.

(** C6.  A download that streams zero bytes fails with [FTPTransferError],
    though the streaming phase reported success.  An invocation of
    [download_file] whose streaming phase returns and leaves a local file
    of zero bytes raises the error of the empty file; the decorator retries
    it as any other error, so when the invocations are all of that kind,
    in the worlds of an invariant [P], [download_file] is invoked five
    times and raises [FTPTransferError]; and in every case [download_file]
    raises [FTPTransferError] or returns with a local file that is not
    empty. *)
Theorem download_of_zero_bytes_fails self remote_file_path local_file_path
    progress_callback (auto_release : bool) (P : World (Env:=Env) → Prop) w :
  let invocation := download_file_body self remote_file_path local_file_path
                      progress_callback auto_release in
  let call := download_file self remote_file_path local_file_path
                progress_callback auto_release w in
  (∀ w' conn,
     let streamed :=
       download_stream remote_file_path local_file_path progress_callback conn
         (final (_get_connection self w')) in
     outcome (_get_connection self w') = Ok conn →
     outcome streamed = Ok tt →
     files (final streamed) !! local_file_path = Some [] →
     ∃ msg,
       outcome (invocation w') = Raise (Exc FTPTransferError msg) ∧
       (outcome (_release_connection self conn auto_release (final streamed)) = Ok tt →
        msg = "Error during download: Downloaded file " +:+ local_file_path
              +:+ " is empty (0KB)")) ∧
  (P w →
   (∀ w', P w' →
      streams_zero_bytes self remote_file_path local_file_path progress_callback w' ∧
      P (final (invocation w'))) →
   invocations retry_operation invocation w = 5%nat ∧
   ∃ msg, outcome call = Raise (Exc FTPTransferError msg)) ∧
  match outcome call with
  | Ok _ => ∃ content, files (final call) !! local_file_path = Some content ∧
                       content ≠ []
  | Raise e => exc_class e = FTPTransferError
  end.
Proof.
  cbv zeta.
  pose proof (download_file_outcome self remote_file_path local_file_path
                progress_callback auto_release w) as Hcall. cbv zeta in Hcall.
  split; [|split; [|done]].
  - intros w' conn. apply zero_bytes_invocation.
  - intros HP Hzero.
    destruct (Retrying_call_raising_under
                (download_file_body self remote_file_path local_file_path
                   progress_callback auto_release) P (λ _, @None unit) w)
      as (Hfive & [e He] & _); [done| |done|].
    + intros w' Hw'. destruct (Hzero w' Hw') as [(conn & Hacq & Hstream & Hempty) HP'].
      split; [done|]. split; [|by induction (events _)].
      destruct (zero_bytes_invocation self remote_file_path local_file_path
                  progress_callback auto_release w' conn Hacq Hstream Hempty)
        as (msg & Hmsg & _).
      eauto.
    + split; [done|]. fold (download_file self remote_file_path local_file_path
                              progress_callback auto_release w) in He.
      rewrite He in Hcall. destruct e as [cls msg]. simpl in Hcall. subst cls.
      rewrite He. eauto.
Qed.

Lemma download_callback_silent local_file_path progress_callback blocks w :
  events (for_each (download_callback local_file_path progress_callback) blocks w) = [].
Proof.
  revert w. induction blocks as [|block blocks IH]; intros w; [done|].
  simpl. rewrite run_bind.
  unfold download_callback, file_write, get_files, set_files, raise.
  destruct progress_callback; unfold mbind, M_bind; simpl; [done|].
  specialize (IH {| connection_pool := connection_pool w; next_conn := next_conn w;
                    env := env w;
                    files := alter (λ old, old ++ block) local_file_path (files w) |}).
  destruct (for_each _ blocks _) as [[r w2] ev2]. projections. by subst ev2.
Qed.

Lemma run_open_wb path w :
  open_wb path w =
  match open_error path with
  | Some e => (Raise e, w, [])
  | None =>
      (Ok tt,
       {| connection_pool := connection_pool w; next_conn := next_conn w;
          env := env w; files := <[path:=[]]> (files w) |}, [])
  end.
Proof. unfold open_wb. by destruct (open_error path). Qed.

Lemma run_progress_bar (progress_callback : option (Z → option exn)) total w :
  ∃ r, (match progress_callback with
        | None => tqdm total
        | Some _ => mret tt
        end : M unit) w = (r, w, []) ∧
       (r = Ok tt ∨ ∃ e, r = Raise e ∧ progress_callback = None ∧
                         tqdm_error total = Some e).
Proof.
  destruct progress_callback; [eexists; split; [done|by left]|].
  unfold tqdm. destruct (tqdm_error total) as [e|]; eexists; (split; [done|]);
    [right; eauto|by left].
Qed.

Lemma retrbinary_events conn cmd local_file_path progress_callback w :
  events (retrbinary conn cmd (download_callback local_file_path progress_callback) w)
  = [EvCall (Retrbinary conn cmd)].
Proof.
  unfold retrbinary. rewrite run_bind. unfold sys at 1.
  destruct (respond _ (Retrbinary conn cmd) (env w)) as [[[blocks failure]|e] env2];
    cbn beta iota; [|done].
  rewrite run_bind.
  match goal with |- context [for_each ?f blocks ?w0] =>
    pose proof (download_callback_silent local_file_path progress_callback blocks w0)
      as Hsilent;
    destruct (for_each f blocks w0) as [[[[]|e] w3] ev3] end;
    unfold events in *; cbn [fst snd] in *; subst ev3; [|done].
  by destruct failure.
Qed.

(** The events of the streaming phase: nothing when the local file cannot
    be opened, else [SIZE], then [RETR] unless [SIZE] or the progress bar
    raised. *)
Lemma download_stream_events remote_file_path local_file_path progress_callback conn w :
  let evs := events (download_stream remote_file_path local_file_path
                       progress_callback conn w) in
  evs = [] ∨
  evs = [EvCall (Size conn remote_file_path)] ∨
  evs = [EvCall (Size conn remote_file_path);
         EvCall (Retrbinary conn ("RETR " +:+ remote_file_path))].
Proof.
  cbv zeta.
  cut (∃ evs,
         events (download_stream remote_file_path local_file_path
                   progress_callback conn w) = evs ∧
         (evs = [] ∨
          evs = [EvCall (Size conn remote_file_path)] ∨
          evs = [EvCall (Size conn remote_file_path);
                 EvCall (Retrbinary conn ("RETR " +:+ remote_file_path))])).
  { by intros (evs & -> & Hevs). }
  unfold download_stream. rewrite run_bind, run_open_wb.
  destruct (open_error local_file_path) as [e0|]; [eexists; split; [done|by left]|].
  cbn beta iota. rewrite run_bind. unfold sys at 1. cbn [env].
  destruct (respond _ (Size conn remote_file_path) (env w)) as [[size|e] env1];
    cbn beta iota; [|eexists; split; [done|right; by left]].
  rewrite run_bind.
  match goal with |- context [match progress_callback with _ => _ end ?w0] =>
    destruct (run_progress_bar progress_callback size w0) as (r & -> & Hr);
    pose proof (retrbinary_events conn ("RETR " +:+ remote_file_path) local_file_path
                  progress_callback w0) as Hretr;
    destruct (retrbinary conn ("RETR " +:+ remote_file_path)
                (download_callback local_file_path progress_callback) w0)
      as [[r2 w2] ev2] end.
  unfold events in *. cbn [fst snd] in *. subst ev2.
  destruct Hr as [->|(e & -> & _)]; cbn; eexists; (split; [done|]); right;
    [by right|by left].
Qed.

(** C9 fails on the code.  The streaming phase of [download_file] sends no
    liveness command on the session, however many blocks the server
    sends. *)
Theorem download_stream_sends_no_keepalive remote_file_path local_file_path
    progress_callback conn w :
  keepalives (events (download_stream remote_file_path local_file_path
                        progress_callback conn w)) = [].
Proof.
  by destruct (download_stream_events remote_file_path local_file_path
                 progress_callback conn w) as [-> | [-> | ->]].
Qed.

(** [periodic_keep_alive] raises before it sends anything. *)
Lemma periodic_keep_alive_raises ftp interval w :
  periodic_keep_alive ftp interval w =
  (Raise (Exc AttributeError "'FTPClient' object has no attribute 'keep_alive'"), w, []).
Proof. reflexivity. Qed.

(** ** [verify_file_integrity] *)

Lemma run_sizes_mismatch local_file_path remote_file_path conn w content remote_size :
  files w !! local_file_path = Some content →
  outcome (sys (Size conn remote_file_path) w) = Ok remote_size →
  remote_size ≠ Some (Z.of_nat (length content)) →
  sizes_then_site_md5 local_file_path remote_file_path conn w =
  (Raise (size_mismatch local_file_path remote_file_path),
   final (sys (Size conn remote_file_path) w),
   [EvCall (Size conn remote_file_path)]).
Proof.
  intros Hlocal Hsize Hne.
  unfold sizes_then_site_md5, getsize, read_file, get_files.
  unfold mbind, M_bind, mret, M_ret, raise. simpl. rewrite Hlocal. simpl.
  unfold sys in *.
  destruct (respond _ (Size conn remote_file_path) (env w)) as [r env1].
  projections. subst r. by rewrite bool_decide_eq_false_2.
Qed.

Lemma download_and_hash_starts self local_file_path remote_file_path w :
  ∃ post,
    events (download_and_hash self local_file_path remote_file_path w) =
    EvLog WARNING site_md5_unsupported
      :: events (download_file self remote_file_path (local_file_path +:+ ".temp")
                   None true w) ++ post.
Proof.
  unfold download_and_hash.
  rewrite run_log_bind.
  match goal with
  | |- context [(?m ≫= ?f) w] => destruct (bind_events_prefix m f w) as [post Hpost]
  end.
  exists post. unfold events at 1. simpl. by rewrite Hpost.
Qed.

Lemma ftp_connection_events {A} self (auto_release : bool) (body : Conn → M A) w conn :
  outcome (_get_connection self w) = Ok conn →
  ∃ post,
    events (ftp_connection self auto_release body w) =
    events (_get_connection self w)
    ++ events (body conn (final (_get_connection self w))) ++ post.
Proof.
  intros Hacq. rewrite run_ftp_connection. cbv zeta. rewrite Hacq.
  projections. eauto.
Qed.

(** C1 fails on the code.  When the sizes differ, [SIZE] is followed by the
    warning of the inner handler and by the whole download of the remote
    file into the temporary file: the size error raised inside the inner
    [try] is caught by its [except Exception]. *)
Theorem size_mismatch_falls_back_to_download self local_file_path remote_file_path
    (auto_release : bool) w content conn remote_size :
  let acquired := _get_connection self w in
  let sized := sys (Size conn remote_file_path) (final acquired) in
  files w !! local_file_path = Some content →
  outcome acquired = Ok conn →
  outcome sized = Ok remote_size →
  remote_size ≠ Some (Z.of_nat (length content)) →
  ∃ post,
    events (verify_file_integrity self local_file_path remote_file_path auto_release w) =
    events acquired ++
    EvCall (Size conn remote_file_path)
      :: EvLog WARNING site_md5_unsupported
      :: events (download_file self remote_file_path (local_file_path +:+ ".temp")
                   None true (final sized)) ++ post.
Proof.
  simpl. intros Hlocal Hacq Hsize Hne.
  pose proof (get_connection_spec self w) as (_ & Hfiles & _). simpl in Hfiles.
  unfold verify_file_integrity.
  assert (calculate_md5 local_file_path w = (Ok (md5_hexdigest content), w, []))
    as Hsum.
  { unfold calculate_md5, read_file, get_files, mbind, M_bind, mret, M_ret.
    simpl. by rewrite Hlocal. }
  rewrite (bind_events_ok _ _ w _ _ _ Hsum). simpl.
  match goal with
  | |- context [try_except ?m ?h w] =>
      destruct (try_except_events_prefix m h w) as [post1 ->]
  end.
  match goal with
  | |- context [ftp_connection self auto_release ?body w] =>
      destruct (ftp_connection_events self auto_release body w conn Hacq)
        as [post2 ->]
  end.
  match goal with
  | |- context [(?m ≫= ?f) (final (_get_connection self w))] =>
      destruct (bind_events_prefix m f (final (_get_connection self w))) as [post3 ->]
  end.
  pose proof (run_sizes_mismatch local_file_path remote_file_path conn
                (final (_get_connection self w)) content remote_size) as Hsizes.
  rewrite Hfiles in Hsizes. specialize (Hsizes Hlocal Hsize Hne).
  rewrite (try_except_events_raise _ _ _ _ _ _ Hsizes).
  destruct (download_and_hash_starts self local_file_path remote_file_path
              (final (sys (Size conn remote_file_path) (final (_get_connection self w)))))
    as [post4 ->].
  exists (post4 ++ post3 ++ post2 ++ post1).
  by repeat (rewrite <-app_assoc; simpl).
Qed.

(** ** [move_file] *)

(** C7 fails on the code.  In the [with] block of [move_file] with
    [overwrite=False], once the destination directory is there and
    [check_file_exists] has answered that the destination name is taken,
    the block ends with the [AttributeError] of [datetime.datetime] and
    nothing more is sent: no deletion, and no renaming either. *)
Theorem move_file_collision_without_overwrite self src_remote_path
    dest_remote_directory conn w :
  let dest_remote_path :=
    os_path.join dest_remote_directory (os_path.basename src_remote_path) in
  let ensured := ensure_directory self dest_remote_directory w in
  let checked := check_file_exists self dest_remote_path false (final ensured) in
  outcome ensured = Ok tt →
  outcome checked = Ok true →
  move_file_block self src_remote_path dest_remote_directory false conn w =
  (Ok (Raise datetime_datetime, Some dest_remote_path),
   final checked, events ensured ++ events checked).
Proof.
  simpl. intros Hens Hchk. unfold move_file_block.
  rewrite run_bind, run_try. cbn beta iota. rewrite Hens.
  rewrite run_bind, run_try. cbn beta iota.
  rewrite run_bind.
  destruct (check_file_exists self _ false _) as [[r w2] ev2]. projections. subst r.
  rewrite (run_bind_raise (raise datetime_datetime) _ w2 datetime_datetime w2 [])
    by done.
  simpl. by rewrite !app_nil_r.
Qed.

(** [move_file_body] does what the [with] statement does: it ends as
    [ftp_connection] around the block ends, and an exception goes to the
    handlers. *)
Lemma move_file_body_with_block self src_remote_path dest_remote_directory
    (auto_release overwrite : bool) w :
  let x :=
    ftp_connection self auto_release (λ ftp,
      ended ← move_file_block self src_remote_path dest_remote_directory overwrite ftp;
      lift_result ended.1) w in
  let body := move_file_body self src_remote_path dest_remote_directory
                auto_release overwrite w in
  match outcome x with
  | Ok _ => body = (Ok tt, final x, events x)
  | Raise e =>
      ∃ dest_remote_path,
        let y := move_file_handlers src_remote_path dest_remote_directory
                   dest_remote_path e (final x) in
        body = (outcome y, final y, events x ++ events y)
  end.
Proof.
  simpl. rewrite run_ftp_connection. cbv zeta. unfold move_file_body.
  rewrite run_bind, run_try. cbn beta iota.
  destruct (_get_connection self w) as [[[conn|e] w1] ev1]; projections.
  - rewrite !run_bind.
    destruct (move_file_block self _ _ overwrite conn w1)
      as [[[[ended dest]|e] w2] ev2] eqn:Hblock; simpl.
    + destruct ended as [[]|e0]; unfold lift_result, mret, M_ret, raise; simpl;
        rewrite run_bind, run_try; cbn beta iota;
        destruct (_release_connection self conn auto_release w2)
          as [[[[]|e'] w3] ev3]; projections; rewrite ?app_nil_r; [done|..];
        exists dest;
        match goal with
        | |- context [move_file_handlers ?a ?b ?c ?d ?e] =>
            destruct (move_file_handlers a b c d e) as [[r4 w4] ev4]
        end; simpl; by rewrite <-?app_assoc.
    + exfalso.
      assert (∃ v, outcome (move_file_block self src_remote_path dest_remote_directory
                              overwrite conn w1) = Ok v) as [v Hv];
        [|by rewrite Hblock in Hv].
      clear. unfold move_file_block. rewrite run_bind, run_try. cbn beta iota.
      destruct (outcome (ensure_directory self dest_remote_directory w1));
        [|projections; eauto].
      rewrite run_bind, run_try. projections. eauto.
  - exists None. rewrite run_bind. unfold mret, M_ret. simpl.
    by destruct (move_file_handlers _ _ None e w1) as [[r4 w4] ev4].
Qed.

(** The decorated operations do not depend on the retry settings given to
    the constructor. *)
Lemma retry_settings_unused self a m x :
  download_file (with_retry_settings self a m x) = download_file self ∧
  upload_file (with_retry_settings self a m x) = upload_file self ∧
  move_file (with_retry_settings self a m x) = move_file self ∧
  create_directory (with_retry_settings self a m x) = create_directory self ∧
  _create_connection (with_retry_settings self a m x) = _create_connection self.
Proof. done. Qed.

(** When the listing of [check_file_exists] fails, [move_file] goes on as
    if the destination name were free: the next command is the renaming,
    whatever [overwrite] is. *)
Lemma move_file_renames_when_check_fails self src_remote_path dest_remote_directory
    (overwrite : bool) conn w e :
  let dest_remote_path :=
    os_path.join dest_remote_directory (os_path.basename src_remote_path) in
  let ensured := ensure_directory self dest_remote_directory w in
  let checked := check_file_exists self dest_remote_path false (final ensured) in
  outcome ensured = Ok tt →
  outcome (check_file_exists_listing self dest_remote_path false (final ensured))
  = Raise e →
  ∃ post,
    events (move_file_block self src_remote_path dest_remote_directory overwrite conn w)
    = events ensured ++ events checked
      ++ EvCall (Rename conn src_remote_path dest_remote_path) :: post.
Proof.
  simpl. intros Hens Hlist. unfold move_file_block.
  rewrite run_bind, run_try. cbn beta iota. rewrite Hens.
  rewrite run_bind, run_try. cbn beta iota.
  rewrite run_bind.
  pose proof (check_file_exists_caught self
    (os_path.join dest_remote_directory (os_path.basename src_remote_path)) false
    (final (ensure_directory self dest_remote_directory w))) as Hchk.
  rewrite Hlist in Hchk.
  destruct (check_file_exists self _ false _) as [[r w2] ev2]. projections. subst r.
  rewrite run_bind. simpl. rewrite run_bind. unfold sys at 1.
  destruct (respond _ (Rename conn _ _) (env w2)) as [[[]|e'] env'];
    projections; rewrite ?app_nil_r; eauto.
Qed.

(** ** Parallel transfers *)

Lemma wait_all_first_raises what e futures w :
  isinstance e FTPTransferError = false →
  wait_all what (Raise e :: futures) w = (Raise e, w, []).
Proof. intros Hcls. unfold wait_all. simpl. rewrite run_bind. by rewrite Hcls. Qed.

Lemma submit_all_returns {A} (task : A → M unit) items w :
  ∃ futures, outcome (submit_all task items w) = Ok futures ∧
    ∀ (P : result unit → Prop),
      (∀ item w', P (outcome (task item w'))) → Forall P futures.
Proof.
  revert w. induction items as [|item items IH]; intros w.
  - exists []. split; [done|]. by constructor.
  - simpl. rewrite run_bind, run_try. cbn beta iota. rewrite run_bind.
    destruct (IH (final (task item w))) as (futures & Hout & HP).
    destruct (submit_all task items _) as [[r w2] ev2]. projections. subst r.
    eexists. split; [done|]. intros P Htask. constructor; [apply Htask|by apply HP].
Qed.

(** C8 fails on the code for [parallel_upload].  When the upload of the
    first item ends with an exception that is not an [FTPTransferError],
    the loop over the futures does not catch it and [parallel_upload]
    raises it. *)
Theorem parallel_upload_raises self local remote files w e :
  0 < max_connections self →
  outcome (upload_file self local remote None true w) = Raise e →
  exc_class e ≠ FTPTransferError →
  outcome (parallel_upload self ((local, remote) :: files) w) = Raise e.
Proof.
  intros Hmax Hup Hcls. unfold parallel_upload, ThreadPoolExecutor.
  replace (max_connections self <=? 0) with false by (symmetry; apply Z.leb_gt; lia).
  simpl. rewrite !run_bind, run_try. cbn beta iota. rewrite Hup. rewrite run_bind.
  destruct (submit_all_returns
              (λ '(local0, remote0), upload_file self local0 remote0 None true) files
              (final (upload_file self local remote None true w)))
    as (futures & Hout & _).
  destruct (submit_all _ files _) as [[r w2] ev2]. projections. subst r.
  rewrite wait_all_first_raises; [done|].
  unfold isinstance. by rewrite bool_decide_eq_false_2.
Qed.

(** [parallel_download] does what [parallel_upload] misses: every exception
    of [download_file] is an [FTPTransferError], so the loop over the
    futures catches each of them. *)
Lemma parallel_download_returns self files w :
  0 < max_connections self →
  outcome (parallel_download self files w) = Ok tt.
Proof.
  intros Hmax. unfold parallel_download, ThreadPoolExecutor.
  replace (max_connections self <=? 0) with false by (symmetry; apply Z.leb_gt; lia).
  rewrite run_bind.
  destruct (submit_all_returns
              (λ '(remote, local), download_file self remote local None true) files w)
    as (futures & Hout & HP).
  specialize (HP (λ r, match r with
                       | Ok _ => True
                       | Raise e => exc_class e = FTPTransferError
                       end)).
  destruct (submit_all _ files w) as [[r w2] ev2]. projections. subst r.
  assert (Forall (λ r : result unit, match r with
                       | Ok _ => True
                       | Raise e => exc_class e = FTPTransferError
                       end) futures) as Hall.
  { apply HP. intros [remote local] w'.
    pose proof (download_file_outcome self remote local None true w') as Hd.
    simpl in Hd. unfold outcome in *.
    by destruct (download_file self remote local None true w').1.1. }
  clear HP.
  assert (∀ w', (wait_all "download" futures w').1.1 = Ok ()) as Hwait.
  { induction Hall as [|[[]|e] futures Hhead Htail IH]; intros w'; [done|..].
    - unfold wait_all in *. simpl. rewrite run_bind. simpl. specialize (IH w').
      by destruct (for_each _ futures w') as [[r3 w3] ev3].
    - unfold wait_all in *. simpl. rewrite run_bind.
      unfold isinstance. rewrite bool_decide_eq_true_2 by done.
      unfold log at 1. cbn beta iota. specialize (IH w').
      by destruct (for_each _ futures w') as [[r3 w3] ev3]. }
  specialize (Hwait w2).
  by destruct (wait_all "download" futures w2) as [[r3 w3] ev3].
Qed.

End Properties.

(** * The client on concrete inputs *)

(** A client with two pooled sessions at most: three sessions are acquired
    and given back, then one is acquired again. *)
Lemma pool_capacity_and_exclusive_sessions_witness :
  let self := Sim.client 2 5 in
  let w := Sim.world Sim.server [] 0%nat ∅ in
  let ops := [Acquire; Acquire; Acquire; Release 0%nat true; Release 1%nat true;
              Release 2%nat true; Acquire] in
  within_capacity self (pool_run self ops (w, [])).1 ∧
  ∀ conn, conn ∈ connection_pool (pool_run self ops (w, [])).1 →
          conn ∉ (pool_run self ops (w, [])).2.
Proof.
  intros self w ops.
  destruct (pool_capacity_and_exclusive_sessions self w ops) as [Hcap Hexcl].
  - unfold within_capacity. simpl. lia.
  - split; simpl; constructor.
  - split; [exact Hcap|]. apply Hexcl.
    vm_compute. repeat split; repeat constructor.
Defined.

(** C5 fails as stated: released with [auto_release=False], session 0 is
    not put into the pool and no [QUIT] is sent on it. *)
Lemma release_without_auto_release_counterexample :
  ¬ pooled_or_terminated (Sim.client 5 5) 0%nat false (Sim.world Sim.server [] 1%nat ∅).
Proof.
  unfold pooled_or_terminated. vm_compute. intros [Hin|Hin]; inversion Hin.
Qed.

(** Changing to a directory that the server does not have raises
    [ftplib.error_perm]. *)
Lemma retry_operation_retries_every_exception_witness :
  let fn := sys (Cwd 0%nat "/missing") in
  let w := Sim.world Sim.server [] 0%nat ∅ in
  ∃ rest,
    events (Retrying_call retry_operation fn w) =
    events (fn w) ++ EvSleep 2000 :: events (fn (final (fn w))) ++ rest.
Proof.
  intros fn w.
  destruct (retry_operation_retries_every_exception fn w) as [_ Hretry].
  apply (Hretry Sim.reply_550). reflexivity.
Defined.

(** C2 fails as stated, whichever exceptions are taken as fatal; here
    [ftplib.error_perm], the permanent negative replies of the server: the
    change of directory that raises it is invoked five times. *)
Lemma fatal_raised_at_once_counterexample :
  invocations retry_operation (sys (Cwd 0%nat "/missing"))
    (Sim.world Sim.server [] 0%nat ∅) = 5%nat ∧
  ¬ fatal_raised_at_once (Env:=Sim.Server) (λ e, isinstance e error_perm).
Proof.
  split; [reflexivity|]. intros Hclaim.
  assert (outcome (sys (Cwd 0%nat "/missing") (Sim.world Sim.server [] 0%nat ∅))
          = Raise Sim.reply_550) as Hraise by reflexivity.
  destruct (Hclaim _ _ _ Hraise eq_refl) as [Hone _].
  vm_compute in Hone. discriminate.
Qed.

(** C3 at the failing input: a client built with [retry_attempts=3] whose
    server accepts no connection.  The download is invoked five times, not
    three, before the last error is raised. *)
Theorem retry_attempts_is_ignored :
  let self := Sim.client 5 3 in
  let w := Sim.world Sim.unreachable [] 0%nat ∅ in
  retry_attempts self = 3 ∧
  invocations retry_operation
    (download_file_body self "/pub/a.bin" "a.bin" None true) w = 5%nat ∧
  outcome (download_file self "/pub/a.bin" "a.bin" None true w) =
  Raise (Exc FTPTransferError
    "Error during download: Error connecting to FTP server: [Errno 111] Connection refused").
Proof. vm_compute. done. Qed.

(** C1 at the input of the specification: a local file of 100 bytes, a
    remote file of 200 bytes. *)
Lemma size_mismatch_falls_back_to_download_witness :
  let self := Sim.client 5 5 in
  let w := Sim.world (Sim.serving "/pub/report.bin" 200 [Sim.bytes 200 Byte.x01])
             [] 0%nat {[ "report.bin" := Sim.bytes 100 Byte.x02 ]} in
  let sized := sys (Size 0%nat "/pub/report.bin") (final (_get_connection self w)) in
  ∃ post,
    events (verify_file_integrity self "report.bin" "/pub/report.bin" true w) =
    events (_get_connection self w) ++
    EvCall (Size 0%nat "/pub/report.bin")
      :: EvLog WARNING site_md5_unsupported
      :: events (download_file self "/pub/report.bin" "report.bin.temp" None true
                   (final sized)) ++ post.
Proof.
  intros self w sized.
  apply (size_mismatch_falls_back_to_download self "report.bin" "/pub/report.bin"
           true w (Sim.bytes 100 Byte.x02) 0%nat (Some 200)).
  - reflexivity.
  - reflexivity.
  - reflexivity.
  - vm_compute. discriminate.
Defined.

(** There the remote file is retrieved in full, and the error that comes
    out is the checksum error. *)
Lemma size_mismatch_100_200 :
  let x := verify_file_integrity (Sim.client 5 5) "report.bin" "/pub/report.bin" true
             (Sim.world (Sim.serving "/pub/report.bin" 200 [Sim.bytes 200 Byte.x01])
                [] 0%nat {[ "report.bin" := Sim.bytes 100 Byte.x02 ]}) in
  outcome x =
    Raise (Exc FTPTransferError
      "Failed to verify integrity for report.bin: Checksum mismatch for report.bin and /pub/report.bin") ∧
  verbs (events x) = ["CONNECT"; "LOGIN"; "SIZE"; "CONNECT"; "LOGIN"; "SIZE"; "RETR"].
Proof. vm_compute. done. Qed.

(** When the server answers 200 to [SIZE] and then sends the 100 bytes of
    the local file, the verification succeeds. *)
Lemma size_mismatch_verified :
  let x := verify_file_integrity (Sim.client 5 5) "report.bin" "/pub/report.bin" true
             (Sim.world (Sim.serving "/pub/report.bin" 200 [Sim.bytes 100 Byte.x02])
                [] 0%nat {[ "report.bin" := Sim.bytes 100 Byte.x02 ]}) in
  outcome x = Ok tt ∧
  verbs (events x) = ["CONNECT"; "LOGIN"; "SIZE"; "CONNECT"; "LOGIN"; "SIZE"; "RETR"].
Proof. vm_compute. done. Qed.

(** A server that sends no block for the file and reports success, at
    every attempt. *)
Lemma download_of_zero_bytes_fails_witness :
  let self := Sim.client 5 5 in
  let w := Sim.world (Sim.serving "/pub/empty.bin" 0 []) [] 0%nat ∅ in
  invocations retry_operation
    (download_file_body self "/pub/empty.bin" "empty.bin" None true) w = 5%nat ∧
  ∃ msg,
    outcome (download_file self "/pub/empty.bin" "empty.bin" None true w)
    = Raise (Exc FTPTransferError msg).
Proof.
  intros self w.
  set (w1 := final (download_file_body self "/pub/empty.bin" "empty.bin" None true w)).
  apply (proj1 (proj2 (download_of_zero_bytes_fails self "/pub/empty.bin" "empty.bin"
                         None true (λ w', w' = w ∨ w' = w1) w))).
  - by left.
  - intros w' [->| ->].
    + split; [|by right]. exists 0%nat. vm_compute. repeat split; reflexivity.
    + split; [|right; vm_compute; reflexivity].
      exists 0%nat. vm_compute. repeat split; reflexivity.
Defined.

(** The decorated [download_file] then tries five times and raises the
    error of the empty file. *)
Lemma download_of_zero_bytes_retried :
  let x := download_file (Sim.client 5 5) "/pub/empty.bin" "empty.bin" None true
             (Sim.world (Sim.serving "/pub/empty.bin" 0 []) [] 0%nat ∅) in
  outcome x =
    Raise (Exc FTPTransferError
      "Error during download: Downloaded file empty.bin is empty (0KB)") ∧
  verbs (events x) =
    ["CONNECT"; "LOGIN"; "SIZE"; "RETR"; "NOOP"; "SIZE"; "RETR"; "NOOP"; "SIZE"; "RETR";
     "NOOP"; "SIZE"; "RETR"; "NOOP"; "SIZE"; "RETR"].
Proof. vm_compute. done. Qed.

(** C7 at a failing input: [/out/a.txt] exists and [/in/a.txt] is moved to
    [/out] with [overwrite=False]. *)
Lemma move_file_collision_without_overwrite_witness :
  let self := Sim.client 5 5 in
  let w := Sim.world (Sim.listing "/out" ["a.txt"]) [] 1%nat ∅ in
  let ensured := ensure_directory self "/out" w in
  let checked := check_file_exists self "/out/a.txt" false (final ensured) in
  move_file_block self "/in/a.txt" "/out" false 0%nat w =
  (Ok (Raise datetime_datetime, Some "/out/a.txt"),
   final checked, events ensured ++ events checked).
Proof.
  intros self w ensured checked.
  apply (move_file_collision_without_overwrite self "/in/a.txt" "/out" 0%nat w);
    reflexivity.
Defined.

(** The whole call: five attempts, no [DELE] and no [RENAME] among the
    commands, and the file is not moved. *)
Lemma move_file_collision_never_renames :
  let x := move_file (Sim.client 5 5) "/in/a.txt" "/out" true false
             (Sim.world (Sim.listing "/out" ["a.txt"]) [] 0%nat ∅) in
  outcome x =
    Raise (Exc FTPTransferError
      "Failed to move file from /in/a.txt to /out: type object 'datetime.datetime' has no attribute 'datetime'") ∧
  invocations retry_operation
    (move_file_body (Sim.client 5 5) "/in/a.txt" "/out" true false)
    (Sim.world (Sim.listing "/out" ["a.txt"]) [] 0%nat ∅) = 5%nat ∧
  filter (λ v, v = "RENAME" ∨ v = "DELE") (verbs (events x)) = [].
Proof. vm_compute. done. Qed.

(** C8 at a failing input: the server accepts no connection. *)
Lemma parallel_upload_raises_witness :
  let self := Sim.client 5 5 in
  let w := Sim.world Sim.unreachable [] 0%nat
             {[ "a.bin" := Sim.bytes 3 Byte.x01; "b.bin" := Sim.bytes 3 Byte.x02 ]} in
  outcome (parallel_upload self [("a.bin", "/pub/a.bin"); ("b.bin", "/pub/b.bin")] w)
  = Raise (Exc FTPConnectionError
             "Error connecting to FTP server: [Errno 111] Connection refused").
Proof.
  intros self w.
  apply (parallel_upload_raises self "a.bin" "/pub/a.bin" [("b.bin", "/pub/b.bin")] w).
  - reflexivity.
  - reflexivity.
  - discriminate.
Defined.

(** C9 at a failing input: a download of three blocks from an empty pool.
    No [NOOP] is sent at all. *)
Lemma download_of_three_blocks :
  let x := download_file (Sim.client 5 5) "/pub/big.bin" "big.bin" None true
             (Sim.world
                (Sim.serving "/pub/big.bin" 6
                   [Sim.bytes 2 Byte.x01; Sim.bytes 2 Byte.x02; Sim.bytes 2 Byte.x03])
                [] 0%nat ∅) in
  outcome x = Ok tt ∧
  files (final x) !! "big.bin" =
    Some [Byte.x01; Byte.x01; Byte.x02; Byte.x02; Byte.x03; Byte.x03] ∧
  events x =
    [EvLog INFO "Starting download of /pub/big.bin to big.bin";
     EvCall (Connect 0%nat "ftp.example.org" 21);
     EvCall (Login 0%nat "user" "secret");
     EvCall (Size 0%nat "/pub/big.bin");
     EvCall (Retrbinary 0%nat "RETR /pub/big.bin");
     EvLog INFO "Downloaded: /pub/big.bin to big.bin"] ∧
  keepalives (events x) = [].
Proof. vm_compute. done. Qed.

(** The server has no directory [/out]: the listing raises, and
    [check_file_exists] answers [False]. *)
Lemma check_file_exists_never_raises_witness :
  outcome (check_file_exists (Sim.client 5 5) "/out/a.txt" true
             (Sim.world Sim.server [] 0%nat ∅)) = Ok false.
Proof.
  destruct (check_file_exists_never_raises (Sim.client 5 5) "/out/a.txt" true
              (Sim.world Sim.server [] 0%nat ∅)) as (_ & _ & _ & Hnlst & _).
  apply (Hnlst 0%nat Sim.reply_550); reflexivity.
Defined.

(** * More properties of the client *)

(** Projections of a run that is written out. *)
Ltac run_projections :=
  repeat first
    [ progress change (@outcome ?Env ?A (?r, ?w0, ?ev)) with r
    | progress change (@final ?Env ?A (?r, ?w0, ?ev)) with w0
    | progress change (@events ?Env ?A (?r, ?w0, ?ev)) with ev ].

Ltac run_projections_in H :=
  repeat first
    [ progress change (@outcome ?Env ?A (?r, ?w0, ?ev)) with r in H
    | progress change (@final ?Env ?A (?r, ?w0, ?ev)) with w0 in H
    | progress change (@events ?Env ?A (?r, ?w0, ?ev)) with ev in H ].

Section MoreProperties.
Context `{Transport Env} `{Hashlib} `{Host}.
Implicit Types (w : World (Env:=Env)) (self : FTPClient).

(** ** Retrying and creating sessions *)

Lemma run_bind_ok {A B} (m : M A) (f : A → M B) w a w1 ev1 :
  m w = (Ok a, w1, ev1) →
  (m ≫= f) w = (outcome (f a w1), final (f a w1), ev1 ++ events (f a w1)).
Proof. intros Hm. rewrite run_bind, Hm. by destruct (f a w1) as [[r w2] ev2]. Qed.

Lemma run_sys {A} (c : call A) w r env' :
  respond A c (env w) = (r, env') →
  sys c w = (r, {| connection_pool := connection_pool w; next_conn := next_conn w;
                   env := env'; files := files w |}, [EvCall c]).
Proof. intros Hc. unfold sys. by rewrite Hc. Qed.

Lemma Retrying_call_raises {A} (p : Retrying) (fn : M A) (P : exn → Prop) w e :
  (∀ w' e', outcome (fn w') = Raise e' → P e') →
  outcome (Retrying_call p fn w) = Raise e → P e.
Proof.
  intros Hfn.
  destruct (Retrying_call_last p fn (λ _, True) w) as (w0 & _ & -> & _); [done..|].
  apply Hfn.
Qed.

Lemma verbs_app evs1 evs2 : verbs (evs1 ++ evs2) = verbs evs1 ++ verbs evs2.
Proof. apply omap_app. Qed.

Lemma quits_app evs1 evs2 : quits (evs1 ++ evs2) = quits evs1 ++ quits evs2.
Proof. apply omap_app. Qed.

(** A projection of the events that sees no sleep and nothing in an
    invocation sees nothing in the whole call. *)
Lemma Retrying_call_omap_nil {A X} (p : Retrying) (fn : M A) (f : event → option X) w :
  (∀ ms, f (EvSleep ms) = None) →
  (∀ w', omap f (events (fn w')) = []) →
  omap f (events (Retrying_call p fn w)) = [].
Proof.
  intros Hsleep Hfn.
  destruct (Retrying_loop_total p fn (stop_max_attempt_number p - 1) 1 w)
    as (earlier & last & Hx).
  rewrite (run_Retrying_call p fn w earlier last Hx).
  unfold events at 1. cbn [snd]. clear earlier last Hx. unfold Retrying_attempts.
  generalize (stop_max_attempt_number p - 1)%nat as budget.
  generalize 1%nat as n. intros n budget. revert w n.
  induction budget as [|budget IH]; intros w n.
  - rewrite Retrying_loop_stops. apply Hfn.
  - destruct (outcome (fn w)) as [a|e] eqn:Hout.
    + rewrite (Retrying_loop_returns p fn (S budget) n w a Hout). apply Hfn.
    + destruct (retry_on_exception p e) eqn:Hrej.
      * destruct (Retrying_loop_retries p fn budget n w e Hout Hrej)
          as (earlier & last & _ & ->).
        unfold events at 1. simpl. rewrite omap_app, Hfn. simpl.
        rewrite Hsleep. apply IH.
      * simpl. rewrite run_bind, run_try. cbn beta iota.
        unfold should_reject. simpl. rewrite Hout, Hrej. simpl.
        unfold events at 1. simpl. rewrite app_nil_r. apply Hfn.
Qed.

Lemma create_connection_body_raises self w e :
  outcome (_create_connection_body self w) = Raise e →
  exc_class e = FTPConnectionError.
Proof.
  unfold _create_connection_body, try_except, new_FTP, sys.
  unfold mbind, M_bind, try_, mret, M_ret, raise, log. simpl.
  run_cases; projections; intros [= <-]; done.
Qed.

Lemma create_connection_body_quits self w :
  quits (events (_create_connection_body self w)) = [].
Proof.
  unfold _create_connection_body, try_except, new_FTP, sys.
  unfold mbind, M_bind, try_, mret, M_ret, raise, log. simpl.
  run_cases; done.
Qed.

Lemma create_connection_raises self w e :
  outcome (_create_connection self w) = Raise e → exc_class e = FTPConnectionError.
Proof.
  apply (Retrying_call_raises _ _ (λ e, exc_class e = FTPConnectionError)).
  intros w' e'. apply create_connection_body_raises.
Qed.

Lemma create_connection_quits self w :
  quits (events (_create_connection self w)) = [].
Proof.
  apply Retrying_call_omap_nil; [done|]. intros w'. apply create_connection_body_quits.
Qed.

Lemma get_connection_raises self w e :
  outcome (_get_connection self w) = Raise e → exc_class e = FTPConnectionError.
Proof.
  rewrite run_get_connection.
  destruct (reverse (connection_pool w)) as [|c0 rest];
    [apply create_connection_raises|].
  cbv zeta. destruct (outcome (sys (Voidcmd c0 "NOOP") _)); [done|].
  apply create_connection_raises.
Qed.

(** X1.  Acquiring a session fails with [FTPConnectionError] and with
    nothing else, whatever went wrong on the network: [_create_connection]
    and [_get_connection] raise no other exception. *)
Theorem acquisition_raises_connection_error self w e :
  (outcome (_create_connection self w) = Raise e → exc_class e = FTPConnectionError) ∧
  (outcome (_get_connection self w) = Raise e → exc_class e = FTPConnectionError).
Proof. split; [apply create_connection_raises|apply get_connection_raises]. Qed.

Lemma Retrying_loop_verbs {A} (p : Retrying) (fn : M A) (vs : list string) budget n w :
  (∀ w', verbs (events (fn w')) = vs ∧ ∃ e, outcome (fn w') = Raise e) →
  (∀ e, retry_on_exception p e = true) →
  verbs (events (Retrying_loop p fn budget n w)) = concat (replicate (S budget) vs).
Proof.
  intros Hfn Hrej. revert n w. induction budget as [|budget IH]; intros n w.
  - rewrite Retrying_loop_stops. unfold events at 1. simpl.
    rewrite app_nil_r. apply Hfn.
  - destruct (Hfn w) as [Hvs [e He]].
    destruct (Retrying_loop_retries p fn budget n w e He (Hrej e))
      as (earlier & last & _ & ->).
    unfold events at 1. cbn [snd]. rewrite verbs_app, Hvs.
    change (verbs (EvSleep (wait p n) :: ?evs)) with (verbs evs).
    rewrite IH. done.
Qed.

(** X2.  When the server cannot be reached at all, [_create_connection]
    tries to connect exactly five times and then raises
    [FTPConnectionError]. *)
Theorem create_connection_gives_up_after_five self w :
  (∀ ftp env', ∃ e env'',
     respond unit (Connect ftp (hostname self) (port self)) env' = (Raise e, env'')) →
  verbs (events (_create_connection self w)) =
    ["CONNECT"; "CONNECT"; "CONNECT"; "CONNECT"; "CONNECT"] ∧
  ∃ e, outcome (_create_connection self w) = Raise e ∧
       exc_class e = FTPConnectionError.
Proof.
  intros Hrefused.
  assert (∀ w', verbs (events (_create_connection_body self w')) = ["CONNECT"] ∧
                ∃ e, outcome (_create_connection_body self w') = Raise e) as Hbody.
  { intros w'. unfold _create_connection_body, try_except, new_FTP, sys.
    unfold mbind, M_bind, try_, mret, M_ret, raise, log. simpl.
    destruct (Hrefused (next_conn w') (env w')) as (e & env'' & ->). simpl.
    destruct (isinstance e TimeoutError); projections; eauto. }
  split.
  - unfold _create_connection.
    destruct (Retrying_loop_total retry_create_connection (_create_connection_body self)
                4 1 w) as (earlier & last & Hx).
    rewrite (run_Retrying_call _ _ w earlier last Hx).
    unfold events at 1. cbn [snd]. unfold Retrying_attempts.
    change (stop_max_attempt_number retry_create_connection - 1)%nat with 4%nat.
    by rewrite (Retrying_loop_verbs _ _ ["CONNECT"]).
  - destruct (outcome (_create_connection self w)) as [c|e] eqn:Hout.
    + exfalso. unfold _create_connection in Hout.
      destruct (Retrying_call_last retry_create_connection
                  (_create_connection_body self) (λ _, True) w)
        as (w0 & _ & Hlast & _); [done..|].
      rewrite Hout in Hlast. destruct (Hbody w0) as [_ [e He]]. congruence.
    + exists e. split; [done|]. by apply (create_connection_raises self w).
Qed.

(** X3.  The backoff of the decorated operations: an operation that raises
    at every invocation is invoked five times, each time in the world the
    invocation before left, with sleeps of 2, 4, 8 and 10 seconds in
    between, and the call ends as the fifth invocation ends. *)
Theorem retry_operation_backoff {A} (fn : M A) w :
  (∀ w', ∃ e, outcome (fn w') = Raise e) →
  let w2 := final (fn w) in
  let w3 := final (fn w2) in
  let w4 := final (fn w3) in
  let w5 := final (fn w4) in
  Retrying_call retry_operation fn w =
  (outcome (fn w5), final (fn w5),
   events (fn w) ++ EvSleep 2000 :: events (fn w2) ++ EvSleep 4000
     :: events (fn w3) ++ EvSleep 8000 :: events (fn w4) ++ EvSleep 10000
     :: events (fn w5)).
Proof.
  intros Hfn w2 w3 w4 w5.
  destruct (Hfn w) as [e1 Hraise1]. destruct (Hfn w2) as [e2 Hraise2].
  destruct (Hfn w3) as [e3 Hraise3]. destruct (Hfn w4) as [e4 Hraise4].
  destruct (Retrying_loop_retries retry_operation fn 3 1 w e1 Hraise1 eq_refl)
    as (l1 & a1 & Hx1 & Hr1).
  destruct (Retrying_loop_retries retry_operation fn 2 2 w2 e2 Hraise2 eq_refl)
    as (l2 & a2 & Hx2 & Hr2).
  destruct (Retrying_loop_retries retry_operation fn 1 3 w3 e3 Hraise3 eq_refl)
    as (l3 & a3 & Hx3 & Hr3).
  destruct (Retrying_loop_retries retry_operation fn 0 4 w4 e4 Hraise4 eq_refl)
    as (l4 & a4 & Hx4 & Hr4).
  subst w2 w3 w4 w5.
  rewrite Retrying_loop_stops in Hx4, Hr4.
  unfold outcome, final, events in *. cbn [fst snd] in *.
  injection Hx4 as <- <-. rewrite Hr4 in Hx3, Hr3. cbn [fst snd] in *.
  injection Hx3 as <- <-. rewrite Hr3 in Hx2, Hr2. cbn [fst snd] in *.
  injection Hx2 as <- <-. rewrite Hr2 in Hx1, Hr1. cbn [fst snd] in *.
  injection Hx1 as <- <-.
  unfold Retrying_call, Retrying_attempts.
  change (stop_max_attempt_number retry_operation - 1)%nat with 4%nat.
  rewrite run_bind, Hr1. cbn beta iota.
  unfold lift_result. cbn [value].
  match goal with
  | |- context [match ?r with Ok _ => _ | Raise _ => _ end] => destruct r
  end; unfold mret, M_ret, raise; rewrite app_nil_r; reflexivity.
Qed.

(** ** Warming and draining the pool *)

Lemma connect_loop_spec self n w :
  outcome (connect_loop self n w) = Ok tt →
  ∃ new,
    connection_pool (final (connect_loop self n w)) = connection_pool w ++ new ∧
    length new = n ∧ NoDup new ∧
    (next_conn w ≤ next_conn (final (connect_loop self n w)))%nat ∧
    Forall (λ c, (next_conn w ≤ c < next_conn (final (connect_loop self n w)))%nat) new.
Proof.
  revert w. induction n as [|n IH]; intros w Hok.
  - exists []. simpl. rewrite app_nil_r. repeat split; [constructor|done|constructor].
  - simpl in *. rewrite run_bind in *.
    pose proof (create_connection_spec self w) as (Hpool & _ & Hnext & Hfresh).
    destruct (_create_connection self w) as [[[c|e] w1] ev1]; [|done].
    projections. specialize (Hfresh c eq_refl).
    unfold get_pool, set_pool, mbind, M_bind in *. simpl in *.
    specialize (IH {| connection_pool := connection_pool w1 ++ [c];
                      next_conn := next_conn w1; env := env w1; files := files w1 |}).
    destruct (connect_loop self n _) as [[r w2] ev2]. simpl in *.
    destruct IH as (new & Hp2 & Hlen & Hnd & Hn2 & Hall); [by destruct r as [[]|]|].
    exists (c :: new). rewrite Hp2, Hpool, <-app_assoc. simpl.
    split; [done|]. split; [by rewrite Hlen|]. split; [|split; [lia|]].
    + apply NoDup_cons. split; [|done]. intros Hin.
      rewrite Forall_forall in Hall. apply Hall in Hin. lia.
    + apply Forall_cons. split; [lia|].
      eapply Forall_impl; [done|]. simpl. lia.
Qed.

(** X4.  When [connect] returns, it has appended [max_connections] new,
    distinct sessions to the idle list, whatever was idle before: called on
    a pool that is not empty, it leaves more idle sessions than
    [max_connections]. *)
Theorem connect_fills_the_pool self w :
  let x := connect self w in
  outcome x = Ok tt →
  (∃ new,
     connection_pool (final x) = connection_pool w ++ new ∧
     length new = Z.to_nat (max_connections self) ∧ NoDup new ∧
     Forall (λ c, (next_conn w ≤ c)%nat) new) ∧
  (0 < max_connections self → connection_pool w ≠ [] →
   ¬ within_capacity self (final x)).
Proof.
  simpl. intros Hok. unfold connect in *.
  destruct (connect_loop_spec self _ w Hok) as (new & Hpool & Hlen & Hnd & _ & Hall).
  split.
  - exists new. repeat split; [done..|].
    eapply Forall_impl; [done|]. simpl. lia.
  - intros Hmax Hidle. unfold within_capacity. rewrite Hpool, length_app, Hlen.
    destruct (connection_pool w); [done|]. simpl. lia.
Qed.

Lemma close_connection_spec (is_reset : exn → bool) conn w :
  let x := close_connection is_reset conn w in
  outcome x = Ok tt ∧ connection_pool (final x) = connection_pool w ∧
  quits (events x) = [conn].
Proof.
  unfold close_connection, try_except, sys, log.
  unfold mbind, M_bind, try_, mret, M_ret. simpl.
  destruct (respond _ (Quit conn) (env w)) as [[[]|e] env']; simpl; [done|].
  by destruct (_ || _).
Qed.

Lemma disconnect_loop_spec (is_reset : exn → bool) turns w :
  (length (connection_pool w) ≤ turns)%nat →
  let x := disconnect_loop is_reset turns w in
  outcome x = Ok tt ∧ connection_pool (final x) = [] ∧
  quits (events x) = reverse (connection_pool w).
Proof.
  revert w. induction turns as [|turns IH]; intros w Hlen.
  - destruct (connection_pool w) eqn:Hpool; [|simpl in Hlen; lia].
    simpl. by rewrite ?Hpool.
  - simpl. rewrite run_bind. unfold get_pool. cbn beta iota.
    assert (connection_pool w = [] ∨ ∃ pool c1, connection_pool w = pool ++ [c1])
      as [Hpool|(pool & c1 & Hpool)].
    { destruct (connection_pool w) using rev_ind; eauto. }
    + rewrite Hpool. simpl. done.
    + rewrite bool_decide_eq_false_2
        by (rewrite Hpool; intros Heq; by apply app_eq_nil in Heq as [_ [=]]).
      unfold pool_pop, get_pool, set_pool. rewrite !run_bind. simpl.
      rewrite Hpool, reverse_snoc. simpl. rewrite run_bind.
      set (w1 := {| connection_pool := reverse (reverse pool);
                    next_conn := next_conn w; env := env w; files := files w |}).
      pose proof (close_connection_spec is_reset c1 w1) as (Hok & Hp & Hq).
      destruct (close_connection is_reset c1 w1) as [[r w2] ev2]. projections.
      subst r. rewrite reverse_involutive in Hp.
      specialize (IH w2). rewrite Hp in IH. rewrite Hpool, length_app in Hlen.
      simpl in Hlen. destruct IH as (Hok2 & Hp2 & Hq2); [lia|].
      destruct (disconnect_loop is_reset turns w2) as [[r3 w3] ev3]. simpl in *.
      subst r3. rewrite quits_app, Hq, Hq2. done.
Qed.

(** X5.  [disconnect] never raises, whatever closing a session does: it
    sends [QUIT] once on every idle session, the last pooled first, and
    leaves the pool empty. *)
Theorem disconnect_empties_the_pool (is_reset : exn → bool) w :
  let x := disconnect is_reset w in
  outcome x = Ok tt ∧ connection_pool (final x) = [] ∧
  quits (events x) = reverse (connection_pool w).
Proof.
  simpl. unfold disconnect. rewrite run_bind. unfold get_pool. cbn beta iota.
  rewrite run_bind.
  pose proof (disconnect_loop_spec is_reset (length (connection_pool w)) w
                (le_n _)) as (Hok & Hp & Hq).
  destruct (disconnect_loop is_reset _ w) as [[r w2] ev2]. projections. subst r.
  simpl. rewrite quits_app, Hq. simpl. by rewrite app_nil_r.
Qed.

(** X6.  Releasing a session into a pool below capacity and acquiring
    again gives that same session back, when it answers the probe, and
    leaves the pool as it was before the release. *)
Theorem release_then_acquire self conn w :
  let released := final (_release_connection self conn true w) in
  Z.of_nat (length (connection_pool w)) < max_connections self →
  outcome (sys (Voidcmd conn "NOOP") released) = Ok tt →
  outcome (_get_connection self released) = Ok conn ∧
  connection_pool (final (_get_connection self released)) = connection_pool w.
Proof.
  simpl. intros Hcap.
  pose proof (release_connection_spec self conn true w) as (_ & _ & Hrel).
  simpl in Hrel.
  replace (Z.of_nat (length (connection_pool w)) <? max_connections self)
    with true in Hrel by (symmetry; by apply Z.ltb_lt).
  destruct Hrel as (_ & Hpool & _).
  intros Hprobe. rewrite run_get_connection, Hpool, reverse_snoc. cbv zeta.
  pose proof (release_connection_spec self conn true w) as (_ & _ & Hrel').
  unfold sys in *. unfold _release_connection, get_pool, set_pool in *.
  unfold mbind, M_bind in *. projections.
  replace (Z.of_nat (length (connection_pool w)) <? max_connections self)
    with true in * by (symmetry; by apply Z.ltb_lt).
  projections.
  destruct (respond _ (Voidcmd conn "NOOP") (env w)) as [r env']. projections. subst r.
  by rewrite reverse_involutive.
Qed.

(** X7.  When the idle session that [_get_connection] pops does not answer
    the probe, it is dropped: it does not go back to the pool, no [QUIT] is
    sent on it, and the session returned is another object than every
    session that was idle. *)
Theorem dead_session_is_replaced self w rest c0 e :
  let x := _get_connection self w in
  connection_pool w = rest ++ [c0] →
  Forall (λ c, (c < next_conn w)%nat) (connection_pool w) →
  outcome (sys (Voidcmd c0 "NOOP") w) = Raise e →
  connection_pool (final x) = rest ∧
  quits (events x) = [] ∧
  ∀ c, outcome x = Ok c → c ∉ connection_pool w.
Proof.
  simpl. intros Hpool Hold Hprobe.
  rewrite run_get_connection, Hpool, reverse_snoc. cbv zeta.
  unfold sys in *. projections.
  destruct (respond _ (Voidcmd c0 "NOOP") (env w)) as [r env']. projections. subst r.
  set (w1 := {| connection_pool := reverse (reverse rest); next_conn := next_conn w;
                env := env'; files := files w |}).
  pose proof (create_connection_spec self w1) as (Hp & _ & _ & Hfresh).
  pose proof (create_connection_quits self w1) as Hq.
  projections. rewrite reverse_involutive in Hp.
  split; [done|]. split; [done|].
  intros c Hok Hin. specialize (Hfresh c Hok).
  rewrite ?Hpool, Forall_forall in Hold. apply Hold in Hin. lia.
Qed.

(** X8.  [ftp_connection] gives the session back when the block raises as
    when it returns: with [auto_release] and room in the pool, the call
    ends as the block ended and the session is appended to the idle
    list. *)
Theorem ftp_connection_returns_the_session {A} self (body : Conn → M A) w conn :
  let acquired := _get_connection self w in
  let block := body conn (final acquired) in
  outcome acquired = Ok conn →
  Z.of_nat (length (connection_pool (final block))) < max_connections self →
  outcome (ftp_connection self true body w) = outcome block ∧
  connection_pool (final (ftp_connection self true body w)) =
    connection_pool (final block) ++ [conn].
Proof.
  simpl. intros Hacq Hcap. rewrite run_ftp_connection. cbv zeta. rewrite Hacq.
  pose proof (release_connection_spec self conn true
                (final (body conn (final (_get_connection self w))))) as (_ & _ & Hrel).
  cbv beta zeta iota in Hrel.
  replace (_ <? _) with true in Hrel by (symmetry; by apply Z.ltb_lt).
  destruct Hrel as (Hok & Hpool & _).
  rewrite Hok. split; [done|]. unfold final at 1. cbn [fst snd]. by rewrite Hpool.
Qed.

(** ** Transfers *)

Lemma release_with_room self conn (auto_release : bool) w :
  Z.of_nat (length (connection_pool w)) < max_connections self →
  let x := _release_connection self conn auto_release w in
  outcome x = Ok tt ∧ files (final x) = files w ∧ events x = [].
Proof.
  intros Hcap.
  pose proof (release_connection_spec self conn auto_release w) as (_ & Hfiles & Hrel).
  cbv zeta in *. destruct auto_release.
  - replace (_ <? _) with true in Hrel by (symmetry; by apply Z.ltb_lt).
    by destruct Hrel as (? & _ & ?).
  - by rewrite Hrel.
Qed.

Lemma run_file_write local_file_path block w :
  download_callback local_file_path None block w
  = (Ok tt,
     {| connection_pool := connection_pool w; next_conn := next_conn w;
        env := env w;
        files := alter (λ old, old ++ block) local_file_path (files w) |}, []).
Proof. reflexivity. Qed.

Lemma run_download_callbacks local_file_path blocks w content :
  files w !! local_file_path = Some content →
  let x := for_each (download_callback local_file_path None) blocks w in
  outcome x = Ok tt ∧ events x = [] ∧
  connection_pool (final x) = connection_pool w ∧
  files (final x) !! local_file_path = Some (content ++ concat blocks).
Proof.
  revert w content. induction blocks as [|block blocks IH]; intros w content Hlocal.
  - simpl. by rewrite app_nil_r.
  - cbn [for_each concat]. cbv zeta. rewrite run_bind, run_file_write.
    cbn beta iota.
    set (w1 := {| connection_pool := connection_pool w; next_conn := next_conn w;
                  env := env w;
                  files := alter (λ old, old ++ block) local_file_path (files w) |}).
    destruct (IH w1 (content ++ block)) as (Hok & Hev & Hpool & Hfiles).
    { simpl. by rewrite lookup_alter_eq, Hlocal. }
    destruct (for_each _ blocks w1) as [[r w2] ev2]. projections. subst r ev2.
    by rewrite <-app_assoc in Hfiles.
Qed.

Lemma ftp_connection_with_block {A} self (auto_release : bool) (body : Conn → M A)
    w conn r w2 ev2 :
  outcome (_get_connection self w) = Ok conn →
  body conn (final (_get_connection self w)) = (r, w2, ev2) →
  ftp_connection self auto_release body w =
  let y := _release_connection self conn auto_release w2 in
  (match outcome y with Ok _ => r | Raise e => Raise e end,
   final y, events (_get_connection self w) ++ ev2 ++ events y).
Proof.
  intros Hacq Hbody. rewrite run_ftp_connection. cbv zeta. by rewrite Hacq, Hbody.
Qed.

Lemma ftp_connection_without_session {A} self (auto_release : bool)
    (body : Conn → M A) w e :
  outcome (_get_connection self w) = Raise e →
  ftp_connection self auto_release body w =
  (Raise e, final (_get_connection self w), events (_get_connection self w)).
Proof. intros Hacq. rewrite run_ftp_connection. cbv zeta. by rewrite Hacq. Qed.

Lemma run_download_stream remote_file_path local_file_path progress_callback conn w :
  download_stream remote_file_path local_file_path progress_callback conn w =
  match open_error local_file_path with
  | Some e => (Raise e, w, [])
  | None =>
      let opened :=
        {| connection_pool := connection_pool w; next_conn := next_conn w;
           env := env w; files := <[local_file_path:=[]]> (files w) |} in
      let y :=
        (total_size ← sys (Size conn remote_file_path);
         match progress_callback with
         | None => tqdm total_size
         | Some _ => mret tt
         end;;
         retrbinary conn ("RETR " +:+ remote_file_path)
           (download_callback local_file_path progress_callback)) opened in
      (outcome y, final y, events y)
  end.
Proof.
  unfold download_stream. rewrite run_bind, run_open_wb.
  destruct (open_error local_file_path); [done|]. cbn beta iota zeta.
  by match goal with |- context [(?m ≫= ?f) ?w0] => destruct ((m ≫= f) w0) as [[r w2] ev2] end.
Qed.

(** X9.  A download that goes well writes to the local file exactly the
    bytes of the blocks that the server sent, in their order: when the
    local file can be opened for writing, a session is acquired with room
    in the pool, [SIZE] is answered, the progress bar can be built for that
    size, and [RETR] is answered with at least one byte, the invocation
    returns and the local file is the concatenation of the blocks. *)
Theorem download_writes_received_blocks self remote_file_path local_file_path
    (auto_release : bool) w conn size env1 blocks env2 :
  let acquired := _get_connection self w in
  let body := download_file_body self remote_file_path local_file_path None
                auto_release w in
  open_error local_file_path = None →
  outcome acquired = Ok conn →
  Z.of_nat (length (connection_pool (final acquired))) < max_connections self →
  respond _ (Size conn remote_file_path) (env (final acquired)) = (Ok size, env1) →
  tqdm_error size = None →
  respond _ (Retrbinary conn ("RETR " +:+ remote_file_path)) env1
    = (Ok (blocks, None), env2) →
  concat blocks ≠ [] →
  outcome body = Ok tt ∧
  files (final body) !! local_file_path = Some (concat blocks).
Proof.
  simpl. intros Hopen Hacq Hcap Hsize Hbar Hretr Hdata.
  set (w1 := final (_get_connection self w)) in *.
  assert (∃ w2, download_stream remote_file_path local_file_path None conn w1
                = (Ok tt, w2,
                   [EvCall (Size conn remote_file_path)] ++ [] ++
                   [EvCall (Retrbinary conn ("RETR " +:+ remote_file_path))] ++ []) ∧
                connection_pool w2 = connection_pool w1 ∧
                files w2 !! local_file_path = Some (concat blocks))
    as (w2 & Hstream & Hpool & Hlocal).
  { rewrite run_download_stream, Hopen. cbv zeta.
    set (opened := {| connection_pool := connection_pool w1; next_conn := next_conn w1;
                      env := env w1; files := <[local_file_path:=[]]> (files w1) |}).
    rewrite (run_bind_ok _ _ _ _ _ _ (run_sys _ opened _ _ Hsize)).
    set (sized := {| connection_pool := connection_pool opened;
                     next_conn := next_conn opened; env := env1;
                     files := files opened |}).
    assert (tqdm size sized = (Ok tt, sized, [])) as Htqdm
      by (unfold tqdm; by rewrite Hbar).
    rewrite (run_bind_ok _ _ _ _ _ _ Htqdm).
    unfold retrbinary.
    rewrite (run_bind_ok _ _ _ _ _ _ (run_sys _ sized _ _ Hretr)).
    set (w' := {| connection_pool := connection_pool sized;
                  next_conn := next_conn sized; env := env2;
                  files := files sized |}).
    destruct (run_download_callbacks local_file_path blocks w' [])
      as (Hok & Hev & Hp & Hf).
    { simpl. by rewrite lookup_insert_eq. }
    cbv zeta in *.
    rewrite run_bind.
    destruct (for_each _ blocks w') as [[r w2] ev2].
    unfold outcome, final, events in *. cbn [fst snd] in *. subst r ev2.
    exists w2. done. }
  assert ((download_stream remote_file_path local_file_path None conn;;
           download_check remote_file_path local_file_path) w1
          = (Ok tt, w2,
             ([EvCall (Size conn remote_file_path)] ++ [] ++
              [EvCall (Retrbinary conn ("RETR " +:+ remote_file_path))] ++ []) ++
             [EvLog INFO ("Downloaded: " +:+ remote_file_path +:+ " to "
                          +:+ local_file_path)])) as Hblock.
  { rewrite run_bind, Hstream, run_download_check, Hlocal.
    destruct (Z.eqb_spec (Z.of_nat (length (concat blocks))) 0) as [Hlen|Hlen];
      [|done].
    destruct (concat blocks); [done|simpl in Hlen; lia]. }
  rewrite run_download_file_body. cbv zeta.
  rewrite (ftp_connection_with_block self auto_release _ w conn _ _ _ Hacq Hblock).
  destruct (release_with_room self conn auto_release w2) as (Hok & Hfiles & _).
  { by rewrite Hpool. }
  cbv zeta in *.
  destruct (_release_connection self conn auto_release w2) as [[r3 w3] ev3].
  projections. subst r3. simpl. by rewrite Hfiles.
Qed.

Lemma download_handlers_verbs remote_file_path e w :
  verbs (events (download_handlers remote_file_path e w)) = [].
Proof.
  unfold download_handlers, log, raise, mbind, M_bind, mret, M_ret.
  destruct (isinstance e error_perm); [|done].
  by destruct (startswith (str e) "550").
Qed.

(** X10.  [download_file] opens the local file for writing before it sends
    anything.  When the file cannot be opened, the invocation raises
    [FTPTransferError] with no command sent on its session but what
    acquiring and releasing it sends, and no local file is touched.  When
    it can, and [SIZE] then raises, for a remote file that does not exist
    for one, the invocation raises [FTPTransferError] and leaves an empty
    local file in place of whatever was there. *)
Theorem download_truncates_the_local_file self remote_file_path local_file_path
    progress_callback (auto_release : bool) w conn :
  let acquired := _get_connection self w in
  let body := download_file_body self remote_file_path local_file_path
                progress_callback auto_release w in
  outcome acquired = Ok conn →
  (∀ e, open_error local_file_path = Some e →
        files (final body) = files w ∧
        verbs (events body)
        = verbs (events acquired) ++
          verbs (events (_release_connection self conn auto_release
                           (final acquired))) ∧
        ∃ msg, outcome body = Raise (Exc FTPTransferError msg)) ∧
  (∀ e, open_error local_file_path = None →
        outcome (sys (Size conn remote_file_path) (final acquired)) = Raise e →
        files (final body) !! local_file_path = Some [] ∧
        ∃ msg, outcome body = Raise (Exc FTPTransferError msg)).
Proof.
  simpl. intros Hacq.
  set (w1 := final (_get_connection self w)) in *.
  pose proof (get_connection_spec self w) as (_ & Hfiles1 & _). cbv zeta in Hfiles1.
  fold w1 in Hfiles1.
  split.
  - intros e Hopen.
    assert ((download_stream remote_file_path local_file_path progress_callback
               conn;; download_check remote_file_path local_file_path) w1
            = (Raise e, w1, [])) as Hblock.
    { apply run_bind_raise. by rewrite run_download_stream, Hopen. }
    rewrite run_download_file_body. cbv zeta.
    rewrite (ftp_connection_with_block self auto_release _ w conn _ _ _ Hacq Hblock).
    pose proof (release_connection_spec self conn auto_release w1)
      as (_ & Hfiles & _).
    cbv zeta in *.
    destruct (_release_connection self conn auto_release w1) as [[r3 w3] ev3].
    run_projections. run_projections_in Hfiles.
    assert (∀ e0, let y := download_handlers remote_file_path e0 w3 in
                  files (final y) = files w ∧ verbs (events y) = [] ∧
                  ∃ msg, outcome y = Raise (Exc FTPTransferError msg)) as Hhandled.
    { intros e0. destruct (download_handlers_raise remote_file_path e0 w3)
        as (msg & Hmsg & Hkeep).
      cbv zeta. rewrite Hkeep, Hfiles, Hfiles1, download_handlers_verbs. eauto. }
    cbn [app].
    assert (∀ e0, let y := download_handlers remote_file_path e0 w3 in
                  files (final (outcome y, final y,
                                (events (_get_connection self w) ++ ev3) ++ events y))
                  = files w ∧
                  verbs (events (outcome y, final y,
                                 EvLog INFO ("Starting download of " +:+
                                             remote_file_path +:+ " to "
                                             +:+ local_file_path)
                                 :: (events (_get_connection self w) ++ ev3)
                                    ++ events y))
                  = verbs (events (_get_connection self w)) ++ verbs ev3 ∧
                  ∃ msg, outcome (outcome y, final y,
                                  EvLog INFO ("Starting download of " +:+
                                              remote_file_path +:+ " to "
                                              +:+ local_file_path)
                                  :: (events (_get_connection self w) ++ ev3)
                                     ++ events y)
                         = Raise (Exc FTPTransferError msg)) as Hgoal.
    { intros e0. destruct (Hhandled e0) as (Hf & Hv & Hmsg). cbv zeta in *.
      run_projections. split; [done|]. split; [|done].
      change (verbs (EvLog ?lvl ?msg :: ?evs)) with (verbs evs).
      by rewrite !verbs_app, Hv, app_nil_r. }
    destruct r3 as [[]|e']; apply Hgoal.
  - intros e Hopen Hsize.
    assert (∃ w2, (download_stream remote_file_path local_file_path progress_callback
                     conn;; download_check remote_file_path local_file_path) w1
                  = (Raise e, w2, [EvCall (Size conn remote_file_path)]) ∧
                  files w2 !! local_file_path = Some [])
      as (w2 & Hblock & Hlocal).
    { set (opened := {| connection_pool := connection_pool w1;
                        next_conn := next_conn w1; env := env w1;
                        files := <[local_file_path:=[]]> (files w1) |}).
      destruct (sys (Size conn remote_file_path) opened) as [[r w2] ev2] eqn:Hsys.
      assert (r = Raise e ∧ ev2 = [EvCall (Size conn remote_file_path)] ∧
              files w2 = files opened) as (-> & -> & Hkeep).
      { unfold sys in *. change (env opened) with (env w1) in Hsys.
        destruct (respond _ (Size conn remote_file_path) (env w1)) as [r' env1].
        run_projections_in Hsize. by simplify_eq. }
      exists w2. split.
      - apply run_bind_raise. rewrite run_download_stream, Hopen. cbv zeta.
        fold opened. by rewrite (run_bind_raise _ _ _ _ _ _ Hsys).
      - rewrite Hkeep. simpl. by rewrite lookup_insert_eq. }
    rewrite run_download_file_body. cbv zeta.
    rewrite (ftp_connection_with_block self auto_release _ w conn _ _ _ Hacq Hblock).
    pose proof (release_connection_spec self conn auto_release w2)
      as (_ & Hfiles & _).
    cbv zeta in *.
    destruct (_release_connection self conn auto_release w2) as [[r3 w3] ev3].
    unfold final in Hfiles. cbn [fst snd] in Hfiles.
    assert (∀ e0, let y := download_handlers remote_file_path e0 w3 in
                  files (final y) !! local_file_path = Some [] ∧
                  ∃ msg, outcome y = Raise (Exc FTPTransferError msg)) as Hhandled.
    { intros e0. destruct (download_handlers_raise remote_file_path e0 w3)
        as (msg & Hmsg & Hkeep).
      cbv zeta. rewrite Hkeep, Hfiles. eauto. }
    destruct r3 as [[]|e']; apply Hhandled.
Qed.

Lemma download_stream_with_callback remote_file_path local_file_path f conn w :
  let x := download_stream remote_file_path local_file_path (Some f) conn w in
  outcome x = Ok tt → files (final x) !! local_file_path = Some [].
Proof.
  cbv zeta. rewrite run_download_stream.
  destruct (open_error local_file_path); [done|]. cbv zeta.
  unfold retrbinary, sys.
  unfold mbind, M_bind, mret, M_ret, raise. simpl.
  destruct (respond _ (Size conn remote_file_path) (env w)) as [[size|e] env1];
    simpl; [|done].
  destruct (respond _ (Retrbinary conn _) env1) as [[[blocks failure]|e] env2];
    simpl; [|done].
  destruct blocks as [|block blocks]; simpl.
  - destruct failure; simpl; [done|]. intros _. by rewrite lookup_insert_eq.
  - unfold download_callback, file_write, get_files, set_files, raise.
    unfold mbind, M_bind. simpl. done.
Qed.

(** X11.  [download_file] called with a progress callback never returns
    normally: the nested function that wraps the callback calls itself
    instead of it, so the first block received ends the transfer with
    [TypeError], and a transfer without blocks ends with the error of the
    empty file. *)
Theorem download_with_callback_never_returns self remote_file_path local_file_path
    f (auto_release : bool) w :
  outcome (download_file self remote_file_path local_file_path (Some f)
             auto_release w) ≠ Ok tt.
Proof.
  unfold download_file.
  destruct (Retrying_call_last retry_operation
              (download_file_body self remote_file_path local_file_path (Some f)
                 auto_release) (λ _, True) w) as (w0 & _ & -> & _); [done..|].
  rewrite run_download_file_body. cbv zeta.
  destruct (outcome (ftp_connection _ _ _ w0)) as [[]|e] eqn:Hblock.
  - exfalso. revert Hblock. rewrite run_ftp_connection. cbv zeta.
    destruct (outcome (_get_connection self w0)) as [conn|e]; [|done].
    rewrite run_bind.
    pose proof (download_stream_with_callback remote_file_path local_file_path f
                  conn (final (_get_connection self w0))) as Hempty.
    cbv zeta in Hempty.
    destruct (download_stream _ _ (Some f) conn _) as [[[[]|e2] w2] ev2].
    + rewrite run_download_check. projections. rewrite Hempty by done. simpl.
      by destruct ((_release_connection self conn auto_release w2).1.1).
    + projections. by destruct ((_release_connection self conn auto_release w2).1.1).
  - destruct (download_handlers_raise remote_file_path e
                (final (ftp_connection self auto_release (λ ftp,
                   download_stream remote_file_path local_file_path (Some f) ftp;;
                   download_check remote_file_path local_file_path) w0)))
      as (msg & Hmsg & _).
    unfold outcome at 1. cbn [fst snd]. by rewrite Hmsg.
Qed.

Lemma stored_app evs1 evs2 : stored (evs1 ++ evs2) = stored evs1 ++ stored evs2.
Proof. apply omap_app. Qed.

Lemma create_connection_stored self w : stored (events (_create_connection self w)) = [].
Proof.
  apply Retrying_call_omap_nil; [done|]. intros w'.
  unfold _create_connection_body, try_except, new_FTP, sys.
  unfold mbind, M_bind, try_, mret, M_ret, raise, log. simpl.
  run_cases; done.
Qed.

Lemma get_connection_stored self w : stored (events (_get_connection self w)) = [].
Proof.
  rewrite run_get_connection.
  destruct (reverse (connection_pool w)) as [|c0 rest];
    [apply create_connection_stored|].
  cbv zeta. destruct (outcome (sys (Voidcmd c0 "NOOP") _)); [done|].
  unfold events at 1. cbn [snd]. apply create_connection_stored.
Qed.

Lemma release_connection_stored self conn (auto_release : bool) w :
  stored (events (_release_connection self conn auto_release w)) = [].
Proof.
  pose proof (release_connection_spec self conn auto_release w) as (_ & _ & Hrel).
  cbv zeta in Hrel. destruct auto_release; [|by rewrite Hrel].
  destruct (_ <? _); [by destruct Hrel as (_ & _ & ->)|by destruct Hrel as (_ & ->)].
Qed.

(** An invariant of the invocations is an invariant of the call, and a
    projection of the events that sees no sleep and nothing in an
    invocation from a world of the invariant sees nothing in the call. *)
Lemma Retrying_call_invariant {A X} (p : Retrying) (fn : M A)
    (P : World (Env:=Env) → Prop) (f : event → option X) w :
  (∀ ms, f (EvSleep ms) = None) →
  (∀ w', P w' → P (final (fn w')) ∧ omap f (events (fn w')) = []) →
  P w →
  omap f (events (Retrying_call p fn w)) = [].
Proof.
  intros Hsleep Hfn.
  destruct (Retrying_loop_total p fn (stop_max_attempt_number p - 1) 1 w)
    as (earlier & last & Hx).
  rewrite (run_Retrying_call p fn w earlier last Hx).
  unfold events at 1. cbn [snd]. clear earlier last Hx. unfold Retrying_attempts.
  generalize (stop_max_attempt_number p - 1)%nat as budget.
  generalize 1%nat as n. intros n budget. revert w n.
  induction budget as [|budget IH]; intros w n HP.
  - rewrite Retrying_loop_stops. by apply Hfn.
  - destruct (Hfn w HP) as [HP' Hev].
    destruct (outcome (fn w)) as [a|e] eqn:Hout.
    + by rewrite (Retrying_loop_returns p fn (S budget) n w a Hout).
    + destruct (retry_on_exception p e) eqn:Hrej.
      * destruct (Retrying_loop_retries p fn budget n w e Hout Hrej)
          as (earlier & last & _ & ->).
        unfold events at 1. cbn [snd]. rewrite omap_app, Hev.
        cbn [omap list_omap app]. rewrite Hsleep. by apply IH.
      * simpl. rewrite run_bind, run_try. cbn beta iota.
        unfold should_reject. simpl. rewrite Hout, Hrej. simpl.
        unfold events at 1. simpl. by rewrite app_nil_r.
Qed.

Lemma missing_upload_invocation self local_file_path remote_file_path
    progress_callback (auto_release : bool) w :
  files w !! local_file_path = None →
  let x := upload_file_body self local_file_path remote_file_path
             progress_callback auto_release w in
  files (final x) !! local_file_path = None ∧
  (∃ e, outcome x = Raise e) ∧ stored (events x) = [].
Proof.
  intros Hmissing. cbv zeta. unfold upload_file_body. rewrite run_log_bind.
  pose proof (get_connection_spec self w) as (_ & Hfiles & _). cbv zeta in Hfiles.
  pose proof (get_connection_stored self w) as Hacquired.
  destruct (outcome (_get_connection self w)) as [conn|e] eqn:Hacq.
  2:{ rewrite (ftp_connection_without_session self auto_release _ w e Hacq).
      destruct (_get_connection self w) as [[rg wg] evg].
      unfold outcome, final, events in *. cbn [fst snd] in *.
      change (stored (EvLog ?lvl ?msg :: ?evs)) with (stored evs).
      rewrite Hfiles. eauto. }
  set (w1 := final (_get_connection self w)) in *.
  match goal with |- context [ftp_connection self auto_release ?b w] =>
    assert (∃ e, b conn w1
                 = (Raise e, w1,
                    [EvLog WARNING ("Retry attempt for file upload: "
                                    +:+ local_file_path)])) as [e Hblock] end.
  { unfold try_except, read_file, get_files, log, raise, try_.
    unfold mbind, M_bind, mret, M_ret. simpl. rewrite Hfiles, Hmissing. simpl.
    eauto. }
  rewrite (ftp_connection_with_block self auto_release _ w conn _ _ _ Hacq Hblock).
  pose proof (release_connection_spec self conn auto_release w1) as (_ & Hkeep & _).
  pose proof (release_connection_stored self conn auto_release w1) as Hreleased.
  cbv zeta in *. clear Hblock.
  destruct (_release_connection self conn auto_release w1) as [[r3 w3] ev3].
  unfold outcome, final, events in *. cbn [fst snd] in *.
  change (stored (EvLog ?lvl ?msg :: ?evs)) with (stored evs).
  rewrite !stored_app, Hacquired, Hreleased, Hkeep, Hfiles.
  split; [done|]. split; [|done]. destruct r3; eauto.
Qed.

(** X12.  [upload_file] opens the local file only after it has taken a
    session, and inside the decorated function: an upload of a local file
    that does not exist is attempted five times, sends no [STOR] and ends
    with an exception. *)
Theorem upload_of_missing_file self local_file_path remote_file_path
    progress_callback (auto_release : bool) w :
  files w !! local_file_path = None →
  invocations retry_operation
    (upload_file_body self local_file_path remote_file_path progress_callback
       auto_release) w = 5%nat ∧
  (∃ e, outcome (upload_file self local_file_path remote_file_path
                   progress_callback auto_release w) = Raise e) ∧
  stored (events (upload_file self local_file_path remote_file_path
                    progress_callback auto_release w)) = [].
Proof.
  intros Hmissing.
  apply (Retrying_call_raising_under _ (λ w', files w' !! local_file_path = None));
    [done| |done].
  intros w' Hw'. by apply missing_upload_invocation.
Qed.

Lemma run_read_file path w content :
  files w !! path = Some content → read_file path w = (Ok content, w, []).
Proof.
  intros Hpath. unfold read_file. rewrite run_bind. unfold get_files at 1.
  cbn beta iota. by rewrite Hpath.
Qed.

(** An invocation that returns ends the call of the decorator. *)
Lemma Retrying_call_returns {A} (p : Retrying) (fn : M A) w a :
  outcome (fn w) = Ok a →
  Retrying_call p fn w = (Ok a, final (fn w), events (fn w)).
Proof.
  intros Hfn.
  pose proof (Retrying_loop_returns p fn (stop_max_attempt_number p - 1) 1 w a Hfn)
    as Hloop.
  rewrite (run_Retrying_call p fn w [] {| value := Ok a; attempt_number := 1 |})
    by (unfold Retrying_attempts; by rewrite Hloop).
  unfold Retrying_attempts. by rewrite Hloop.
Qed.

Lemma blocks_of_concat fuel data :
  (length data ≤ fuel)%nat → concat (blocks_of fuel data) = data.
Proof.
  revert data. induction fuel as [|fuel IH]; intros data Hlen.
  - destruct data; [done|simpl in Hlen; lia].
  - destruct data as [|b data]; [done|].
    cbn [blocks_of concat]. rewrite IH, take_drop; [done|].
    rewrite length_drop. unfold blocksize. simpl in Hlen. simpl length. lia.
Qed.

Lemma read_blocks_concat data : concat (read_blocks data) = data.
Proof. by apply blocks_of_concat. Qed.

Lemma send_blocks_silent sent blocks w :
  send_blocks None (λ _, mret tt) sent blocks w = (Ok tt, w, []).
Proof.
  revert sent. induction blocks as [|block blocks IH]; intros sent; [done|].
  cbn [send_blocks]. rewrite run_bind. unfold mret at 1, M_ret at 1.
  cbn beta iota. rewrite IH. done.
Qed.

(** X13.  An upload that the server accepts is one invocation with one
    [STOR]: with a session acquired, room in the pool and no failure
    reported for the transfer, [upload_file] returns, and the one upload of
    the run carries exactly the bytes of the local file, in blocks, on the
    acquired session. *)
Theorem upload_sends_the_file self local_file_path remote_file_path
    (auto_release : bool) w conn data env1 :
  let acquired := _get_connection self w in
  let op := upload_file self local_file_path remote_file_path None auto_release in
  outcome acquired = Ok conn →
  files w !! local_file_path = Some data →
  respond _ (Storbinary conn ("STOR " +:+ remote_file_path) (read_blocks data))
    (env (final acquired)) = (Ok None, env1) →
  Z.of_nat (length (connection_pool (final acquired))) < max_connections self →
  outcome (op w) = Ok tt ∧
  stored (events (op w)) = [(conn, "STOR " +:+ remote_file_path, data)].
Proof.
  simpl. intros Hacq Hlocal Hstor Hcap.
  set (w1 := final (_get_connection self w)) in *.
  pose proof (get_connection_spec self w) as (_ & Hfiles & _). cbv zeta in Hfiles.
  fold w1 in Hfiles.
  set (w2 := {| connection_pool := connection_pool w1; next_conn := next_conn w1;
                env := env1; files := files w1 |}).
  assert (upload_file_body self local_file_path remote_file_path None auto_release w
          = (Ok tt, final (_release_connection self conn auto_release w2),
             EvLog INFO ("Starting upload of " +:+ local_file_path +:+ " to "
                         +:+ remote_file_path)
             :: events (_get_connection self w) ++
                [EvCall (Storbinary conn ("STOR " +:+ remote_file_path)
                           (read_blocks data));
                 EvLog INFO ("Uploaded: " +:+ local_file_path +:+ " to "
                             +:+ remote_file_path)] ++ [])) as Hbody.
  { unfold upload_file_body. rewrite run_log_bind.
    match goal with |- context [ftp_connection self auto_release ?b w] =>
      assert (b conn w1
              = (Ok tt, w2,
                 [EvCall (Storbinary conn ("STOR " +:+ remote_file_path)
                            (read_blocks data));
                  EvLog INFO ("Uploaded: " +:+ local_file_path +:+ " to "
                              +:+ remote_file_path)])) as Hblock end.
    { rewrite run_try_except.
      match goal with |- context [outcome (?m w1)] =>
        assert (m w1
                = (Ok tt, w2,
                   [EvCall (Storbinary conn ("STOR " +:+ remote_file_path)
                              (read_blocks data));
                    EvLog INFO ("Uploaded: " +:+ local_file_path +:+ " to "
                                +:+ remote_file_path)])) as -> end; [|done].
      assert (read_file local_file_path w1 = (Ok data, w1, [])) as Hread
        by (apply run_read_file; by rewrite Hfiles).
      assert (getsize local_file_path w1 = (Ok (Z.of_nat (length data)), w1, []))
        as Hsize by (unfold getsize; by rewrite (run_bind_ok _ _ _ _ _ _ Hread)).
      assert (storbinary conn ("STOR " +:+ remote_file_path) data (λ _, mret tt) w1
              = (Ok tt, w2,
                 [EvCall (Storbinary conn ("STOR " +:+ remote_file_path)
                            (read_blocks data))])) as Hsend.
      { unfold storbinary. rewrite run_bind. unfold sys at 1. rewrite Hstor.
        cbn beta iota. fold w2.
        by rewrite (send_blocks_silent 0 (read_blocks data) w2). }
      rewrite (run_bind_ok _ _ _ _ _ _ Hread), (run_bind_ok _ _ _ _ _ _ Hsize),
        (run_bind_ok _ _ _ _ _ _ Hsend).
      done. }
    rewrite (ftp_connection_with_block self auto_release _ w conn _ _ _ Hacq Hblock).
    destruct (release_with_room self conn auto_release w2) as (Hok & _ & Hev);
      [done|].
    cbv zeta in *. unfold outcome at 1, final at 1, events at 1. cbn [fst snd].
    by rewrite Hok, Hev. }
  unfold upload_file.
  rewrite (Retrying_call_returns retry_operation _ w tt) by by rewrite Hbody.
  rewrite Hbody. unfold outcome, events, final. cbn [fst snd].
  split; [done|]. rewrite app_nil_r.
  change (stored (EvLog ?lvl ?msg :: ?evs)) with (stored evs).
  rewrite stored_app.
  pose proof (get_connection_stored self w) as Hacquired.
  unfold events in Hacquired. rewrite Hacquired.
  cbn. by rewrite read_blocks_concat.
Qed.

(** ** Directory and file operations *)

Lemma try_except_wraps {A} (m : M A) (msg : exn → string) w e :
  outcome (try_except m (λ e', raise (Exc FTPTransferError (msg e'))) w) = Raise e →
  exc_class e = FTPTransferError.
Proof.
  rewrite run_try_except. destruct (outcome (m w)) as [a|e0]; [done|].
  unfold raise, outcome. cbn [fst snd]. by intros [= <-].
Qed.

(** X14.  [rename_file], [delete_file], [create_directory] and
    [remove_directory] raise [FTPTransferError] and nothing else: a failure
    to connect, a reply of the server and a failure while the session is
    released all reach the caller under that class. *)
Theorem metadata_operations_raise_transfer_error self (auto_release : bool)
    old_remote_path new_remote_path w e :
  (outcome (rename_file self old_remote_path new_remote_path auto_release w) = Raise e →
   exc_class e = FTPTransferError) ∧
  (outcome (delete_file self old_remote_path auto_release w) = Raise e →
   exc_class e = FTPTransferError) ∧
  (outcome (create_directory self old_remote_path auto_release w) = Raise e →
   exc_class e = FTPTransferError) ∧
  (outcome (remove_directory self old_remote_path auto_release w) = Raise e →
   exc_class e = FTPTransferError).
Proof.
  repeat split.
  - apply (Retrying_call_raises _ _ (λ e, exc_class e = FTPTransferError)).
    intros w' e'. apply (try_except_wraps _ (λ e0,
      "Failed to rename file from " +:+ old_remote_path +:+ " to "
      +:+ new_remote_path +:+ ": " +:+ str e0)).
  - apply (Retrying_call_raises _ _ (λ e, exc_class e = FTPTransferError)).
    intros w' e'. apply (try_except_wraps _ (λ e0,
      "Failed to delete file " +:+ old_remote_path +:+ ": " +:+ str e0)).
  - apply (Retrying_call_raises _ _ (λ e, exc_class e = FTPTransferError)).
    intros w' e'. apply (try_except_wraps _ (λ e0,
      "Failed to create directory " +:+ old_remote_path +:+ ": " +:+ str e0)).
  - apply (Retrying_call_raises _ _ (λ e, exc_class e = FTPTransferError)).
    intros w' e'. apply (try_except_wraps _ (λ e0,
      "Failed to remove directory " +:+ old_remote_path +:+ ": " +:+ str e0)).
Qed.

(** X24.  [change_directory] carries no [@retry]: when the server refuses
    the [CWD], the call raises [FTPTransferError] with the reply after that
    one command, without a sleep and without a second attempt. *)
Theorem change_directory_is_not_retried self remote_directory_path
    (auto_release : bool) w conn e :
  let acquired := _get_connection self w in
  let x := change_directory self remote_directory_path auto_release w in
  outcome acquired = Ok conn →
  Z.of_nat (length (connection_pool (final acquired))) < max_connections self →
  outcome (sys (Cwd conn remote_directory_path) (final acquired)) = Raise e →
  outcome x = Raise (Exc FTPTransferError
                       ("Failed to change directory to " +:+ remote_directory_path
                        +:+ ": " +:+ str e)) ∧
  events x = events acquired ++ [EvCall (Cwd conn remote_directory_path)].
Proof.
  cbv zeta. intros Hacq Hcap Hcwd.
  set (w1 := final (_get_connection self w)) in *.
  destruct (sys (Cwd conn remote_directory_path) w1) as [[r w2] ev2] eqn:Hsys.
  run_projections_in Hcwd. subst r.
  assert (connection_pool w2 = connection_pool w1 ∧
          ev2 = [EvCall (Cwd conn remote_directory_path)]) as [Hpool ->].
  { unfold sys in Hsys. destruct (respond _ _ _). by simplify_eq. }
  unfold change_directory. rewrite run_try_except.
  rewrite (ftp_connection_with_block self auto_release _ w conn (Raise e) w2
             [EvCall (Cwd conn remote_directory_path)] Hacq)
    by (by apply run_bind_raise).
  destruct (release_with_room self conn auto_release w2) as (Hok & _ & Hquiet);
    [by rewrite Hpool|].
  cbv zeta in *.
  destruct (_release_connection self conn auto_release w2) as [[r3 w3] ev3].
  run_projections. run_projections_in Hok. run_projections_in Hquiet. subst r3 ev3.
  unfold raise. run_projections. by rewrite !app_nil_r.
Qed.

Lemma list_files_handler_raises remote_path e0 w e :
  outcome (list_files_handler remote_path e0 w) = Raise e →
  isinstance e error_perm = false ∧
  (isinstance e0 error_perm = false → e = e0).
Proof.
  unfold list_files_handler.
  destruct (isinstance e0 error_perm) eqn:Hperm.
  - destruct (startswith (str e0) "550").
    + rewrite run_log_bind. done.
    + unfold raise, outcome. cbn [fst snd]. by intros [= <-].
  - unfold raise, outcome. cbn [fst snd]. by intros [= <-].
Qed.

(** X15.  [list_files] never raises [ftplib.error_perm]: a permanent error
    of the server, wherever in the block it comes from, ends as the empty
    list or as [FTPTransferError].  A failure to acquire a session is not
    wrapped: the invocation raises the [FTPConnectionError] itself. *)
Theorem list_files_raises_no_error_perm self remote_path
    (only_files auto_release : bool) w e :
  (outcome (list_files self remote_path only_files auto_release w) = Raise e →
   isinstance e error_perm = false) ∧
  (outcome (_get_connection self w) = Raise e →
   outcome (list_files_body self remote_path only_files auto_release w) = Raise e).
Proof.
  split.
  - apply (Retrying_call_raises _ _ (λ e, isinstance e error_perm = false)).
    intros w' e'. unfold list_files_body. rewrite run_try_except.
    destruct (outcome (ftp_connection _ _ _ w')) as [a|e0]; [done|].
    cbv zeta. unfold outcome at 1. cbn [fst snd].
    intros Hraise. by apply list_files_handler_raises in Hraise as [? _].
  - intros Hacq. unfold list_files_body.
    rewrite run_try_except,
      (ftp_connection_without_session self auto_release _ w e Hacq).
    unfold outcome at 1 2, final at 1. cbn [fst snd].
    unfold list_files_handler, isinstance.
    rewrite (get_connection_raises self w e Hacq). done.
Qed.

(** X16.  A directory that the server does not list, with a reply that
    starts with 550, is an empty directory to the caller: [list_files]
    returns the empty list at the first invocation and does not retry. *)
Theorem list_files_of_unlisted_directory self remote_path
    (only_files auto_release : bool) w conn e env1 :
  let acquired := _get_connection self w in
  outcome acquired = Ok conn →
  Z.of_nat (length (connection_pool (final acquired))) < max_connections self →
  respond _ (Nlst conn remote_path) (env (final acquired)) = (Raise e, env1) →
  isinstance e error_perm = true → startswith (str e) "550" = true →
  outcome (list_files self remote_path only_files auto_release w) = Ok [] ∧
  invocations retry_operation
    (list_files_body self remote_path only_files auto_release) w = 1%nat.
Proof.
  simpl. intros Hacq Hcap Hnlst Hperm H550.
  set (w1 := final (_get_connection self w)) in *.
  set (w2 := {| connection_pool := connection_pool w1; next_conn := next_conn w1;
                env := env1; files := files w1 |}).
  assert (list_files_block remote_path only_files conn w1
          = (Raise e, w2, [EvCall (Nlst conn remote_path)])) as Hblock.
  { unfold list_files_block. rewrite run_bind. unfold sys at 1. by rewrite Hnlst. }
  assert (outcome (list_files_body self remote_path only_files auto_release w) = Ok [])
    as Hbody.
  { unfold list_files_body.
    rewrite run_try_except,
      (ftp_connection_with_block self auto_release _ w conn _ _ _ Hacq Hblock).
    destruct (release_with_room self conn auto_release w2) as (Hok & _ & _);
      [done|].
    cbv zeta in *. unfold outcome at 1 2. cbn [fst snd]. rewrite Hok.
    unfold list_files_handler. rewrite Hperm, H550, run_log_bind. done. }
  split.
  - unfold list_files. by rewrite (Retrying_call_returns retry_operation _ w [] Hbody).
  - apply invocations_retry_operation. eauto.
Qed.

Lemma run_is_directory ftp item current (is_dir : string → bool)
    (denied : string → exn) w :
  (∀ env', respond _ (Sendcmd ftp "PWD") env' = (Ok current, env')) →
  (∀ env' path, respond _ (Cwd ftp path) env'
                = (if is_dir path then Ok tt else Raise (denied path), env')) →
  (∀ path, isinstance (denied path) error_perm = true) →
  is_dir current = true →
  ∃ evs, _is_directory ftp item w = (Ok (is_dir item), w, evs).
Proof.
  intros Hpwd Hcwd Hdenied Hcurrent.
  unfold _is_directory, pwd, try_except, try_, sys.
  unfold mbind, M_bind, mret, M_ret, raise. simpl.
  rewrite Hpwd. simpl. rewrite Hcwd. destruct (is_dir item) eqn:Hitem; simpl.
  - rewrite Hcwd, Hcurrent. simpl. destruct w. eauto.
  - rewrite Hdenied. simpl. destruct w. eauto.
Qed.

Lemma run_only_files_of ftp names current (is_dir : string → bool)
    (denied : string → exn) w :
  (∀ env', respond _ (Sendcmd ftp "PWD") env' = (Ok current, env')) →
  (∀ env' path, respond _ (Cwd ftp path) env'
                = (if is_dir path then Ok tt else Raise (denied path), env')) →
  (∀ path, isinstance (denied path) error_perm = true) →
  is_dir current = true →
  ∃ evs, only_files_of ftp names w
         = (Ok (filter (λ f, is_dir f = false) names), w, evs).
Proof.
  intros Hpwd Hcwd Hdenied Hcurrent.
  induction names as [|f names [evs IH]]; [by exists []|].
  destruct (run_is_directory ftp f current is_dir denied w) as [evs1 Hf]; [done..|].
  cbn [only_files_of]. rewrite (run_bind_ok _ _ _ _ _ _ Hf), (run_bind_ok _ _ _ _ _ _ IH).
  unfold mret, M_ret, outcome, final, events. cbn [fst snd].
  rewrite filter_cons. destruct (is_dir f); eexists; done.
Qed.

(** X17.  With [only_files], [list_files] returns the names of the listing
    that are not directories, in the order of the listing: for a server
    that answers [PWD] and answers [CWD] by what the path is, whatever
    happened before on the session. *)
Theorem list_files_keeps_the_files self remote_path (auto_release : bool) w conn
    names env1 current (is_dir : string → bool) (denied : string → exn) :
  let acquired := _get_connection self w in
  outcome acquired = Ok conn →
  Z.of_nat (length (connection_pool (final acquired))) < max_connections self →
  respond _ (Nlst conn remote_path) (env (final acquired)) = (Ok names, env1) →
  (∀ env', respond _ (Sendcmd conn "PWD") env' = (Ok current, env')) →
  (∀ env' path, respond _ (Cwd conn path) env'
                = (if is_dir path then Ok tt else Raise (denied path), env')) →
  (∀ path, isinstance (denied path) error_perm = true) →
  is_dir current = true →
  outcome (list_files self remote_path true auto_release w)
    = Ok (filter (λ f, is_dir f = false) names).
Proof.
  simpl. intros Hacq Hcap Hnlst Hpwd Hcwd Hdenied Hcurrent.
  set (w1 := final (_get_connection self w)) in *.
  set (w2 := {| connection_pool := connection_pool w1; next_conn := next_conn w1;
                env := env1; files := files w1 |}).
  destruct (run_only_files_of conn names current is_dir denied w2) as [evs Hkept];
    [done..|].
  assert (∃ evs', list_files_block remote_path true conn w1
                  = (Ok (filter (λ f, is_dir f = false) names), w2, evs'))
    as [evs' Hblock].
  { unfold list_files_block. rewrite run_bind. unfold sys at 1. rewrite Hnlst.
    cbn beta iota. fold w2. rewrite Hkept. eauto. }
  assert (outcome (list_files_body self remote_path true auto_release w)
          = Ok (filter (λ f, is_dir f = false) names)) as Hbody.
  { unfold list_files_body.
    rewrite run_try_except,
      (ftp_connection_with_block self auto_release _ w conn _ _ _ Hacq Hblock).
    destruct (release_with_room self conn auto_release w2) as (Hok & _ & _);
      [done|].
    cbv zeta in *. unfold outcome at 1 2. cbn [fst snd]. by rewrite Hok. }
  unfold list_files. by rewrite (Retrying_call_returns retry_operation _ w _ Hbody).
Qed.

(** X18.  [directory_exists] answers [False] for a permanent error only:
    when no session can be acquired it raises, where [check_file_exists]
    answers [False]; with a session, it answers by the reply to [CWD], and
    an error of another class than [error_perm] is raised to the caller. *)
Theorem directory_exists_answers self remote_path (auto_release : bool) w :
  let acquired := _get_connection self w in
  let x := directory_exists self remote_path auto_release w in
  match outcome acquired with
  | Raise e => outcome x = Raise e
  | Ok conn =>
      Z.of_nat (length (connection_pool (final acquired))) < max_connections self →
      outcome x =
      match outcome (sys (Cwd conn remote_path) (final acquired)) with
      | Ok _ => Ok true
      | Raise e => if isinstance e error_perm then Ok false else Raise e
      end
  end.
Proof.
  cbv zeta. unfold directory_exists. rewrite run_try_except.
  destruct (outcome (_get_connection self w)) as [conn|e] eqn:Hacq.
  - intros Hcap.
    set (w1 := final (_get_connection self w)) in *.
    destruct (sys (Cwd conn remote_path) w1) as [[r w2] ev2] eqn:Hcwd.
    assert (connection_pool w2 = connection_pool w1) as Hpool.
    { unfold sys in Hcwd. destruct (respond _ _ _). by simplify_eq. }
    assert ((sys (Cwd conn remote_path);; mret true) w1
            = (match r with Ok _ => Ok true | Raise e => Raise e end, w2,
               ev2 ++ match r with Ok _ => [] | Raise _ => [] end)) as Hblock.
    { rewrite run_bind, Hcwd. destruct r; [done|by rewrite app_nil_r]. }
    rewrite (ftp_connection_with_block self auto_release _ w conn _ _ _ Hacq Hblock).
    destruct (release_with_room self conn auto_release w2) as (Hok & _ & _);
      [by rewrite Hpool|].
    cbv zeta in *.
    destruct (_release_connection self conn auto_release w2) as [[r3 w3] ev3].
    unfold outcome, final, events in *. cbn [fst snd] in *. subst r3.
    destruct r as [[]|e]; cbn [fst snd]; [done|].
    unfold mret, M_ret, raise. by destruct (isinstance e error_perm).
  - rewrite (ftp_connection_without_session self auto_release _ w e Hacq).
    unfold outcome at 1 2. cbn [fst snd]. unfold isinstance.
    by rewrite (get_connection_raises self w e Hacq).
Qed.

(** ** Sessions that [move_file] takes and does not give back *)

Lemma closes_nothing_ret {A} (a : A) : closes_nothing (Env:=Env) (mret a).
Proof. done. Qed.

Lemma closes_nothing_raise {A} e : closes_nothing (Env:=Env) (raise (A:=A) e).
Proof. done. Qed.

Lemma closes_nothing_log lvl msg : closes_nothing (Env:=Env) (log lvl msg).
Proof. done. Qed.

Lemma closes_nothing_sys {A} (c : call A) :
  quits [EvCall c] = [] → closes_nothing (Env:=Env) (sys c).
Proof.
  intros Hc w. unfold sys. by destruct (respond A c (env w)) as [r env'].
Qed.

Lemma closes_nothing_bind {A B} (m : M A) (f : A → M B) :
  closes_nothing (Env:=Env) m → (∀ a, closes_nothing (Env:=Env) (f a)) →
  closes_nothing (Env:=Env) (m ≫= f).
Proof.
  intros Hm Hf w. rewrite run_bind. destruct (Hm w) as [Hlen Hev].
  destruct (m w) as [[[a|e] w1] ev1]; [|done].
  destruct (Hf a w1) as [Hlen' Hev'].
  destruct (f a w1) as [[r w2] ev2].
  unfold final, events in *. cbn [fst snd] in *.
  split; [lia|]. by rewrite quits_app, Hev, Hev'.
Qed.

Lemma closes_nothing_try {A} (m : M A) :
  closes_nothing (Env:=Env) m → closes_nothing (Env:=Env) (try_ m).
Proof. intros Hm w. rewrite run_try. apply Hm. Qed.

Lemma closes_nothing_try_except {A} (m : M A) (handler : exn → M A) :
  closes_nothing (Env:=Env) m → (∀ e, closes_nothing (Env:=Env) (handler e)) →
  closes_nothing (Env:=Env) (try_except m handler).
Proof.
  intros Hm Hh. unfold try_except. apply closes_nothing_bind.
  - by apply closes_nothing_try.
  - intros [a|e]; [apply closes_nothing_ret|apply Hh].
Qed.

Lemma closes_nothing_Retrying_call {A} (p : Retrying) (fn : M A) :
  closes_nothing (Env:=Env) fn → closes_nothing (Env:=Env) (Retrying_call p fn).
Proof.
  intros Hfn w. split.
  - destruct (Retrying_call_last p fn
                (λ w', (length (connection_pool w') ≤ length (connection_pool w))%nat) w)
      as (w0 & Hw0 & _ & ->); [|done|].
    + intros w' Hw'. destruct (Hfn w') as [Hlen _]. lia.
    + destruct (Hfn w0) as [Hlen _]. lia.
  - apply Retrying_call_omap_nil; [done|]. intros w'. apply Hfn.
Qed.

Lemma takes_a_session_closes_nothing {A} (m : M A) :
  takes_a_session (Env:=Env) m → closes_nothing (Env:=Env) m.
Proof. intros Hm w. destruct (Hm w) as [Hlen Hev]. split; [lia|done]. Qed.

Lemma takes_a_session_bind {A B} (m : M A) (f : A → M B) :
  takes_a_session (Env:=Env) m → (∀ a, closes_nothing (Env:=Env) (f a)) →
  takes_a_session (Env:=Env) (m ≫= f).
Proof.
  intros Hm Hf w. rewrite run_bind. destruct (Hm w) as [Hlen Hev].
  destruct (m w) as [[[a|e] w1] ev1]; [|done].
  destruct (Hf a w1) as [Hlen' Hev'].
  destruct (f a w1) as [[r w2] ev2].
  unfold final, events in *. cbn [fst snd] in *.
  split; [lia|]. by rewrite quits_app, Hev, Hev'.
Qed.

Lemma takes_a_session_try {A} (m : M A) :
  takes_a_session (Env:=Env) m → takes_a_session (Env:=Env) (try_ m).
Proof. intros Hm w. rewrite run_try. apply Hm. Qed.

Lemma takes_a_session_try_except {A} (m : M A) (handler : exn → M A) :
  takes_a_session (Env:=Env) m → (∀ e, closes_nothing (Env:=Env) (handler e)) →
  takes_a_session (Env:=Env) (try_except m handler).
Proof.
  intros Hm Hh. unfold try_except. apply takes_a_session_bind.
  - by apply takes_a_session_try.
  - intros [a|e]; [apply closes_nothing_ret|apply Hh].
Qed.

Lemma get_connection_takes_a_session self :
  takes_a_session (Env:=Env) (_get_connection self).
Proof.
  intros w. rewrite run_get_connection.
  destruct (reverse (connection_pool w)) as [|c0 rest] eqn:Hpool.
  - pose proof (create_connection_spec self w) as (-> & _).
    split; [|apply create_connection_quits].
    apply (f_equal reverse) in Hpool. rewrite reverse_involutive in Hpool.
    by rewrite Hpool.
  - apply (f_equal reverse) in Hpool. rewrite reverse_involutive in Hpool.
    rewrite Hpool, reverse_cons, length_app. cbv zeta.
    unfold sys. cbn [env connection_pool next_conn files].
    destruct (respond _ (Voidcmd c0 "NOOP") (env w)) as [[[]|e] env'];
      unfold outcome at 1, final at 1, events at 1;
      cbn [outcome final events fst snd connection_pool].
    + rewrite length_reverse. split; [simpl; lia|done].
    + match goal with |- context [_create_connection self ?w0] =>
        pose proof (create_connection_spec self w0) as (Hkeep & _);
        pose proof (create_connection_quits self w0) as Hq end.
      cbv zeta in Hkeep. rewrite Hkeep. cbn [connection_pool].
      rewrite length_reverse. split; [simpl; lia|done].
Qed.

Lemma ftp_connection_takes_a_session {A} self (body : Conn → M A) :
  (∀ conn, closes_nothing (Env:=Env) (body conn)) →
  takes_a_session (Env:=Env) (ftp_connection self false body).
Proof.
  intros Hbody w. rewrite run_ftp_connection. cbv zeta.
  destruct (get_connection_takes_a_session self w) as [Hlen Hev].
  destruct (outcome (_get_connection self w)) as [conn|e]; [|done].
  destruct (Hbody conn (final (_get_connection self w))) as [Hlen' Hev'].
  pose proof (release_connection_spec self conn false
                (final (body conn (final (_get_connection self w))))) as (_ & _ & ->).
  run_projections. split; [lia|].
  by rewrite !quits_app, Hev, Hev'.
Qed.

Lemma directory_exists_takes_a_session self remote_path :
  takes_a_session (Env:=Env) (directory_exists self remote_path false).
Proof.
  apply takes_a_session_try_except.
  - apply ftp_connection_takes_a_session. intros conn.
    apply closes_nothing_bind; [by apply closes_nothing_sys|].
    intros _. apply closes_nothing_ret.
  - intros e. destruct (isinstance e error_perm);
      [apply closes_nothing_ret|apply closes_nothing_raise].
Qed.

Lemma check_file_exists_takes_a_session self remote_file_path :
  takes_a_session (Env:=Env) (check_file_exists self remote_file_path false).
Proof.
  apply takes_a_session_try_except.
  - apply ftp_connection_takes_a_session. intros conn.
    apply closes_nothing_bind; [by apply closes_nothing_sys|].
    intros names. apply closes_nothing_ret.
  - intros e. apply closes_nothing_bind; [apply closes_nothing_log|].
    intros _. apply closes_nothing_ret.
Qed.

Lemma create_directory_closes_nothing self remote_directory_path :
  closes_nothing (Env:=Env) (create_directory self remote_directory_path false).
Proof.
  apply closes_nothing_Retrying_call, closes_nothing_try_except.
  - apply takes_a_session_closes_nothing, ftp_connection_takes_a_session.
    intros conn. apply closes_nothing_bind; [by apply closes_nothing_sys|].
    intros _. apply closes_nothing_log.
  - intros e. apply closes_nothing_raise.
Qed.

Lemma move_file_block_takes_a_session self src_remote_path dest_remote_directory
    (overwrite : bool) conn :
  takes_a_session
    (move_file_block self src_remote_path dest_remote_directory overwrite conn).
Proof.
  unfold move_file_block. apply takes_a_session_bind.
  - apply takes_a_session_try. unfold ensure_directory.
    apply takes_a_session_bind; [apply directory_exists_takes_a_session|].
    intros [|]; cbn [negb]; [apply closes_nothing_ret|].
    apply closes_nothing_bind; [apply create_directory_closes_nothing|].
    intros _. apply closes_nothing_log.
  - intros [[]|e]; [|apply closes_nothing_ret].
    apply closes_nothing_bind; [|intros moved; apply closes_nothing_ret].
    apply closes_nothing_try, closes_nothing_bind.
    + apply takes_a_session_closes_nothing, check_file_exists_takes_a_session.
    + intros dest_exists. apply closes_nothing_bind.
      * destruct dest_exists; [|apply closes_nothing_ret].
        destruct overwrite; [|apply closes_nothing_raise].
        apply closes_nothing_try_except.
        -- apply closes_nothing_bind; [by apply closes_nothing_sys|].
           intros _. apply closes_nothing_log.
        -- intros e. destruct (isinstance e error_perm); apply closes_nothing_raise.
      * intros _. apply closes_nothing_bind; [by apply closes_nothing_sys|].
        intros _. apply closes_nothing_log.
Qed.

Lemma move_file_handlers_raise src_remote_path dest_remote_directory
    dest_remote_path e w :
  ∃ e', move_file_handlers src_remote_path dest_remote_directory dest_remote_path e w
        = (Raise e', w, []).
Proof.
  unfold move_file_handlers, raise.
  destruct (isinstance e error_perm); [|eauto].
  destruct (contains "550" (str e)); [|eauto].
  destruct (contains "already exists" (lower (str e))); [|eauto].
  destruct dest_remote_path; eauto.
Qed.

Lemma move_file_body_pool self src_remote_path dest_remote_directory
    (auto_release overwrite : bool) w :
  let x := move_file_body self src_remote_path dest_remote_directory
             auto_release overwrite w in
  (length (connection_pool (final x))
   ≤ Nat.max 1 (pred (length (connection_pool w))))%nat ∧
  (Z.of_nat (length (connection_pool w)) ≤ max_connections self →
   0 < max_connections self → quits (events x) = []).
Proof.
  cbv zeta.
  pose proof (move_file_body_with_block self src_remote_path dest_remote_directory
                auto_release overwrite w) as Hbody. cbv zeta in Hbody.
  set (block := λ ftp : Conn,
         ended ← move_file_block self src_remote_path dest_remote_directory
                   overwrite ftp;
         lift_result ended.1) in *.
  assert (∀ conn, takes_a_session (Env:=Env) (block conn)) as Hblock.
  { intros conn. apply takes_a_session_bind;
      [apply move_file_block_takes_a_session|].
    intros [[[]|e] dest]; [apply closes_nothing_ret|apply closes_nothing_raise]. }
  assert (let x := ftp_connection self auto_release block w in
          (length (connection_pool (final x))
           ≤ Nat.max 1 (pred (length (connection_pool w))))%nat ∧
          (Z.of_nat (length (connection_pool w)) ≤ max_connections self →
           0 < max_connections self → quits (events x) = [])) as Hx.
  { cbv zeta. rewrite run_ftp_connection. cbv zeta.
    destruct (get_connection_takes_a_session self w) as [Hlen Hev].
    destruct (outcome (_get_connection self w)) as [conn|e].
    2:{ run_projections. split; [lia|done]. }
    destruct (Hblock conn (final (_get_connection self w))) as [Hlen' Hev'].
    pose proof (release_connection_spec self conn auto_release
                  (final (block conn (final (_get_connection self w)))))
      as (_ & _ & Hrel).
    cbv zeta in Hrel. run_projections.
    rewrite !quits_app, Hev, Hev'. cbn [app].
    destruct auto_release.
    - destruct (Z.ltb_spec
                  (Z.of_nat (length (connection_pool
                     (final (block conn (final (_get_connection self w)))))))
                  (max_connections self)) as [Hroom|Hfull].
      + destruct Hrel as (_ & -> & ->). rewrite length_app. cbn [length].
        split; [lia|done].
      + destruct Hrel as (-> & _). split; [lia|]. lia.
    - rewrite Hrel. run_projections. split; [lia|done]. }
  cbv zeta in Hx.
  destruct (outcome (ftp_connection self auto_release block w)) as [[]|e].
  - rewrite Hbody. by run_projections.
  - destruct Hbody as (dest & Hbody).
    destruct (move_file_handlers_raise src_remote_path dest_remote_directory dest e
                (final (ftp_connection self auto_release block w))) as [e' Hraise].
    cbv zeta in Hbody. rewrite Hraise in Hbody. rewrite Hbody.
    run_projections. by rewrite app_nil_r.
Qed.

(** X19.  Every call of [move_file] takes sessions out of the pool that it
    does not give back and does not close: [directory_exists] and
    [check_file_exists] are called with [auto_release=False], which takes
    one idle session each.  With two or more idle sessions, in a pool
    within its capacity, the pool is shorter after the call than before
    and no [QUIT] was sent. *)
Theorem move_file_drains_the_pool self src_remote_path dest_remote_directory
    (auto_release overwrite : bool) w :
  let x := move_file self src_remote_path dest_remote_directory
             auto_release overwrite w in
  (2 ≤ length (connection_pool w))%nat →
  Z.of_nat (length (connection_pool w)) ≤ max_connections self →
  (length (connection_pool (final x)) < length (connection_pool w))%nat ∧
  quits (events x) = [].
Proof.
  cbv zeta. intros Htwo Hcap. unfold move_file. split.
  - destruct (Retrying_call_last retry_operation
                (move_file_body self src_remote_path dest_remote_directory
                   auto_release overwrite)
                (λ w', (length (connection_pool w') ≤ length (connection_pool w))%nat) w)
      as (w0 & Hw0 & _ & ->); [|done|].
    + intros w' Hw'.
      pose proof (move_file_body_pool self src_remote_path dest_remote_directory
                    auto_release overwrite w') as (Hlen & _). cbv zeta in Hlen. lia.
    + pose proof (move_file_body_pool self src_remote_path dest_remote_directory
                    auto_release overwrite w0) as (Hlen & _).
      cbv zeta in *. lia.
  - apply (Retrying_call_invariant retry_operation _
             (λ w', (length (connection_pool w') ≤ length (connection_pool w))%nat));
      [done| |done].
    intros w' Hw'.
    pose proof (move_file_body_pool self src_remote_path dest_remote_directory
                  auto_release overwrite w') as (Hlen & Hquiet).
    cbv zeta in *. split; [lia|]. apply Hquiet; lia.
Qed.

Lemma move_file_handlers_with_destination src_remote_path dest_remote_directory
    dest e w :
  ∃ msg, move_file_handlers src_remote_path dest_remote_directory (Some dest) e w
         = (Raise (Exc FTPTransferError msg), w, []).
Proof.
  unfold move_file_handlers, raise.
  destruct (isinstance e error_perm); [|eauto].
  destruct (contains "550" (str e)); [|eauto].
  destruct (contains "already exists" (lower (str e))); eauto.
Qed.

Lemma run_bind_raises {A B} (m : M A) (f : A → M B) w e w1 ev1 :
  m w = (Raise e, w1, ev1) → (m ≫= f) w = (Raise e, w1, ev1).
Proof. apply run_bind_raise. Qed.

(** X20.  Overwriting is not atomic: with [overwrite] and a file at the
    destination, [move_file] deletes that file before it renames the
    source, so when the server then refuses the [RENAME] the invocation
    ends with [FTPTransferError] after the file at the destination has
    been deleted. *)
Theorem move_file_overwrite_deletes_first self src_remote_path dest_remote_directory
    (auto_release : bool) w conn env1 e env2 :
  let dest := os_path.join dest_remote_directory (os_path.basename src_remote_path) in
  let acquired := _get_connection self w in
  let checked_directory :=
    directory_exists self dest_remote_directory false (final acquired) in
  let checked_file := check_file_exists self dest false (final checked_directory) in
  let x := move_file_body self src_remote_path dest_remote_directory
             auto_release true w in
  outcome acquired = Ok conn →
  outcome checked_directory = Ok true →
  outcome checked_file = Ok true →
  respond _ (Delete conn dest) (env (final checked_file)) = (Ok tt, env1) →
  respond _ (Rename conn src_remote_path dest) env1 = (Raise e, env2) →
  (∃ msg, outcome x = Raise (Exc FTPTransferError msg)) ∧
  ∃ before after,
    events x = before ++ EvCall (Delete conn dest)
                 :: EvLog INFO ("Deleted existing file at destination: " +:+ dest)
                 :: EvCall (Rename conn src_remote_path dest) :: after.
Proof.
  cbv zeta. intros Hacq Hdir Hfile Hdelete Hrename.
  set (dest := os_path.join dest_remote_directory (os_path.basename src_remote_path))
    in *.
  set (w1 := final (_get_connection self w)) in *.
  destruct (directory_exists self dest_remote_directory false w1)
    as [[rd wd] evd] eqn:Hd.
  run_projections_in Hdir. run_projections_in Hfile. run_projections_in Hdelete.
  subst rd.
  destruct (check_file_exists self dest false wd) as [[rc wc] evc] eqn:Hc.
  run_projections_in Hfile. run_projections_in Hdelete. subst rc.
  set (wdel := {| connection_pool := connection_pool wc; next_conn := next_conn wc;
                  env := env1; files := files wc |}).
  set (wren := {| connection_pool := connection_pool wc; next_conn := next_conn wc;
                  env := env2; files := files wc |}).
  set (deleted := EvLog INFO ("Deleted existing file at destination: " +:+ dest)).
  assert (ensure_directory self dest_remote_directory w1 = (Ok tt, wd, evd ++ []))
    as Hensure.
  { unfold ensure_directory. by rewrite (run_bind_ok _ _ _ _ _ _ Hd). }
  assert (move_file_block self src_remote_path dest_remote_directory true conn w1
          = (Ok (Raise e, Some dest), wren,
             (evd ++ []) ++
             (evc ++ ([EvCall (Delete conn dest)] ++ [deleted]) ++
              [EvCall (Rename conn src_remote_path dest)]) ++ [])) as Hblock.
  { unfold move_file_block. fold dest.
    assert (try_ (ensure_directory self dest_remote_directory) w1
            = (Ok (Ok tt), wd, evd ++ [])) as Htry
      by by rewrite run_try, Hensure.
    rewrite (run_bind_ok _ _ _ _ _ _ Htry). cbn beta iota.
    match goal with |- context [try_ ?m] =>
      assert (m wd
              = (Raise e, wren,
                 evc ++ ([EvCall (Delete conn dest)] ++ [deleted]) ++
                 [EvCall (Rename conn src_remote_path dest)])) as Hmoved end.
    { rewrite (run_bind_ok _ _ _ _ _ _ Hc). cbn beta iota.
      match goal with |- context [try_except ?m ?h] =>
        assert (try_except m h wc
                = (Ok tt, wdel, [EvCall (Delete conn dest)] ++ [deleted]))
          as Hdel end.
      { rewrite run_try_except,
          (run_bind_ok _ _ _ _ _ _ (run_sys _ wc _ _ Hdelete)). done. }
      rewrite (run_bind_ok _ _ _ _ _ _ Hdel).
      rewrite (run_bind_raises _ _ wdel e wren
                 [EvCall (Rename conn src_remote_path dest)]); [done|].
      by rewrite (run_sys _ wdel _ _ Hrename). }
    assert (∀ m : M unit, m wd = (Raise e, wren,
                 evc ++ ([EvCall (Delete conn dest)] ++ [deleted]) ++
                 [EvCall (Rename conn src_remote_path dest)]) →
            try_ m wd = (Ok (Raise e), wren,
                 evc ++ ([EvCall (Delete conn dest)] ++ [deleted]) ++
                 [EvCall (Rename conn src_remote_path dest)])) as Htry'
      by (intros m Hm; by rewrite run_try, Hm).
    rewrite (run_bind_ok _ _ _ _ _ _ (Htry' _ Hmoved)). done. }
  unfold move_file_body.
  assert (try_ (_get_connection self) w
          = (Ok (Ok conn), w1, events (_get_connection self w))) as Hget
    by by rewrite run_try, Hacq.
  rewrite (run_bind_ok _ _ _ _ _ _ Hget). cbn beta iota.
  rewrite run_bind, (run_bind_ok _ _ _ _ _ _ Hblock). cbn beta iota.
  rewrite (run_bind_ok _ _ _ _ _ _
             (run_try (_release_connection self conn auto_release) wren)).
  set (released := _release_connection self conn auto_release wren).
  assert (∃ e', (match outcome released with
                 | Ok _ => mret (Raise e, Some dest)
                 | Raise e0 => mret (Raise e0, Some dest)
                 end : M (result unit * option string)) (final released)
                = (Ok (Raise e', Some dest), final released, [])) as [e' Hended]
    by (destruct (outcome released); eauto).
  rewrite Hended. run_projections. cbn beta iota.
  destruct (move_file_handlers_with_destination src_remote_path
              dest_remote_directory dest e' (final released)) as [msg ->].
  run_projections. split; [eauto|].
  exists (events (_get_connection self w) ++ evd ++ evc),
    (events released ++ []).
  rewrite !app_nil_r. rewrite <-!app_assoc. done.
Qed.


(** ** The name of the moved file *)

Lemma rsplit_tail p h t : os_path.rsplit p = Some (h, t) → os_path.rsplit t = None.
Proof.
  revert h t. induction p as [|c p IH]; intros h t; [done|].
  cbn [os_path.rsplit]. destruct (os_path.rsplit p) as [[h' t']|] eqn:Hp.
  - intros [= <- <-]. by eapply IH.
  - destruct (os_path.is_slash c); [|done]. by intros [= <- <-].
Qed.

Lemma append_nil t : "" +:+ t = t.
Proof. reflexivity. Qed.

Lemma append_cons c a t : String c a +:+ t = String c (a +:+ t).
Proof. reflexivity. Qed.

Lemma rsplit_app_tail a t :
  os_path.rsplit t = None →
  os_path.rsplit (a +:+ t)
  = match os_path.rsplit a with
    | Some (h, t') => Some (h, t' +:+ t)
    | None => None
    end.
Proof.
  intros Ht. induction a as [|c a IH]; [done|].
  rewrite append_cons. cbn [os_path.rsplit]. rewrite IH.
  destruct (os_path.rsplit a) as [[h t']|]; [done|].
  by destruct (os_path.is_slash c).
Qed.

Lemma rsplit_app_slash a t :
  os_path.rsplit t = None →
  os_path.rsplit (a +:+ "/" +:+ t) = Some (a +:+ "/", t).
Proof.
  intros Ht. induction a as [|c a IH].
  - rewrite !append_nil, append_cons, append_nil. cbn [os_path.rsplit].
    by rewrite Ht.
  - rewrite append_cons. cbn [os_path.rsplit]. by rewrite IH.
Qed.

Lemma basename_join a b :
  os_path.rsplit b = None → os_path.basename (os_path.join a b) = b.
Proof.
  intros Hb. unfold os_path.join, os_path.basename.
  assert (os_path.endswith_slash a = true →
          ∃ h, os_path.rsplit a = Some (h, EmptyString)) as Hends.
  { unfold os_path.endswith_slash.
    destruct (os_path.rsplit a) as [[h [|c t]]|]; [eauto|done..]. }
  destruct b as [|c b].
  - destruct (bool_decide (a = EmptyString)) eqn:Hempty; cbn [orb].
    + apply bool_decide_eq_true in Hempty. by subst a.
    + destruct (os_path.endswith_slash a).
      * destruct Hends as [h ->]; done.
      * change (a +:+ "/") with (a +:+ "/" +:+ EmptyString).
        by rewrite rsplit_app_slash.
  - assert (os_path.is_slash c = false) as ->.
    { cbn [os_path.rsplit] in Hb. destruct (os_path.rsplit b) as [[]|]; [done|].
      by destruct (os_path.is_slash c). }
    destruct (bool_decide (a = EmptyString)) eqn:Hempty; cbn [orb].
    + apply bool_decide_eq_true in Hempty. subst a. by rewrite append_nil, Hb.
    + destruct (os_path.endswith_slash a).
      * destruct Hends as [h Ha]; [done|]. by rewrite rsplit_app_tail, Ha.
      * by rewrite rsplit_app_slash.
Qed.

Lemma basename_has_no_slash p : os_path.rsplit (os_path.basename p) = None.
Proof.
  unfold os_path.basename. destruct (os_path.rsplit p) as [[h t]|] eqn:Hp; [|done].
  by eapply rsplit_tail.
Qed.

Lemma renames_app evs1 evs2 : renames (evs1 ++ evs2) = renames evs1 ++ renames evs2.
Proof. apply omap_app. Qed.

Lemma renames_only_silent (P : string * string → Prop) {A} (m : M A) :
  (∀ w, renames (events (m w)) = []) → renames_only (Env:=Env) P m.
Proof. intros Hm w. by rewrite Hm. Qed.

Lemma renames_only_ret P {A} (a : A) : renames_only (Env:=Env) P (mret a).
Proof. by apply renames_only_silent. Qed.

Lemma renames_only_raise P {A} e : renames_only (Env:=Env) P (raise (A:=A) e).
Proof. by apply renames_only_silent. Qed.

Lemma renames_only_log P lvl msg : renames_only (Env:=Env) P (log lvl msg).
Proof. by apply renames_only_silent. Qed.

Lemma renames_only_sys P {A} (c : call A) :
  Forall P (renames [EvCall c]) → renames_only (Env:=Env) P (sys c).
Proof.
  intros Hc w. unfold sys. by destruct (respond A c (env w)) as [r env'].
Qed.

Lemma renames_only_bind P {A B} (m : M A) (f : A → M B) :
  renames_only (Env:=Env) P m → (∀ a, renames_only (Env:=Env) P (f a)) →
  renames_only (Env:=Env) P (m ≫= f).
Proof.
  intros Hm Hf w. rewrite run_bind. specialize (Hm w).
  destruct (m w) as [[[a|e] w1] ev1]; [|done].
  specialize (Hf a w1). destruct (f a w1) as [[r w2] ev2].
  unfold events in *. cbn [fst snd] in *.
  rewrite renames_app. by apply Forall_app.
Qed.

Lemma renames_only_try P {A} (m : M A) :
  renames_only (Env:=Env) P m → renames_only (Env:=Env) P (try_ m).
Proof. intros Hm w. rewrite run_try. apply Hm. Qed.

Lemma renames_only_try_except P {A} (m : M A) (handler : exn → M A) :
  renames_only (Env:=Env) P m → (∀ e, renames_only (Env:=Env) P (handler e)) →
  renames_only (Env:=Env) P (try_except m handler).
Proof.
  intros Hm Hh. unfold try_except. apply renames_only_bind.
  - by apply renames_only_try.
  - intros [a|e]; [apply renames_only_ret|apply Hh].
Qed.

Lemma renames_only_Retrying_call P {A} (p : Retrying) (fn : M A) :
  renames_only (Env:=Env) P fn → renames_only (Env:=Env) P (Retrying_call p fn).
Proof.
  intros Hfn w.
  destruct (Retrying_loop_total p fn (stop_max_attempt_number p - 1) 1 w)
    as (earlier & last & Hx).
  rewrite (run_Retrying_call p fn w earlier last Hx).
  unfold events at 1. cbn [snd]. clear earlier last Hx. unfold Retrying_attempts.
  generalize (stop_max_attempt_number p - 1)%nat as budget.
  generalize 1%nat as n. intros n budget. revert w n.
  induction budget as [|budget IH]; intros w n.
  - rewrite Retrying_loop_stops. apply Hfn.
  - destruct (outcome (fn w)) as [a|e] eqn:Hout.
    + rewrite (Retrying_loop_returns p fn (S budget) n w a Hout). apply Hfn.
    + destruct (retry_on_exception p e) eqn:Hrej.
      * destruct (Retrying_loop_retries p fn budget n w e Hout Hrej)
          as (earlier & last & _ & ->).
        unfold events at 1. cbn [snd]. rewrite renames_app.
        apply Forall_app. split; [apply Hfn|].
        change (renames (EvSleep ?ms :: ?evs)) with (renames evs). apply IH.
      * simpl. rewrite run_bind, run_try. cbn beta iota.
        unfold should_reject. simpl. rewrite Hout, Hrej. simpl.
        unfold events at 1. simpl. rewrite app_nil_r. apply Hfn.
Qed.

Lemma create_connection_renames self w :
  renames (events (_create_connection self w)) = [].
Proof.
  apply Retrying_call_omap_nil; [done|]. intros w'.
  unfold _create_connection_body, try_except, new_FTP, sys.
  unfold mbind, M_bind, try_, mret, M_ret, raise, log. simpl.
  run_cases; done.
Qed.

Lemma get_connection_renames self w :
  renames (events (_get_connection self w)) = [].
Proof.
  rewrite run_get_connection.
  destruct (reverse (connection_pool w)) as [|c0 rest];
    [apply create_connection_renames|].
  cbv zeta. destruct (outcome (sys (Voidcmd c0 "NOOP") _)); [done|].
  unfold events at 1. cbn [snd]. apply create_connection_renames.
Qed.

Lemma release_connection_renames self conn (auto_release : bool) w :
  renames (events (_release_connection self conn auto_release w)) = [].
Proof.
  pose proof (release_connection_spec self conn auto_release w) as (_ & _ & Hrel).
  cbv zeta in Hrel. destruct auto_release; [|by rewrite Hrel].
  destruct (_ <? _); [by destruct Hrel as (_ & _ & ->)|by destruct Hrel as (_ & ->)].
Qed.

Lemma renames_only_ftp_connection P {A} self (auto_release : bool)
    (body : Conn → M A) :
  (∀ conn, renames_only (Env:=Env) P (body conn)) →
  renames_only (Env:=Env) P (ftp_connection self auto_release body).
Proof.
  intros Hbody w. rewrite run_ftp_connection. cbv zeta.
  pose proof (get_connection_renames self w) as Hacquired.
  destruct (outcome (_get_connection self w)) as [conn|e].
  - run_projections.
    rewrite !renames_app, Hacquired, release_connection_renames, app_nil_r.
    apply Hbody.
  - run_projections. by rewrite Hacquired.
Qed.

Lemma directory_exists_renames P self remote_path (auto_release : bool) :
  renames_only (Env:=Env) P (directory_exists self remote_path auto_release).
Proof.
  apply renames_only_try_except.
  - apply renames_only_ftp_connection. intros conn.
    apply renames_only_bind; [by apply renames_only_sys|].
    intros _. apply renames_only_ret.
  - intros e. destruct (isinstance e error_perm);
      [apply renames_only_ret|apply renames_only_raise].
Qed.

Lemma check_file_exists_renames P self remote_file_path (auto_release : bool) :
  renames_only (Env:=Env) P (check_file_exists self remote_file_path auto_release).
Proof.
  apply renames_only_try_except.
  - apply renames_only_ftp_connection. intros conn.
    apply renames_only_bind; [by apply renames_only_sys|].
    intros names. apply renames_only_ret.
  - intros e. apply renames_only_bind; [apply renames_only_log|].
    intros _. apply renames_only_ret.
Qed.

Lemma create_directory_renames P self remote_directory_path (auto_release : bool) :
  renames_only (Env:=Env) P (create_directory self remote_directory_path auto_release).
Proof.
  apply renames_only_Retrying_call, renames_only_try_except.
  - apply renames_only_ftp_connection. intros conn.
    apply renames_only_bind; [by apply renames_only_sys|].
    intros _. apply renames_only_log.
  - intros e. apply renames_only_raise.
Qed.

Lemma move_file_block_renames self src_remote_path dest_remote_directory
    (overwrite : bool) conn :
  let dest := os_path.join dest_remote_directory (os_path.basename src_remote_path) in
  renames_only (Env:=Env) (λ r, r = (src_remote_path, dest))
    (move_file_block self src_remote_path dest_remote_directory overwrite conn).
Proof.
  cbv zeta. unfold move_file_block. apply renames_only_bind.
  - apply renames_only_try. unfold ensure_directory.
    apply renames_only_bind; [apply directory_exists_renames|].
    intros [|]; cbn [negb]; [apply renames_only_ret|].
    apply renames_only_bind; [apply create_directory_renames|].
    intros _. apply renames_only_log.
  - intros [[]|e]; [|apply renames_only_ret].
    apply renames_only_bind; [|intros moved; apply renames_only_ret].
    apply renames_only_try, renames_only_bind.
    + apply check_file_exists_renames.
    + intros dest_exists. apply renames_only_bind.
      * destruct dest_exists; [|apply renames_only_ret].
        destruct overwrite; [|apply renames_only_raise].
        apply renames_only_try_except.
        -- apply renames_only_bind; [by apply renames_only_sys|].
           intros _. apply renames_only_log.
        -- intros e. destruct (isinstance e error_perm); apply renames_only_raise.
      * intros _. apply renames_only_bind.
        -- apply renames_only_sys. by repeat constructor.
        -- intros _. apply renames_only_log.
Qed.

(** X21.  The file keeps its name: every [RENAME] that a call of
    [move_file] sends, at whichever attempt and whatever [overwrite] is,
    renames the source path to the destination directory joined with the
    base name of the source path, and the base name of that path is the
    base name of the source path. *)
Theorem move_file_keeps_the_name self src_remote_path dest_remote_directory
    (auto_release overwrite : bool) w :
  let dest := os_path.join dest_remote_directory (os_path.basename src_remote_path) in
  Forall (λ r, r = (src_remote_path, dest))
    (renames (events (move_file self src_remote_path dest_remote_directory
                        auto_release overwrite w))) ∧
  os_path.basename dest = os_path.basename src_remote_path.
Proof.
  cbv zeta. split; [|apply basename_join, basename_has_no_slash].
  revert w. unfold move_file. apply renames_only_Retrying_call. intros w.
  pose proof (move_file_body_with_block self src_remote_path dest_remote_directory
                auto_release overwrite w) as Hbody. cbv zeta in Hbody.
  set (block := λ ftp : Conn,
         ended ← move_file_block self src_remote_path dest_remote_directory
                   overwrite ftp;
         lift_result ended.1) in *.
  assert (Forall (λ r, r = (src_remote_path,
                            os_path.join dest_remote_directory
                              (os_path.basename src_remote_path)))
            (renames (events (ftp_connection self auto_release block w)))) as Hx.
  { apply renames_only_ftp_connection. intros conn.
    apply renames_only_bind; [apply move_file_block_renames|].
    intros [[[]|e] dest]; [apply renames_only_ret|apply renames_only_raise]. }
  destruct (outcome (ftp_connection self auto_release block w)) as [[]|e].
  - rewrite Hbody. by run_projections.
  - destruct Hbody as (dest & Hbody).
    destruct (move_file_handlers_raise src_remote_path dest_remote_directory dest e
                (final (ftp_connection self auto_release block w))) as [e' Hraise].
    cbv zeta in Hbody. rewrite Hraise in Hbody. rewrite Hbody.
    run_projections. by rewrite app_nil_r.
Qed.

(** ** Integrity verification *)

Lemma run_calculate_md5 file_path w content :
  files w !! file_path = Some content →
  calculate_md5 file_path w = (Ok (md5_hexdigest content), w, []).
Proof.
  intros Hpath. unfold calculate_md5.
  by rewrite (run_bind_ok _ _ _ _ _ _ (run_read_file file_path w content Hpath)).
Qed.


(** X23.  When the sizes agree and the server answers [SITE MD5], the
    remote file is not downloaded: [verify_file_integrity] sends [SIZE] and
    [SITE MD5] on the acquired session and nothing else, and it returns
    exactly when the second word of the reply is the digest of the local
    file. *)
Theorem verify_with_site_md5 self local_file_path remote_file_path
    (auto_release : bool) w conn data env1 reply env2 checksum :
  let acquired := _get_connection self w in
  let x := verify_file_integrity self local_file_path remote_file_path
             auto_release w in
  files w !! local_file_path = Some data →
  outcome acquired = Ok conn →
  Z.of_nat (length (connection_pool (final acquired))) < max_connections self →
  respond _ (Size conn remote_file_path) (env (final acquired))
    = (Ok (Some (Z.of_nat (length data))), env1) →
  respond _ (Sendcmd conn ("SITE MD5 " +:+ remote_file_path)) env1
    = (Ok reply, env2) →
  split_space reply !! 1%nat = Some checksum →
  (outcome x = Ok tt ↔ checksum = md5_hexdigest data) ∧
  verbs (events x)
  = verbs (events acquired) ++ ["SIZE"; "SITE MD5 " +:+ remote_file_path].
Proof.
  cbv zeta. intros Hlocal Hacq Hcap Hsize Hsite Hreply.
  set (w1 := final (_get_connection self w)) in *.
  pose proof (get_connection_spec self w) as (_ & Hfiles & _). cbv zeta in Hfiles.
  fold w1 in Hfiles.
  set (w2 := {| connection_pool := connection_pool w1; next_conn := next_conn w1;
                env := env1; files := files w1 |}).
  set (w3 := {| connection_pool := connection_pool w2; next_conn := next_conn w2;
                env := env2; files := files w2 |}).
  assert (sizes_then_site_md5 local_file_path remote_file_path conn w1
          = (Ok checksum, w3,
             [] ++ [EvCall (Size conn remote_file_path)] ++
             [EvCall (Sendcmd conn ("SITE MD5 " +:+ remote_file_path))] ++ []))
    as Hsums.
  { unfold sizes_then_site_md5.
    assert (getsize local_file_path w1 = (Ok (Z.of_nat (length data)), w1, []))
      as Hlen.
    { unfold getsize.
      rewrite (run_bind_ok _ _ _ _ _ _
                 (run_read_file local_file_path w1 data ltac:(by rewrite Hfiles))).
      done. }
    rewrite (run_bind_ok _ _ _ _ _ _ Hlen),
      (run_bind_ok _ _ _ _ _ _ (run_sys _ w1 _ _ Hsize)).
    rewrite bool_decide_eq_true_2 by done. cbn [negb].
    rewrite (run_bind_ok _ _ _ _ _ _ (run_sys _ w2 _ _ Hsite)), Hreply. done. }
  unfold verify_file_integrity.
  rewrite (run_bind_ok _ _ _ _ _ _ (run_calculate_md5 local_file_path w data Hlocal)).
  run_projections. rewrite run_try_except.
  match goal with |- context [ftp_connection self auto_release ?b w] =>
    assert (∃ r ev, b conn w1
                    = (r, w3,
                       ([] ++ [EvCall (Size conn remote_file_path)] ++
                        [EvCall (Sendcmd conn ("SITE MD5 " +:+ remote_file_path))]
                        ++ []) ++ ev) ∧
                    verbs ev = [] ∧
                    ((r = Ok tt ∧ checksum = md5_hexdigest data) ∨
                     ((∃ e, r = Raise e) ∧ checksum ≠ md5_hexdigest data)))
      as (r & ev & Hblock & Hev & Hr) end.
  { assert (try_except
              (sizes_then_site_md5 local_file_path remote_file_path conn)
              (λ _, download_and_hash self local_file_path remote_file_path) w1
            = (Ok checksum, w3,
               [] ++ [EvCall (Size conn remote_file_path)] ++
               [EvCall (Sendcmd conn ("SITE MD5 " +:+ remote_file_path))] ++ []))
      as Htry by by rewrite run_try_except, Hsums.
    rewrite (run_bind_ok _ _ _ _ _ _ Htry).
    destruct (decide (md5_hexdigest data = checksum)) as [Heq|Hne].
    - rewrite bool_decide_eq_true_2 by done. cbn [negb].
      eexists _, _. split; [done|]. split; [done|]. left. done.
    - rewrite bool_decide_eq_false_2 by done. cbn [negb].
      eexists _, _. split; [done|]. split; [done|]. right.
      split; [by eexists|]. done. }
  rewrite (ftp_connection_with_block self auto_release _ w conn _ _ _ Hacq Hblock).
  destruct (release_with_room self conn auto_release w3) as (Hok & _ & Hquiet);
    [done|].
  cbv zeta in *.
  destruct (_release_connection self conn auto_release w3) as [[r3 w3'] ev3].
  run_projections. run_projections_in Hok. run_projections_in Hquiet. subst r3 ev3.
  destruct Hr as [[-> Heq]|[[e ->] Hne]]; run_projections.
  - split; [done|]. rewrite !verbs_app, Hev. by rewrite !app_nil_r.
  - unfold raise. run_projections. split; [done|].
    rewrite !verbs_app, Hev. by rewrite !app_nil_r.
Qed.

End MoreProperties.

(** * The rest of the client on concrete inputs *)

(** The server accepts no connection. *)
Lemma acquisition_raises_connection_error_witness :
  let self := Sim.client 2 5 in
  let w := Sim.world Sim.unreachable [] 0%nat ∅ in
  ∃ e, outcome (_get_connection self w) = Raise e ∧
       exc_class e = FTPConnectionError.
Proof.
  intros self w. eexists. split; [vm_compute; reflexivity|].
  apply (proj2 (acquisition_raises_connection_error self w _)).
  vm_compute. reflexivity.
Defined.

Lemma create_connection_gives_up_after_five_witness :
  let self := Sim.client 5 5 in
  let w := Fixed.world Sim.unreachable [] 0%nat ∅ in
  verbs (events (_create_connection self w)) =
    ["CONNECT"; "CONNECT"; "CONNECT"; "CONNECT"; "CONNECT"] ∧
  ∃ e, outcome (_create_connection self w) = Raise e ∧
       exc_class e = FTPConnectionError.
Proof.
  intros self w. apply (create_connection_gives_up_after_five self w).
  intros ftp env'. eexists _, _. reflexivity.
Defined.

(** Changing to a directory that the server does not have. *)
Lemma retry_operation_backoff_witness :
  let fn := sys (Cwd 0%nat "/missing") in
  let w := Fixed.world Sim.server [] 0%nat ∅ in
  events (Retrying_call retry_operation fn w) =
  [EvCall (Cwd 0%nat "/missing"); EvSleep 2000;
   EvCall (Cwd 0%nat "/missing"); EvSleep 4000;
   EvCall (Cwd 0%nat "/missing"); EvSleep 8000;
   EvCall (Cwd 0%nat "/missing"); EvSleep 10000;
   EvCall (Cwd 0%nat "/missing")].
Proof.
  intros fn w. rewrite (retry_operation_backoff fn w); [reflexivity|].
  intros w'. eexists. reflexivity.
Defined.

(** [connect] on a client that holds one idle session already. *)
Lemma connect_fills_the_pool_witness :
  let self := Sim.client 2 5 in
  let w := Sim.world Sim.server [7%nat] 8%nat ∅ in
  let x := connect self w in
  (∃ new,
     connection_pool (final x) = [7%nat] ++ new ∧
     length new = 2%nat ∧ NoDup new ∧ Forall (λ c, (8 ≤ c)%nat) new) ∧
  (0 < 2 → [7%nat] ≠ [] → ¬ within_capacity self (final x)).
Proof.
  intros self w. apply (connect_fills_the_pool self w). vm_compute. reflexivity.
Defined.

Lemma release_then_acquire_witness :
  let self := Sim.client 2 5 in
  let w := Sim.world Sim.server [] 1%nat ∅ in
  let released := final (_release_connection self 0%nat true w) in
  outcome (_get_connection self released) = Ok 0%nat ∧
  connection_pool (final (_get_connection self released)) = [].
Proof.
  intros self w. apply (release_then_acquire self 0%nat w).
  - vm_compute. reflexivity.
  - vm_compute. reflexivity.
Defined.

(** The server has closed session 0, the next to be popped. *)
Lemma dead_session_is_replaced_witness :
  let self := Sim.client 2 5 in
  let w := Sim.world (Example.hung_up [0%nat]) [1%nat; 0%nat] 2%nat ∅ in
  let x := _get_connection self w in
  connection_pool (final x) = [1%nat] ∧
  quits (events x) = [] ∧
  ∀ c, outcome x = Ok c → c ∉ [1%nat; 0%nat].
Proof.
  intros self w.
  apply (dead_session_is_replaced self w [1%nat] 0%nat (Exc EOFError "")).
  - reflexivity.
  - repeat constructor.
  - vm_compute. reflexivity.
Defined.

(** A block that raises. *)
Lemma ftp_connection_returns_the_session_witness :
  let self := Sim.client 2 5 in
  let w := Sim.world Sim.server [] 0%nat ∅ in
  let body := λ ftp : Conn, sys (Cwd ftp "/missing") in
  outcome (ftp_connection self true body w) = Raise Sim.reply_550 ∧
  connection_pool (final (ftp_connection self true body w)) = [0%nat].
Proof.
  intros self w body.
  destruct (ftp_connection_returns_the_session self body w 0%nat) as [-> ->].
  - vm_compute. reflexivity.
  - vm_compute. reflexivity.
  - split; reflexivity.
Defined.

Lemma download_writes_received_blocks_witness :
  let self := Sim.client 5 5 in
  let blocks := [Sim.bytes 2 Byte.x01; Sim.bytes 2 Byte.x02] in
  let w := Sim.world (Sim.serving "/pub/big.bin" 4 blocks) [] 0%nat ∅ in
  let body := download_file_body self "/pub/big.bin" "big.bin" None true w in
  outcome body = Ok tt ∧
  files (final body) !! "big.bin" = Some [Byte.x01; Byte.x01; Byte.x02; Byte.x02].
Proof.
  intros self blocks w.
  eapply (download_writes_received_blocks self "/pub/big.bin" "big.bin" true w
            0%nat (Some 4) _ blocks).
  - reflexivity.
  - vm_compute. reflexivity.
  - vm_compute. reflexivity.
  - reflexivity.
  - reflexivity.
  - reflexivity.
  - discriminate.
Defined.

(** The remote file does not exist, and the local file held three bytes;
    then the same download into a directory that does not exist. *)
Lemma download_truncates_the_local_file_witness :
  let self := Sim.client 5 5 in
  let w := Sim.world Sim.server [] 0%nat {[ "a.bin" := Sim.bytes 3 Byte.x01 ]} in
  let body := download_file_body self "/pub/a.bin" "a.bin" None true w in
  let unopened := download_file_body self "/pub/a.bin" "nodir/a.bin" None true w in
  (files (final body) !! "a.bin" = Some [] ∧
   ∃ msg, outcome body = Raise (Exc FTPTransferError msg)) ∧
  (files (final unopened) = files w ∧
   verbs (events unopened) = ["CONNECT"; "LOGIN"] ∧
   ∃ msg, outcome unopened = Raise (Exc FTPTransferError msg)).
Proof.
  intros self w. cbv zeta. split.
  - apply (download_truncates_the_local_file self "/pub/a.bin" "a.bin" None true w
             0%nat) with (e := Sim.reply_550).
    + vm_compute. reflexivity.
    + reflexivity.
    + vm_compute. reflexivity.
  - destruct (download_truncates_the_local_file self "/pub/a.bin" "nodir/a.bin" None
                true w 0%nat) as [Hunopened _]; [vm_compute; reflexivity|].
    destruct (Hunopened (no_such_file "nodir/a.bin")) as (Hfiles & Hverbs & Hmsg);
      [reflexivity|].
    split; [exact Hfiles|]. split; [|exact Hmsg].
    rewrite Hverbs. vm_compute. reflexivity.
Defined.

(** A server that answers [SIZE] with a number that is no float: the
    progress bar cannot be built, and [RETR] is not sent. *)
Lemma download_without_progress_bar :
  let x := download_file_body (Sim.client 5 5) "/pub/big.bin" "big.bin" None true
             (Sim.world (Sim.serving "/pub/big.bin" (2 ^ 1024) [Sim.bytes 2 Byte.x01])
                [] 0%nat ∅) in
  outcome x = Raise (Exc FTPTransferError
                       "Error during download: int too large to convert to float") ∧
  verbs (events x) = ["CONNECT"; "LOGIN"; "SIZE"] ∧
  files (final x) !! "big.bin" = Some [].
Proof. vm_compute. done. Qed.

Lemma upload_of_missing_file_witness :
  let self := Sim.client 5 5 in
  let w := Sim.world Sim.server [] 0%nat ∅ in
  invocations retry_operation
    (upload_file_body self "a.bin" "/pub/a.bin" None true) w = 5%nat ∧
  (∃ e, outcome (upload_file self "a.bin" "/pub/a.bin" None true w) = Raise e) ∧
  stored (events (upload_file self "a.bin" "/pub/a.bin" None true w)) = [].
Proof.
  intros self w. apply (upload_of_missing_file self "a.bin" "/pub/a.bin" None true w).
  reflexivity.
Defined.

Lemma upload_sends_the_file_witness :
  let self := Sim.client 5 5 in
  let w := Sim.world Sim.server [] 0%nat {[ "a.bin" := Sim.bytes 3 Byte.x01 ]} in
  let op := upload_file self "a.bin" "/pub/a.bin" None true in
  outcome (op w) = Ok tt ∧
  stored (events (op w)) = [(0%nat, "STOR /pub/a.bin", Sim.bytes 3 Byte.x01)].
Proof.
  intros self w.
  eapply (upload_sends_the_file self "a.bin" "/pub/a.bin" true w 0%nat).
  - vm_compute. reflexivity.
  - reflexivity.
  - reflexivity.
  - vm_compute. reflexivity.
Defined.

(** The server refuses [DELE]. *)
Lemma metadata_operations_raise_transfer_error_witness :
  let self := Sim.client 5 5 in
  let w := Faulty.world Sim.server ["DELE"] [] 0%nat ∅ in
  ∃ e, outcome (delete_file self "/pub/a.bin" true w) = Raise e ∧
       exc_class e = FTPTransferError.
Proof.
  intros self w. eexists. split; [vm_compute; reflexivity|].
  eapply (proj1 (proj2 (metadata_operations_raise_transfer_error self true
                          "/pub/a.bin" "" w _))).
  vm_compute. reflexivity.
Defined.

Lemma list_files_raises_no_error_perm_witness :
  let self := Sim.client 5 5 in
  let w := Sim.world Sim.unreachable [] 0%nat ∅ in
  ∃ e, exc_class e = FTPConnectionError ∧
       outcome (list_files_body self "/pub" true true w) = Raise e.
Proof.
  intros self w. eexists. split; [|
    apply (list_files_raises_no_error_perm self "/pub" true true w);
    vm_compute; reflexivity].
  reflexivity.
Defined.

(** The server has no directory [/pub]. *)
Lemma list_files_of_unlisted_directory_witness :
  let self := Sim.client 5 5 in
  let w := Sim.world Sim.server [] 0%nat ∅ in
  outcome (list_files self "/pub" true true w) = Ok [] ∧
  invocations retry_operation (list_files_body self "/pub" true true) w = 1%nat.
Proof.
  intros self w.
  eapply (list_files_of_unlisted_directory self "/pub" true true w 0%nat
            Sim.reply_550).
  - vm_compute. reflexivity.
  - vm_compute. reflexivity.
  - reflexivity.
  - reflexivity.
  - reflexivity.
Defined.

Lemma list_files_keeps_the_files_witness :
  let self := Sim.client 5 5 in
  let w := Fixed.world Example.tree [] 0%nat ∅ in
  outcome (list_files self "/pub" true true w) = Ok ["/pub/a.txt"; "/pub/b.txt"].
Proof.
  intros self w.
  rewrite (list_files_keeps_the_files self "/pub" true w 0%nat
             ["/pub/docs"; "/pub/a.txt"; "/pub/b.txt"] (Fixed.here Example.tree) "/"
             (λ path, bool_decide (path ∈ Sim.directories Example.tree))
             (λ _, Sim.reply_550)).
  - vm_compute. reflexivity.
  - vm_compute. reflexivity.
  - vm_compute. reflexivity.
  - reflexivity.
  - intros env'. reflexivity.
  - intros env' path. unfold respond, Fixed.transport. cbn [fst].
    unfold respond, Sim.transport. by destruct (bool_decide _).
  - reflexivity.
  - reflexivity.
Defined.

Lemma directory_exists_answers_witness :
  let self := Sim.client 5 5 in
  let w := Sim.world Sim.server [] 0%nat ∅ in
  outcome (directory_exists self "/missing" true w) = Ok false.
Proof.
  intros self w.
  pose proof (directory_exists_answers self "/missing" true w) as Hanswer.
  cbv zeta in Hanswer.
  assert (outcome (_get_connection self w) = Ok 0%nat) as Hacq
    by (vm_compute; reflexivity).
  rewrite Hacq in Hanswer. rewrite Hanswer; [reflexivity|].
  vm_compute. reflexivity.
Defined.

(** Three idle sessions, and a file at the destination. *)
Lemma move_file_drains_the_pool_witness :
  let self := Sim.client 5 5 in
  let w := Sim.world (Sim.listing "/out" ["a.txt"]) [0%nat; 1%nat; 2%nat] 3%nat ∅ in
  let x := move_file self "/in/a.txt" "/out" true true w in
  (length (connection_pool (final x)) < 3)%nat ∧ quits (events x) = [].
Proof.
  intros self w. apply (move_file_drains_the_pool self "/in/a.txt" "/out" true true w).
  - simpl. lia.
  - simpl. lia.
Defined.

(** The server refuses [RENAME]. *)
Lemma move_file_overwrite_deletes_first_witness :
  let self := Sim.client 5 5 in
  let w := Faulty.world (Sim.listing "/out" ["a.txt"]) ["RENAME"] [] 0%nat ∅ in
  let x := move_file_body self "/in/a.txt" "/out" true true w in
  (∃ msg, outcome x = Raise (Exc FTPTransferError msg)) ∧
  ∃ before after,
    events x = before ++ EvCall (Delete 0%nat "/out/a.txt")
                 :: EvLog INFO "Deleted existing file at destination: /out/a.txt"
                 :: EvCall (Rename 0%nat "/in/a.txt" "/out/a.txt") :: after.
Proof.
  intros self w.
  eapply (move_file_overwrite_deletes_first self "/in/a.txt" "/out" true w 0%nat).
  - vm_compute. reflexivity.
  - vm_compute. reflexivity.
  - vm_compute. reflexivity.
  - vm_compute. reflexivity.
  - vm_compute. reflexivity.
Defined.

(** A move into [/out], which has no file of that name. *)
Lemma move_file_keeps_the_name_witness :
  let x := move_file (Sim.client 5 5) "/in/a.txt" "/out" true true
             (Sim.world (Sim.listing "/out" []) [] 0%nat ∅) in
  outcome x = Ok tt ∧
  renames (events x) = [("/in/a.txt", "/out/a.txt")] ∧
  Forall (λ r, r = ("/in/a.txt", "/out/a.txt")) (renames (events x)) ∧
  os_path.basename "/out/a.txt" = "a.txt".
Proof.
  cbv zeta. split; [vm_compute; reflexivity|]. split; [vm_compute; reflexivity|].
  exact (move_file_keeps_the_name (Sim.client 5 5) "/in/a.txt" "/out" true true
           (Sim.world (Sim.listing "/out" []) [] 0%nat ∅)).
Defined.


(** The server answers [SITE MD5] with the digest of the local file. *)
Lemma verify_with_site_md5_witness :
  let self := Sim.client 5 5 in
  let data := [Byte.x61; Byte.x62; Byte.x63] in
  let w := Sim.world (Example.with_site_md5 "/pub/a.txt" 3 "251 abc") [] 0%nat
             {[ "a.txt" := data ]} in
  let x := verify_file_integrity self "a.txt" "/pub/a.txt" true w in
  (outcome x = Ok tt ↔ "abc" = md5_hexdigest data) ∧
  verbs (events x) = ["CONNECT"; "LOGIN"; "SIZE"; "SITE MD5 /pub/a.txt"].
Proof.
  intros self data w. cbv zeta.
  destruct (verify_with_site_md5 self "a.txt" "/pub/a.txt" true w 0%nat data
              (Example.with_site_md5 "/pub/a.txt" 3 "251 abc") "251 abc"
              (Example.with_site_md5 "/pub/a.txt" 3 "251 abc") "abc")
    as [Hreturns ->].
  - reflexivity.
  - vm_compute. reflexivity.
  - vm_compute. reflexivity.
  - reflexivity.
  - reflexivity.
  - reflexivity.
  - split; [exact Hreturns|]. vm_compute. reflexivity.
Defined.

(** The server has no directory [/missing]. *)
Lemma change_directory_is_not_retried_witness :
  let self := Sim.client 5 5 in
  let w := Sim.world Sim.server [] 0%nat ∅ in
  let x := change_directory self "/missing" true w in
  outcome x = Raise (Exc FTPTransferError
    "Failed to change directory to /missing: 550 No such file or directory") ∧
  verbs (events x) = ["CONNECT"; "LOGIN"; "CWD"].
Proof.
  intros self w. cbv zeta.
  destruct (change_directory_is_not_retried self "/missing" true w 0%nat
              Sim.reply_550) as [-> ->].
  - vm_compute. reflexivity.
  - vm_compute. reflexivity.
  - vm_compute. reflexivity.
  - split; vm_compute; reflexivity.
Defined.
